(** * Address book: records, phones, birthdays and the upcoming-birthdays query

    A shallow embedding of the contact manager of [01.py] / [02.py]
    (classes [Name], [Phone], [Birthday], [Record] and [AddressBook]; the two
    files define them identically) together with the part of the Python
    runtime those classes lean on: [str.isdigit], [len],
    [datetime.strptime] with the format ["%d.%m.%Y"], [datetime.replace],
    [datetime + timedelta] and the ordering of naive datetimes.

    Python strings are sequences of Unicode code points, exceptions are
    values of an error monad, objects mutated through [self] are threaded as
    state, and the [Record] objects an [AddressBook] refers to live in a
    store indexed by references. *)

From Stdlib Require Import ZArith List String Ascii Bool Lia.
From stdpp Require Import base tactics option list gmap.

Open Scope Z_scope.

(** ** Python values: strings, exceptions, results *)

(** A [str] is a sequence of code points; [len] counts code points. *)
Definition pystr := list Z.

(** The code points of an ASCII literal of the source. *)
Definition str (s : string) : pystr :=
  map (fun a => Z.of_N (N_of_ascii a)) (list_ascii_of_string s).

Definition len (s : pystr) : Z := Z.of_nat (length s).

(** Truth value of a string: the empty string is false. *)
Definition truthy (s : pystr) : bool :=
  match s with [] => false | _ => true end.

(** The exception classes the modelled code can raise, with their message. *)
Inductive exn :=
| ValueError (msg : string)
| OverflowError (msg : string).

Inductive result (A : Type) :=
| Return (a : A)
| Raise (e : exn).
Arguments Return {A} a.
Arguments Raise {A} e.

#[global] Instance result_ret : MRet result := fun A a => Return a.

#[global] Instance result_bind : MBind result := fun A B f c =>
  match c with
  | Return a => f a
  | Raise e => Raise e
  end.

(** [try: c except ValueError: raise ValueError(msg)] *)
Definition reraise_ValueError {A} (c : result A) (msg : string) : result A :=
  match c with
  | Raise (ValueError _) => Raise (ValueError msg)
  | other => other
  end.

Definition in_range (lo hi c : Z) : bool := (lo <=? c) && (c <=? hi).

(** ** Unicode digits (the tables of CPython 3.11, Unicode 14.0) *)
Module Unicode.

(** Code points of the digit zero of every decimal script (category Nd):
    each is followed by the digits one to nine of its script. *)
Definition decimal_zeros : list Z :=
  [48; 1632; 1776; 1984; 2406; 2534; 2662; 2790; 2918; 3046; 3174; 3302;
   3430; 3558; 3664; 3792; 3872; 4160; 4240; 6112; 6160; 6470; 6608; 6784;
   6800; 6992; 7088; 7232; 7248; 42528; 43216; 43264; 43472; 43504; 43600;
   44016; 65296; 66720; 68912; 69734; 69872; 69942; 70096; 70384; 70736;
   70864; 71248; 71360; 71472; 71904; 72016; 72784; 73040; 73120; 92768;
   92864; 93008; 120782; 120792; 120802; 120812; 120822; 123200; 123632;
   125264; 130032].

(** Characters whose numeric type is Digit but not Decimal: superscripts,
    subscripts, circled and parenthesised digits and the like. *)
Definition other_digit_ranges : list (Z * Z) :=
  [(178, 179); (185, 185); (4969, 4977); (6618, 6618); (8304, 8304);
   (8308, 8313); (8320, 8329); (9312, 9320); (9332, 9340); (9352, 9360);
   (9450, 9450); (9461, 9469); (9471, 9471); (10102, 10110); (10112, 10120);
   (10122, 10130); (68160, 68163); (69216, 69224); (69714, 69722);
   (127232, 127242)].

(** The decimal value of a character, when it is a decimal digit. *)
Fixpoint decimal_in (zeros : list Z) (c : Z) : option Z :=
  match zeros with
  | [] => None
  | z :: zeros' => if in_range z (z + 9) c then Some (c - z)
                   else decimal_in zeros' c
  end.

Definition decimal (c : Z) : option Z := decimal_in decimal_zeros c.

(** [c.isdecimal()]; also what [\d] matches in a [str] pattern. *)
Definition isdecimal_char (c : Z) : bool :=
  match decimal c with Some _ => true | None => false end.

(** [c.isdigit()] for one character. *)
Definition isdigit_char (c : Z) : bool :=
  isdecimal_char c
  || existsb (fun r => in_range (fst r) (snd r) c) other_digit_ranges.

(** [s.isdigit()]: at least one character, and all of them digits. *)
Definition isdigit (s : pystr) : bool :=
  truthy s && forallb isdigit_char s.

Definition ascii_digit (c : Z) : bool := in_range 48 57 c.

End Unicode.

(** ** The value classes *)

(** [Name.__init__]: the value kept in [self.value]. *)
Definition Name (value : pystr) : result pystr :=
  if negb (truthy value) then Raise (ValueError "Name is a required field")
  else Return value.

(** [Phone.validate_phone] *)
Definition validate_phone (value : pystr) : result unit :=
  if negb (Unicode.isdigit value && (len value =? 10))
  then Raise (ValueError "Phone number must be 10 digits")
  else Return tt.

(** [Phone.__init__]: validates, then keeps the value in [self.value]. *)
Definition Phone (value : pystr) : result pystr :=
  _ ← validate_phone value; Return value.

(** ** Naive datetimes (the [datetime] module) *)
Module Datetime.

Record datetime := mk_datetime {
  year : Z; month : Z; day : Z;
  hour : Z; minute : Z; second : Z; microsecond : Z
}.

Definition MINYEAR : Z := 1.
Definition MAXYEAR : Z := 9999.
Definition MAXORDINAL : Z := 3652059.

Definition is_leap (y : Z) : bool :=
  (y mod 4 =? 0) && (negb (y mod 100 =? 0) || (y mod 400 =? 0)).

Definition DAYS_IN_MONTH : list Z :=
  [-1; 31; 28; 31; 30; 31; 30; 31; 31; 30; 31; 30; 31].

Definition DAYS_BEFORE_MONTH : list Z :=
  [-1; 0; 31; 59; 90; 120; 151; 181; 212; 243; 273; 304; 334].

Definition days_in_month (y m : Z) : Z :=
  if (m =? 2) && is_leap y then 29
  else nth (Z.to_nat m) DAYS_IN_MONTH 0.

Definition days_before_year (y : Z) : Z :=
  let y := y - 1 in y * 365 + y / 4 - y / 100 + y / 400.

Definition days_before_month (y m : Z) : Z :=
  nth (Z.to_nat m) DAYS_BEFORE_MONTH 0
  + (if (2 <? m) && is_leap y then 1 else 0).

Definition ymd2ord (y m d : Z) : Z :=
  days_before_year y + days_before_month y m + d.

Definition DI400Y : Z := days_before_year 401.
Definition DI100Y : Z := days_before_year 101.
Definition DI4Y : Z := days_before_year 5.

(** The end of [_ord2ymd]: month and day of the day number [n] (from 0) of
    a year, by an estimate of the month that is corrected when too large. *)
Definition month_day (n : Z) (leapyear : bool) : Z * Z :=
  let m := Z.shiftr (n + 50) 5 in
  let preceding :=
    nth (Z.to_nat m) DAYS_BEFORE_MONTH 0
    + (if (2 <? m) && leapyear then 1 else 0) in
  let '(m, preceding) :=
    if n <? preceding
    then (m - 1,
          preceding - (nth (Z.to_nat (m - 1)) DAYS_IN_MONTH 0
                       + (if (m - 1 =? 2) && leapyear then 1 else 0)))
    else (m, preceding) in
  (m, n - preceding + 1).

(** Ordinal to (year, month, day), 01-Jan-0001 being day 1. *)
Definition ord2ymd (n : Z) : Z * Z * Z :=
  let n := n - 1 in
  let n400 := n / DI400Y in let n := n mod DI400Y in
  let y := n400 * 400 + 1 in
  let n100 := n / DI100Y in let n := n mod DI100Y in
  let n4 := n / DI4Y in let n := n mod DI4Y in
  let n1 := n / 365 in let n := n mod 365 in
  let y := y + n100 * 100 + n4 * 4 + n1 in
  if (n1 =? 4) || (n100 =? 4) then (y - 1, 12, 31)
  else
    let leapyear := (n1 =? 3) && (negb (n4 =? 24) || (n100 =? 3)) in
    let '(m, d) := month_day n leapyear in (y, m, d).

(** The checks of the constructor [datetime(year, month, day, hour, ...)]
    (messages of the C implementation, without the offending number). *)
Definition new (y m d hh mm ss us : Z) : result datetime :=
  if negb (in_range MINYEAR MAXYEAR y)
  then Raise (ValueError "year is out of range")
  else if negb (in_range 1 12 m)
  then Raise (ValueError "month must be in 1..12")
  else if negb (in_range 1 (days_in_month y m) d)
  then Raise (ValueError "day is out of range for month")
  else if negb (in_range 0 23 hh)
  then Raise (ValueError "hour must be in 0..23")
  else if negb (in_range 0 59 mm)
  then Raise (ValueError "minute must be in 0..59")
  else if negb (in_range 0 59 ss)
  then Raise (ValueError "second must be in 0..59")
  else if negb (in_range 0 999999 us)
  then Raise (ValueError "microsecond must be in 0..999999")
  else Return (mk_datetime y m d hh mm ss us).

(** The datetimes the constructor lets through. *)
Definition valid (t : datetime) : Prop :=
  new (year t) (month t) (day t) (hour t) (minute t) (second t)
      (microsecond t) = Return t.

(** [self.replace(year=y)] builds a new datetime and so re-runs the checks. *)
Definition replace_year (t : datetime) (y : Z) : result datetime :=
  new y (month t) (day t) (hour t) (minute t) (second t) (microsecond t).

Definition toordinal (t : datetime) : Z := ymd2ord (year t) (month t) (day t).

(** [self + timedelta(days=n)]: the time of day is kept, the date moves by
    [n] days, and a date outside [1 .. MAXORDINAL] overflows. *)
Definition add_days (t : datetime) (n : Z) : result datetime :=
  let days := toordinal t + n in
  if (0 <? days) && (days <=? MAXORDINAL)
  then let '(y, m, d) := ord2ymd days in
       Return (mk_datetime y m d (hour t) (minute t) (second t)
                           (microsecond t))
  else Raise (OverflowError "date value out of range").

(** Ordering of naive datetimes: the field tuples, compared left to right. *)
Definition fields (t : datetime) : list Z :=
  [year t; month t; day t; hour t; minute t; second t; microsecond t].

Fixpoint cmp (a b : list Z) : comparison :=
  match a, b with
  | [], [] => Eq
  | [], _ :: _ => Lt
  | _ :: _, [] => Gt
  | x :: a', y :: b' =>
      match x ?= y with
      | Eq => cmp a' b'
      | c => c
      end
  end.

Definition le (a b : datetime) : bool :=
  match cmp (fields a) (fields b) with Gt => false | _ => true end.

Definition lt (a b : datetime) : bool :=
  match cmp (fields a) (fields b) with Lt => true | _ => false end.

End Datetime.

(** ** [datetime.strptime(data_string, "%d.%m.%Y")]

    [_strptime] turns the format into a regular expression, matches it at
    the start of the text with the backtracking matcher of [re], rejects
    text left over after the match, converts the three groups with [int]
    and builds the date. *)
Module Strptime.

Inductive re :=
| Chr (c : Z)            (* one given character *)
| Rng (lo hi : Z)        (* [lo-hi] *)
| Dec                    (* \d : any Unicode decimal digit *)
| Seq (r1 r2 : re)
| Alt (r1 r2 : re).      (* r1|r2, r1 tried first *)

(** Backtracking match of [r] at the start of [s]: [k] receives what is left
    of the text and may refuse it, which makes the matcher try the next
    alternative. *)
Fixpoint re_match {B} (r : re) (s : pystr) (k : pystr -> option B)
  : option B :=
  match r with
  | Chr c =>
      match s with
      | x :: s' => if x =? c then k s' else None
      | [] => None
      end
  | Rng lo hi =>
      match s with
      | x :: s' => if in_range lo hi x then k s' else None
      | [] => None
      end
  | Dec =>
      match s with
      | x :: s' => if Unicode.isdecimal_char x then k s' else None
      | [] => None
      end
  | Seq r1 r2 => re_match r1 s (fun s' => re_match r2 s' k)
  | Alt r1 r2 =>
      match re_match r1 s k with
      | Some b => Some b
      | None => re_match r2 s k
      end
  end.

Inductive directive := d_ | m_ | Y_.

Inductive item :=
| Group (g : directive) (r : re)
| Lit (c : Z).

Definition c0 : Z := 48.
Definition c1 : Z := 49.
Definition c2 : Z := 50.
Definition c3 : Z := 51.
Definition c9 : Z := 57.
Definition space : Z := 32.
Definition dot : Z := 46.
Definition percent : Z := 37.

(** [3[0-1]|[1-2]\d|0[1-9]|[1-9]| [1-9]] *)
Definition re_d : re :=
  Alt (Seq (Chr c3) (Rng c0 c1))
 (Alt (Seq (Rng c1 c2) Dec)
 (Alt (Seq (Chr c0) (Rng c1 c9))
 (Alt (Rng c1 c9)
      (Seq (Chr space) (Rng c1 c9))))).

(** [1[0-2]|0[1-9]|[1-9]] *)
Definition re_m : re :=
  Alt (Seq (Chr c1) (Rng c0 c2))
 (Alt (Seq (Chr c0) (Rng c1 c9))
      (Rng c1 c9)).

(** [\d\d\d\d] *)
Definition re_Y : re := Seq Dec (Seq Dec (Seq Dec Dec)).

(** The directives the repository uses; [None] for any other character. *)
Definition directive_of (c : Z) : option item :=
  if c =? 100 then Some (Group d_ re_d)
  else if c =? 109 then Some (Group m_ re_m)
  else if c =? 89 then Some (Group Y_ re_Y)
  else None.

(** [TimeRE.pattern]: a directive becomes its named group, any other
    character stands for itself (the model covers formats whose literal
    characters are neither blanks nor letters). [None]: the format has a
    stray [%] or a directive other than the three above. *)
Fixpoint pattern (format : pystr) : option (list item) :=
  match format with
  | [] => Some []
  | c :: rest =>
      if c =? percent then
        match rest with
        | [] => None
        | g :: rest' =>
            it ← directive_of g; its ← pattern rest'; Some (it :: its)
        end
      else its ← pattern rest; Some (Lit c :: its)
  end.

(** The groups found so far, in the order of the pattern. *)
Definition found_dict := list (directive * pystr).

(** [format_regex.match(data_string)]: the groups and the unmatched rest. *)
Fixpoint match_items (its : list item) (s : pystr) (found : found_dict)
  : option (found_dict * pystr) :=
  match its with
  | [] => Some (found, s)
  | Lit c :: its' =>
      match s with
      | x :: s' => if x =? c then match_items its' s' found else None
      | [] => None
      end
  | Group g r :: its' =>
      re_match r s (fun s' =>
        match_items its' s'
          (found ++ [(g, take (length s - length s')%nat s)]))
  end.

(** [int(text)] on the text of a group: blanks are stripped, then every
    character must be a decimal digit of some script. (Signs and underscores,
    which [int] also reads, cannot occur in a group.) *)
Fixpoint lstrip (s : pystr) : pystr :=
  match s with
  | c :: s' => if c =? space then lstrip s' else s
  | [] => []
  end.

Fixpoint digits_value (acc : Z) (s : pystr) : option Z :=
  match s with
  | [] => Some acc
  | c :: s' =>
      match Unicode.decimal c with
      | Some v => digits_value (10 * acc + v) s'
      | None => None
      end
  end.

Definition int (s : pystr) : result Z :=
  match lstrip s with
  | [] => Raise (ValueError "invalid literal for int() with base 10")
  | t =>
      match digits_value 0 t with
      | Some n => Return n
      | None => Raise (ValueError "invalid literal for int() with base 10")
      end
  end.

Definition directive_eqb (a b : directive) : bool :=
  match a, b with
  | d_, d_ | m_, m_ | Y_, Y_ => true
  | _, _ => false
  end.

(** The value of group [g]; a field the format does not set keeps
    [_strptime]'s default. *)
Definition group_value (found : found_dict) (g : directive) (default : Z)
  : result Z :=
  match List.find (fun e => directive_eqb (fst e) g) found with
  | Some (_, text) => int text
  | None => Return default
  end.

(** [datetime.strptime(data_string, format)]; the time of day of the result
    is midnight, as the format has no time directive. (A format outside the
    model is treated like one with a bad directive; the only format of the
    repository is [%d.%m.%Y].) *)
Definition strptime (data_string format : pystr)
  : result Datetime.datetime :=
  match pattern format with
  | None => Raise (ValueError "bad directive in format")
  | Some its =>
      match match_items its data_string [] with
      | None => Raise (ValueError "time data does not match format")
      | Some (found, rest) =>
          if truthy rest then Raise (ValueError "unconverted data remains")
          else
            d ← group_value found d_ 1;
            m ← group_value found m_ 1;
            y ← group_value found Y_ 1900;
            Datetime.new y m d 0 0 0 0
      end
  end.

End Strptime.

(** [Birthday.validate_birthday] *)
Definition validate_birthday (value : pystr) : result Datetime.datetime :=
  reraise_ValueError (Strptime.strptime value (str "%d.%m.%Y"))
    "Invalid date format. Use DD.MM.YYYY".

(** [Birthday.__init__]: the parsed date is kept in [self.value]. *)
Definition Birthday (value : pystr) : result Datetime.datetime :=
  validate_birthday value.

(** ** Record

    The fields of a [Record] object. [name] and the elements of [phones] are
    the [.value] of the [Name] and [Phone] objects the record holds: a
    [Phone] object is created by [add_phone] only, so no object is in two
    lists or twice in one list, and the list of objects is represented by
    the list of their values. *)
Record RecordObj := mk_Record {
  name : pystr;
  phones : list pystr;
  birthday : option Datetime.datetime
}.

#[global] Instance RecordObj_inhabited : Inhabited RecordObj :=
  populate (mk_Record [] [] None).

(** A method run on [self]: the fields afterwards, and what the call
    returned or raised. Statements run in sequence; a statement that raises
    ends the method with the fields as they are at that point. *)
Definition method (A : Type) : Type := RecordObj -> RecordObj * result A.

#[global] Instance method_ret : MRet method :=
  fun A a self => (self, Return a).

#[global] Instance method_bind : MBind method := fun A B f m self =>
  match m self with
  | (self', Return a) => f a self'
  | (self', Raise e) => (self', Raise e)
  end.

(** An expression that does not touch [self]. *)
Definition eval {A} (c : result A) : method A := fun self => (self, c).

(** [self.phones] *)
Definition get_phones : method (list pystr) :=
  fun self => (self, Return (phones self)).

(** The list [self.phones] is changed in place, or one of its phones is. *)
Definition set_phones (l : list pystr) : method unit :=
  fun self => (mk_Record (name self) l (birthday self), Return tt).

(** [self.birthday = b] *)
Definition set_birthday (b : Datetime.datetime) : method unit :=
  fun self => (mk_Record (name self) (phones self) (Some b), Return tt).

(** [Record.__init__] *)
Definition Record_init (name : pystr) : result RecordObj :=
  n ← Name name; Return (mk_Record n [] None).

(** [Record.add_phone] *)
Definition Record_add_phone (phone_number : pystr) : method unit :=
  phone ← eval (Phone phone_number);
  l ← get_phones;
  set_phones (l ++ [phone]).

(** The loop of [Record.remove_phone] over [self.phones]: the list
    afterwards and the returned flag. [self.phones.remove(phone)] takes out
    the object found, which is the first one with this value. *)
Fixpoint remove_phone_loop (l : list pystr) (phone_number : pystr)
  : list pystr * bool :=
  match l with
  | [] => ([], false)
  | phone :: rest =>
      if decide (phone = phone_number) then (rest, true)
      else let '(rest', found) := remove_phone_loop rest phone_number in
           (phone :: rest', found)
  end.

Definition Record_remove_phone (phone_number : pystr) : method bool :=
  l ← get_phones;
  let '(l', found) := remove_phone_loop l phone_number in
  _ ← set_phones l';
  mret found.

(** The loop of [Record.edit_phone]: [phone.value = new_number] on the first
    phone whose value is [old_number]. *)
Fixpoint edit_phone_loop (l : list pystr) (old_number new_number : pystr)
  : list pystr * bool :=
  match l with
  | [] => ([], false)
  | phone :: rest =>
      if decide (phone = old_number) then (new_number :: rest, true)
      else let '(rest', found) :=
             edit_phone_loop rest old_number new_number in
           (phone :: rest', found)
  end.

Definition Record_edit_phone (old_number new_number : pystr) : method bool :=
  l ← get_phones;
  let '(l', found) := edit_phone_loop l old_number new_number in
  _ ← set_phones l';
  mret found.

(** [Record.find_phone]: the first phone with this value, or [None]. *)
Definition Record_find_phone (phone_number : pystr)
  : method (option pystr) :=
  l ← get_phones;
  mret (List.find (fun phone => bool_decide (phone = phone_number)) l).

(** [Record.add_birthday] *)
Definition Record_add_birthday (text : pystr) : method unit :=
  b ← eval (Birthday text);
  set_birthday b.

(** ** AddressBook

    [Record] objects are shared between the book and its callers: the book
    holds references into a store of objects. [self.data] is a [dict], which
    keeps its keys in insertion order. *)
Definition loc := nat.
Abbreviation store := (gmap loc RecordObj).

(** [Record(name)] as an expression: a new object in the store. *)
Definition Record_new (name : pystr) (σ : store) : store * result loc :=
  match Record_init name with
  | Raise e => (σ, Raise e)
  | Return r => let l := fresh (dom σ) in (<[l := r]> σ, Return l)
  end.

(** [record.m(...)]: the method runs on the object [record] refers to. *)
Definition call {A} (record : loc) (m : method A) (σ : store)
  : store * result A :=
  let '(r, res) := m (σ !!! record) in (<[record := r]> σ, res).

Definition dict := list (pystr * loc).

(** [d[key] = value]: an existing key keeps its place. *)
Fixpoint dict_set (d : dict) (key : pystr) (value : loc) : dict :=
  match d with
  | [] => [(key, value)]
  | (k, v) :: d' =>
      if decide (k = key) then (k, value) :: d'
      else (k, v) :: dict_set d' key value
  end.

(** [d.get(key)] *)
Fixpoint dict_get (d : dict) (key : pystr) : option loc :=
  match d with
  | [] => None
  | (k, v) :: d' => if decide (k = key) then Some v else dict_get d' key
  end.

(** [key in d] *)
Definition dict_contains (d : dict) (key : pystr) : bool :=
  bool_decide (is_Some (dict_get d key)).

(** [del d[key]] *)
Fixpoint dict_del (d : dict) (key : pystr) : dict :=
  match d with
  | [] => []
  | (k, v) :: d' => if decide (k = key) then d' else (k, v) :: dict_del d' key
  end.

(** [d.values()] *)
Definition dict_values (d : dict) : list loc := map snd d.

(** [AddressBook.add_record]: the new [self.data]. *)
Definition AddressBook_add_record (σ : store) (data : dict) (record : loc)
  : dict :=
  dict_set data (name (σ !!! record)) record.

(** [AddressBook.find] *)
Definition AddressBook_find (data : dict) (name : pystr) : option loc :=
  dict_get data name.

(** [AddressBook.delete]: the new [self.data] and the returned flag. *)
Definition AddressBook_delete (data : dict) (name : pystr) : dict * bool :=
  if dict_contains data name then (dict_del data name, true)
  else (data, false).

(** The test of the loop body of [get_upcoming_birthdays] on one birthday:
    [today <= birthday_this_year < next_week], the first comparison
    deciding alone when it fails. *)
Definition in_window (today next_week b : Datetime.datetime) : result bool :=
  birthday_this_year ← Datetime.replace_year b (Datetime.year today);
  Return (Datetime.le today birthday_this_year
          && Datetime.lt birthday_this_year next_week).

(** The loop of [get_upcoming_birthdays] over [self.data.values()]. *)
Fixpoint upcoming_loop (today next_week : Datetime.datetime) (σ : store)
  (records : list loc) (upcoming_birthdays : list pystr)
  : result (list pystr) :=
  match records with
  | [] => Return upcoming_birthdays
  | record :: rest =>
      let r := σ !!! record in
      match birthday r with
      | Some b =>
          hit ← in_window today next_week b;
          if hit : bool
          then upcoming_loop today next_week σ rest
                 (upcoming_birthdays ++ [name r])
          else upcoming_loop today next_week σ rest upcoming_birthdays
      | None => upcoming_loop today next_week σ rest upcoming_birthdays
      end
  end.

(** [AddressBook.get_upcoming_birthdays]; [now] is what [datetime.now()]
    returns at the call. *)
Definition get_upcoming_birthdays (now : Datetime.datetime) (σ : store)
  (data : dict) : result (list pystr) :=
  let today := now in
  next_week ← Datetime.add_days today 7;
  upcoming_loop today next_week σ (dict_values data) [].

(** ** The operations of a Record, as a caller runs them one after another *)

Inductive op :=
| add_phone (phone_number : pystr)
| remove_phone (phone_number : pystr)
| edit_phone (old_number new_number : pystr)
| find_phone (phone_number : pystr)
| add_birthday (text : pystr).

Definition raised {A} (r : result A) : option exn :=
  match r with
  | Return _ => None
  | Raise e => Some e
  end.

Definition forget {A} (x : RecordObj * result A) : RecordObj * option exn :=
  (fst x, raised (snd x)).

(** One operation on [self]: the fields afterwards and the exception the
    caller sees, if any. *)
Definition run_op (o : op) (self : RecordObj) : RecordObj * option exn :=
  match o with
  | add_phone n => forget (Record_add_phone n self)
  | remove_phone n => forget (Record_remove_phone n self)
  | edit_phone old new => forget (Record_edit_phone old new self)
  | find_phone n => forget (Record_find_phone n self)
  | add_birthday text => forget (Record_add_birthday text self)
  end.

(** A caller that goes on after an exception, as the command loop does. *)
Definition run_ops (os : list op) (self : RecordObj) : RecordObj :=
  fold_left (fun r o => fst (run_op o r)) os self.

(** What the spec calls ValidationError: the three [ValueError]s the value
    classes raise. *)
Definition ValidationError (e : exn) : Prop :=
  e = ValueError "Name is a required field"
  \/ e = ValueError "Phone number must be 10 digits"
  \/ e = ValueError "Invalid date format. Use DD.MM.YYYY".

(** A phone value the constructor [Phone] accepts. *)
Definition valid_phone (value : pystr) : Prop :=
  length value = 10%nat
  /\ Forall (fun c => Unicode.isdigit_char c = true) value.

Definition ascii_digits (s : pystr) : Prop :=
  Forall (fun c => Unicode.ascii_digit c = true) s.

(** ** Vocabulary of the statements *)

Definition john : RecordObj := mk_Record (str "John") [] None.

Definition with_phones (self : RecordObj) (l : list pystr) : RecordObj :=
  mk_Record (name self) l (birthday self).

(** Ten Arabic-Indic digits, U+0661 .. U+0669 and U+0660. *)
Definition arabic_indic_phone : pystr :=
  [1633; 1634; 1635; 1636; 1637; 1638; 1639; 1640; 1641; 1632].

(** The texts a regular expression stands for. *)
Inductive matches : Strptime.re -> pystr -> Prop :=
| matches_Chr c : matches (Strptime.Chr c) [c]
| matches_Rng lo hi c :
    in_range lo hi c = true -> matches (Strptime.Rng lo hi) [c]
| matches_Dec c :
    Unicode.isdecimal_char c = true -> matches Strptime.Dec [c]
| matches_Seq r1 r2 s1 s2 :
    matches r1 s1 -> matches r2 s2 -> matches (Strptime.Seq r1 r2) (s1 ++ s2)
| matches_Alt_l r1 r2 s : matches r1 s -> matches (Strptime.Alt r1 r2) s
| matches_Alt_r r1 r2 s : matches r2 s -> matches (Strptime.Alt r1 r2) s.

(** The texts a pattern stands for. *)
Fixpoint items_match (its : list Strptime.item) (s : pystr) : Prop :=
  match its with
  | [] => s = []
  | Strptime.Lit c :: its' => exists s', s = c :: s' /\ items_match its' s'
  | Strptime.Group _ r :: its' =>
      exists s1 s2, s = s1 ++ s2 /\ matches r s1 /\ items_match its' s2
  end.

Definition dmY_pattern : list Strptime.item :=
  [Strptime.Group Strptime.d_ Strptime.re_d;
   Strptime.Lit Strptime.dot;
   Strptime.Group Strptime.m_ Strptime.re_m;
   Strptime.Lit Strptime.dot;
   Strptime.Group Strptime.Y_ Strptime.re_Y].

Definition keys (d : dict) : list pystr := map fst d.

(** The call happens strictly after midnight. *)
Definition after_midnight (t : Datetime.datetime) : Prop :=
  0 < Datetime.hour t \/ 0 < Datetime.minute t
  \/ 0 < Datetime.second t \/ 0 < Datetime.microsecond t.

(** Midnight of the day of [t]. *)
Definition midnight_of (t : Datetime.datetime) : Datetime.datetime :=
  Datetime.mk_datetime (Datetime.year t) (Datetime.month t) (Datetime.day t)
    0 0 0 0.

(** The birthday of the record, if any, was built by [Birthday], as
    [add_birthday] does. *)
Definition birthday_stored (r : RecordObj) : Prop :=
  forall b, birthday r = Some b -> exists text, Birthday text = Return b.

(** The date of [b] with its year replaced by [y]. *)
Definition anniversary (b : Datetime.datetime) (y : Z) : Datetime.datetime :=
  Datetime.mk_datetime y (Datetime.month b) (Datetime.day b)
    (Datetime.hour b) (Datetime.minute b) (Datetime.second b)
    (Datetime.microsecond b).

(** The moment [t] in microseconds since the start of day 0. *)
Definition micros (t : Datetime.datetime) : Z :=
  (((Datetime.toordinal t * 24 + Datetime.hour t) * 60 + Datetime.minute t)
   * 60 + Datetime.second t) * 1000000 + Datetime.microsecond t.

(** The table [month_day] has to satisfy, entry by entry. *)
Definition month_day_ok (leapyear : bool) (n : Z) : bool :=
  let '(m, d) := Datetime.month_day n leapyear in
  (1 <=? m) && (m <=? 12) && (1 <=? d)
  && (d <=? (if (m =? 2) && leapyear then 29
             else nth (Z.to_nat m) Datetime.DAYS_IN_MONTH 0))
  && (nth (Z.to_nat m) Datetime.DAYS_BEFORE_MONTH 0
      + (if (2 <? m) && leapyear then 1 else 0) + d =? n + 1).

(** The name stored in the object [record] refers to. *)
Definition name_of (σ : store) (record : loc) : pystr := name (σ !!! record).

(** The loop appends the name of [record]. *)
Definition qualifies (today next_week : Datetime.datetime) (σ : store)
  (record : loc) : bool :=
  match birthday (σ !!! record) with
  | Some b =>
      match in_window today next_week b with
      | Return hit => hit
      | Raise _ => false
      end
  | None => false
  end.

(** The birthday of [record], if any, has an anniversary in year [y]. *)
Definition anniversary_exists (y : Z) (σ : store) (record : loc) : Prop :=
  forall b, birthday (σ !!! record) = Some b ->
            exists D, Datetime.replace_year b y = Return D.

(** Keys are unique, every value refers to an object of the store, and the
    key of an entry is the name of its record. *)
Definition book_ok (σ : store) (data : dict) : Prop :=
  List.NoDup (keys data)
  /\ forall k l, In (k, l) data -> exists r, σ !! l = Some r /\ name r = k.

(** John was born on 15 November, Jane on 14 November. *)
Definition nov_store : store :=
  {[ 0%nat := mk_Record (str "John") [str "1234567890"]
                (Some (Datetime.mk_datetime 1990 11 15 0 0 0 0));
     1%nat := mk_Record (str "Jane") [str "9876543210"]
                (Some (Datetime.mk_datetime 1992 11 14 0 0 0 0)) ]}.

Definition nov_data : dict := [(str "John", 0%nat); (str "Jane", 1%nat)].

(** John was born on 15 November, Kate on 25 November; Zed has told no
    birthday. *)
Definition window_store : store :=
  {[ 0%nat := mk_Record (str "John") [str "1234567890"]
                (Some (Datetime.mk_datetime 1990 11 15 0 0 0 0));
     1%nat := mk_Record (str "Kate") []
                (Some (Datetime.mk_datetime 1990 11 25 0 0 0 0));
     2%nat := mk_Record (str "Zed") [str "5555555555"] None ]}.

Definition window_data : dict :=
  [(str "John", 0%nat); (str "Kate", 1%nat); (str "Zed", 2%nat)].

(** Ann was born on 29 February 2000, Bob on 15 November 1990. *)
Definition leap_store : store :=
  {[ 0%nat := mk_Record (str "Ann") []
                (Some (Datetime.mk_datetime 2000 2 29 0 0 0 0));
     1%nat := mk_Record (str "Bob") []
                (Some (Datetime.mk_datetime 1990 11 15 0 0 0 0)) ]}.

Definition leap_data : dict := [(str "Ann", 0%nat); (str "Bob", 1%nat)].

Definition the_loc (x : store * result loc) : store * loc :=
  (fst x, match snd x with Return l => l | Raise _ => 0%nat end).

(** The calls that build this book. *)
Definition leap_script : store * dict :=
  let '(σ, ann) := the_loc (Record_new (str "Ann") ∅) in
  let σ := fst (call ann (Record_add_birthday (str "29.02.2000")) σ) in
  let '(σ, bob) := the_loc (Record_new (str "Bob") σ) in
  let σ := fst (call bob (Record_add_birthday (str "15.11.1990")) σ) in
  let data := AddressBook_add_record σ [] ann in
  let data := AddressBook_add_record σ data bob in
  (σ, data).

(** * The rest of the program

    What follows models the code of the two files that the first part leaves
    aside: the rendering of records and books ([Record.__str__],
    [AddressBook.__str__]) and the command layer of [02.py]
    ([parse_input], [input_error], the command functions and the loop of
    [main]), with the runtime functions they use. *)

(** ** Text: [str.join], [str.split], [datetime.strftime] *)

(** [sep.join(l)] *)
Fixpoint str_join (sep : pystr) (l : list pystr) : pystr :=
  match l with
  | [] => []
  | [x] => x
  | x :: rest => x ++ sep ++ str_join sep rest
  end.

(** The characters [str.isspace] accepts (CPython 3.11, Unicode 14.0). *)
Definition whitespace_ranges : list (Z * Z) :=
  [(9, 13); (28, 32); (133, 133); (160, 160); (5760, 5760); (8192, 8202);
   (8232, 8233); (8239, 8239); (8287, 8287); (12288, 12288)].

Definition isspace_char (c : Z) : bool :=
  existsb (fun r => in_range (fst r) (snd r) c) whitespace_ranges.

(** The scan of [s.split()]: [word] is the word being read, if any; a white
    character ends it, and runs of white characters separate nothing. *)
Fixpoint split_scan (s : pystr) (word : pystr) : list pystr :=
  match s with
  | [] => if truthy word then [word] else []
  | c :: s' =>
      if isspace_char c
      then (if truthy word then word :: split_scan s' [] else split_scan s' [])
      else split_scan s' (word ++ [c])
  end.

(** [s.split()] *)
Definition str_split (s : pystr) : list pystr := split_scan s [].

(** A number below 100 in two digits, as [%d] and [%m] print it. *)
Definition two_digits (n : Z) : pystr := [48 + n / 10; 48 + n mod 10].

(** A year in decimal, as [%Y] prints it with the C library of Linux: no
    padding. The years of a [datetime] are 1 to 9999. *)
Definition year_digits (y : Z) : pystr :=
  if y <? 10 then [48 + y]
  else if y <? 100 then [48 + y / 10; 48 + y mod 10]
  else if y <? 1000 then [48 + y / 100; 48 + y / 10 mod 10; 48 + y mod 10]
  else [48 + y / 1000; 48 + y / 100 mod 10; 48 + y / 10 mod 10; 48 + y mod 10].

(** [t.strftime('%d.%m.%Y')] *)
Definition strftime_dmY (t : Datetime.datetime) : pystr :=
  two_digits (Datetime.day t) ++ [Strptime.dot]
  ++ two_digits (Datetime.month t) ++ [Strptime.dot]
  ++ year_digits (Datetime.year t).

(** ** Rendering *)

(** [Record.__str__] *)
Definition Record_str (self : RecordObj) : pystr :=
  let birthday_str :=
    match birthday self with
    | Some b => str ", birthday: " ++ strftime_dmY b
    | None => []
    end in
  str "Contact name: " ++ name self ++ str ", phones: "
  ++ str_join (str "; ") (phones self) ++ birthday_str.

Definition newline : Z := 10.

(** [AddressBook.__str__] *)
Definition AddressBook_str (σ : store) (data : dict) : pystr :=
  str_join [newline]
    (map (fun record => Record_str (σ !!! record)) (dict_values data)).

(** ** The command layer of [02.py] *)
Module Bot.

(** The objects of the program and the dictionary of the one book. *)
Record world := mk_world { objects : store; book : dict }.

(** A command function run on the book: the world afterwards, and what the
    call returned or raised. A statement that raises ends the function with
    the world as it is at that point. *)
Definition cmd (A : Type) : Type := world -> world * result A.

#[global] Instance cmd_ret : MRet cmd := fun A a w => (w, Return a).

#[global] Instance cmd_bind : MBind cmd := fun A B f m w =>
  match m w with
  | (w', Return a) => f a w'
  | (w', Raise e) => (w', Raise e)
  end.

(** An expression that does not touch the world. *)
Definition lift {A} (c : result A) : cmd A := fun w => (w, c).

(** [book.find(name)] *)
Definition find (name : pystr) : cmd (option loc) :=
  fun w => (w, Return (AddressBook_find (book w) name)).

(** [Record(name)] *)
Definition new_Record (name : pystr) : cmd loc :=
  fun w => let '(σ, r) := Record_new name (objects w) in
           (mk_world σ (book w), r).

(** [book.add_record(record)] *)
Definition add_record (record : loc) : cmd unit :=
  fun w => (mk_world (objects w)
              (AddressBook_add_record (objects w) (book w) record),
            Return tt).

(** [record.m(...)] *)
Definition on_record {A} (record : loc) (m : method A) : cmd A :=
  fun w => let '(σ, r) := call record m (objects w) in
           (mk_world σ (book w), r).

(** The fields of [record], read. *)
Definition fields_of (record : loc) : cmd RecordObj :=
  fun w => (w, Return (objects w !!! record)).

(** The message of the ValueError raised when a sequence of [got] values is
    unpacked into [expected] names and a starred rest ([got < expected],
    both below ten). *)
Definition digit (n : nat) : string :=
  String (ascii_of_nat (48 + n)) EmptyString.

Definition not_enough_values (expected got : nat) : exn :=
  ValueError ("not enough values to unpack (expected at least "
              ++ digit expected ++ ", got " ++ digit got ++ ")")%string.

(** [name, *_ = args] *)
Definition unpack1 (args : list pystr) : result pystr :=
  match args with
  | name :: _ => Return name
  | _ => Raise (not_enough_values 1 (length args))
  end.

(** [name, phone, *_ = args] *)
Definition unpack2 (args : list pystr) : result (pystr * pystr) :=
  match args with
  | name :: phone :: _ => Return (name, phone)
  | _ => Raise (not_enough_values 2 (length args))
  end.

(** [name, old_phone, new_phone, *_ = args] *)
Definition unpack3 (args : list pystr) : result (pystr * pystr * pystr) :=
  match args with
  | name :: old_phone :: new_phone :: _ => Return (name, old_phone, new_phone)
  | _ => Raise (not_enough_values 3 (length args))
  end.

(** The decorator [input_error]: the text of a ValueError, or a fixed text
    for any other exception, becomes the result. *)
Definition input_error (func : cmd pystr) : world -> world * pystr :=
  fun w =>
    match func w with
    | (w', Return text) => (w', text)
    | (w', Raise (ValueError msg)) => (w', str msg)
    | (w', Raise _) => (w', str "Invalid input. Please try again.")
    end.

(** [add_contact], before decoration *)
Definition add_contact (args : list pystr) : cmd pystr :=
  '(name, phone) ← lift (unpack2 args);
  record ← find name;
  '(record, message) ←
    match record with
    | None =>
        record ← new_Record name;
        _ ← add_record record;
        mret (record, str "Contact added.")
    | Some record => mret (record, str "Contact updated.")
    end;
  _ ← (if truthy phone then on_record record (Record_add_phone phone)
       else mret tt);
  mret message.

(** [change_contact], before decoration *)
Definition change_contact (args : list pystr) : cmd pystr :=
  '(name, old_phone, new_phone) ← lift (unpack3 args);
  record ← find name;
  match record with
  | Some record =>
      changed ← on_record record (Record_edit_phone old_phone new_phone);
      if changed : bool then mret (str "Phone number updated.")
      else mret (str "Contact not found or phone number not found.")
  | None => mret (str "Contact not found or phone number not found.")
  end.

(** [show_phone], before decoration *)
Definition show_phone (args : list pystr) : cmd pystr :=
  name ← lift (unpack1 args);
  record ← find name;
  match record with
  | Some record =>
      r ← fields_of record;
      mret (str "Phones for " ++ name ++ str ": "
            ++ str_join (str ", ") (phones r))
  | None => mret (str "Contact not found.")
  end.

(** [show_all_contacts], before decoration *)
Definition show_all_contacts : cmd pystr :=
  fun w => (w, Return (AddressBook_str (objects w) (book w))).

(** [add_birthday], before decoration *)
Definition add_birthday (args : list pystr) : cmd pystr :=
  '(name, birthday) ← lift (unpack2 args);
  record ← find name;
  match record with
  | Some record =>
      _ ← on_record record (Record_add_birthday birthday);
      mret (str "Birthday added for " ++ name ++ str ".")
  | None => mret (str "Contact not found.")
  end.

(** [show_birthday], before decoration *)
Definition show_birthday (args : list pystr) : cmd pystr :=
  name ← lift (unpack1 args);
  record ← find name;
  match record with
  | Some record =>
      r ← fields_of record;
      match birthday r with
      | Some b =>
          mret (name ++ str "'s birthday is on " ++ strftime_dmY b ++ str ".")
      | None => mret (str "Contact not found or birthday not set.")
      end
  | None => mret (str "Contact not found or birthday not set.")
  end.

(** [birthdays], before decoration; [now] is what [datetime.now()] returns
    during the call. *)
Definition birthdays (now : Datetime.datetime) (args : list pystr)
  : cmd pystr :=
  upcoming_birthdays ←
    (fun w => (w, get_upcoming_birthdays now (objects w) (book w)));
  if negb (bool_decide (upcoming_birthdays = []))
  then mret (str "Upcoming birthdays: "
             ++ str_join (str ", ") upcoming_birthdays)
  else mret (str "No upcoming birthdays.").

(** [parse_input] *)
Definition parse_input (user_input : pystr) : list pystr :=
  str_split user_input.

(** What one turn of the loop of [main] does after reading a line. *)
Inductive turn :=
| Printed (text : pystr)       (* a text was printed, the loop goes on *)
| Good_bye (text : pystr).     (* a text was printed, the loop is left *)

Definition command_is (command : pystr) (literal : string) : bool :=
  bool_decide (command = str literal).

(** The body of the loop of [main] on the line [user_input]. The unpacking
    of the parsed line is not inside any decorated function: its ValueError
    leaves [main]. *)
Definition main_turn (now : Datetime.datetime) (user_input : pystr)
  : cmd turn :=
  fun w =>
    match parse_input user_input with
    | [] => (w, Raise (not_enough_values 1 0))
    | command :: args =>
        let printed (x : world * pystr) := (fst x, Return (Printed (snd x))) in
        if command_is command "close" || command_is command "exit"
        then (w, Return (Good_bye (str "Good bye!")))
        else if command_is command "hello"
        then (w, Return (Printed (str "How can I help you?")))
        else if command_is command "add"
        then printed (input_error (add_contact args) w)
        else if command_is command "change"
        then printed (input_error (change_contact args) w)
        else if command_is command "phone"
        then printed (input_error (show_phone args) w)
        else if command_is command "all"
        then printed (input_error show_all_contacts w)
        else if command_is command "add-birthday"
        then printed (input_error (add_birthday args) w)
        else if command_is command "show-birthday"
        then printed (input_error (show_birthday args) w)
        else if command_is command "birthdays"
        then printed (input_error (birthdays now args) w)
        else (w, Return (Printed (str "Invalid command.")))
    end.

(** How a run of [main] ends on the lines it is given. *)
Inductive ending :=
| Left_loop                    (* [break] after "Good bye!" *)
| Raised (e : exn)             (* an exception left [main] *)
| Waiting.                     (* the lines are used up: [input] waits *)

(** [main] on a new book, after its welcome: the lines read, each with the
    time of the clock during its turn; the texts printed, the world at the
    end and the ending. *)
Fixpoint main_loop (lines : list (Datetime.datetime * pystr)) (w : world)
  : list pystr * world * ending :=
  match lines with
  | [] => ([], w, Waiting)
  | (now, user_input) :: rest =>
      match main_turn now user_input w with
      | (w', Raise e) => ([], w', Raised e)
      | (w', Return (Good_bye text)) => ([text], w', Left_loop)
      | (w', Return (Printed text)) =>
          let '(texts, w'', e) := main_loop rest w' in
          (text :: texts, w'', e)
      end
  end.

Definition main (lines : list (Datetime.datetime * pystr))
  : list pystr * world * ending :=
  let '(texts, w, e) := main_loop lines (mk_world ∅ []) in
  (str "Welcome to the assistant bot!" :: texts, w, e).

End Bot.

(** ** Vocabulary of the statements on the rest of the program *)

(** A character [str.split] separates words at. *)
Definition white (c : Z) : Prop := isspace_char c = true.

(** A word: not empty, and without white characters. *)
Definition token (t : pystr) : Prop :=
  t <> [] /\ List.Forall (fun c => isspace_char c = false) t.

(** The text of the ValueError of an unpacking. *)
Definition not_enough_text (expected got : nat) : pystr :=
  match Bot.not_enough_values expected got with
  | ValueError msg => str msg
  | OverflowError msg => str msg
  end.

(** A world whose only record is John, with one phone, and its book. *)
Definition john_world : Bot.world :=
  Bot.mk_world {[ 0%nat := mk_Record (str "John") [str "1234567890"] None ]}
    [(str "John", 0%nat)].

(** Reading [lines1] and then [lines2]: when [lines1] are used up without
    the loop being left, the reading goes on with [lines2] in the world
    reached; otherwise [lines2] are not read. *)
Definition main_loop_after (lines1 lines2 : list (Datetime.datetime * pystr))
  (w : Bot.world) : Prop :=
  Bot.main_loop (lines1 ++ lines2) w
  = match Bot.main_loop lines1 w with
    | (texts, w', Bot.Waiting) =>
        let '(texts', w'', e) := Bot.main_loop lines2 w' in
        (texts ++ texts', w'', e)
    | ended => ended
    end.

(** The book of the world is in order. *)
Definition world_ok (w : Bot.world) : Prop :=
  book_ok (Bot.objects w) (Bot.book w).

(** The number of line ends in a text. *)
Definition newlines (s : pystr) : nat :=
  length (List.filter (fun c => c =? newline) s).

(** The texts of the record are words and its birthday, if any, was built
    by [Birthday]. *)
Definition record_clean (r : RecordObj) : Prop :=
  token (name r) /\ List.Forall token (phones r) /\ birthday_stored r.

(** Every object of the world is such a record. *)
Definition world_clean (w : Bot.world) : Prop :=
  forall l r, Bot.objects w !! l = Some r -> record_clean r.

(** * Properties *)

(** A character between [1] and [9], case by case. *)
Ltac nine_cases c H :=
  let E := fresh in
  assert (E : c = 49 \/ c = 50 \/ c = 51 \/ c = 52 \/ c = 53 \/ c = 54
              \/ c = 55 \/ c = 56 \/ c = 57) by lia;
  clear H;
  repeat (destruct E as [E|E]; [subst c|]); [..|subst c].


(** Boolean tests on integers, case by case; impossible cases are closed by
    linear arithmetic over quotients and remainders. *)
Ltac eqb_cases :=
  repeat match goal with
         | |- context [?x =? ?y] => destruct (Z.eqb_spec x y)
         | |- context [?x <? ?y] => destruct (Z.ltb_spec x y)
         end;
  cbn [andb orb negb]; try reflexivity; try discriminate;
  try (exfalso; Z.div_mod_to_equations; lia).

(** A month, case by case. *)
Ltac twelve_cases m :=
  let E := fresh in
  assert (E : m = 1 \/ m = 2 \/ m = 3 \/ m = 4 \/ m = 5 \/ m = 6 \/ m = 7
              \/ m = 8 \/ m = 9 \/ m = 10 \/ m = 11 \/ m = 12) by lia;
  repeat (destruct E as [E|E]; [subst m|]); [..|subst m].

(** A number of a short range, case by case. *)
Ltac small_cases d lo n :=
  let H := fresh in
  assert (H : In d (map Z.of_nat (seq lo n)))
    by (apply in_map_iff; exists (Z.to_nat d); split;
        [lia|apply in_seq; lia]);
  simpl in H;
  repeat (destruct H as [H|H]; [subst d|]); [..|destruct H].

(** The steps of a command function, unfolded. *)
Ltac run_cmd :=
  cbv [mbind mret Bot.cmd_bind Bot.cmd_ret Bot.lift Bot.find Bot.new_Record
       Bot.add_record Bot.on_record Bot.fields_of Bot.input_error
       Bot.unpack1 Bot.unpack2 Bot.unpack3 Bot.objects Bot.book].

(** ** Digits *)

Lemma ascii_digit_decimal c :
  Unicode.ascii_digit c = true -> Unicode.decimal c = Some (c - 48).
Proof.
  unfold Unicode.ascii_digit, Unicode.decimal, Unicode.decimal_zeros.
  intros H. simpl. change (48 + 9) with 57. now rewrite H.
Qed.

Lemma ascii_digit_isdecimal c :
  Unicode.ascii_digit c = true -> Unicode.isdecimal_char c = true.
Proof.
  intros H. unfold Unicode.isdecimal_char. now rewrite ascii_digit_decimal.
Qed.

Lemma ascii_digit_isdigit c :
  Unicode.ascii_digit c = true -> Unicode.isdigit_char c = true.
Proof.
  intros H. unfold Unicode.isdigit_char. now rewrite ascii_digit_isdecimal.
Qed.

Lemma isdigit_spec s :
  Unicode.isdigit s = true
  <-> s <> [] /\ Forall (fun c => Unicode.isdigit_char c = true) s.
Proof.
  unfold Unicode.isdigit.
  rewrite andb_true_iff, forallb_forall, List.Forall_forall.
  destruct s; simpl truthy; split; intros [H1 H2]; split;
    solve [assumption | discriminate | reflexivity | congruence].
Qed.

Lemma len_10 (s : pystr) : (len s =? 10) = true <-> length s = 10%nat.
Proof. unfold len. rewrite Z.eqb_eq. lia. Qed.

Lemma validate_phone_Return value :
  validate_phone value = Return tt <-> valid_phone value.
Proof.
  unfold validate_phone, valid_phone.
  destruct (Unicode.isdigit value && (len value =? 10)) eqn:E; simpl.
  - apply andb_true_iff in E as [H1 H2].
    apply isdigit_spec in H1 as [_ H1]. apply len_10 in H2. tauto.
  - split; [discriminate|]. intros [H1 H2].
    assert (Unicode.isdigit value && (len value =? 10) = true); [|congruence].
    apply andb_true_iff. split; [|now apply len_10].
    apply isdigit_spec. split; [|assumption].
    intros ->. discriminate.
Qed.

Lemma validate_phone_Raise value :
  validate_phone value = Raise (ValueError "Phone number must be 10 digits")
  <-> ~ valid_phone value.
Proof.
  rewrite <- validate_phone_Return. unfold validate_phone.
  destruct (negb _); split; congruence.
Qed.

Lemma Phone_Return value : valid_phone value -> Phone value = Return value.
Proof.
  intros H. apply validate_phone_Return in H. unfold Phone. now rewrite H.
Qed.

Lemma Phone_Raise value :
  ~ valid_phone value ->
  Phone value = Raise (ValueError "Phone number must be 10 digits").
Proof.
  intros H. apply validate_phone_Raise in H. unfold Phone. now rewrite H.
Qed.

Lemma valid_phone_dec value : valid_phone value \/ ~ valid_phone value.
Proof.
  destruct (validate_phone value) as [[]|e] eqn:E.
  - left. now apply validate_phone_Return.
  - right. rewrite <- validate_phone_Return. congruence.
Qed.

(** Ten ASCII digits make a phone, as do ten digits of any other script. *)
Lemma ascii_digits_valid_phone s :
  length s = 10%nat -> ascii_digits s -> valid_phone s.
Proof.
  intros Hl Hd. split; [assumption|].
  eapply Forall_impl; [exact Hd|]. intros c. apply ascii_digit_isdigit.
Qed.

(** ** Record: phones *)

(** The methods, statement by statement. *)
Lemma Record_add_phone_eq n self :
  Record_add_phone n self
  = match Phone n with
    | Return phone => (with_phones self (phones self ++ [phone]), Return tt)
    | Raise e => (self, Raise e)
    end.
Proof.
  unfold Record_add_phone. cbv [mbind method_bind eval].
  now destruct (Phone n).
Qed.

Lemma Record_remove_phone_eq n self :
  Record_remove_phone n self
  = (with_phones self (fst (remove_phone_loop (phones self) n)),
     Return (snd (remove_phone_loop (phones self) n))).
Proof.
  unfold Record_remove_phone. cbv [mbind method_bind get_phones].
  now destruct (remove_phone_loop (phones self) n).
Qed.

Lemma Record_edit_phone_eq old new self :
  Record_edit_phone old new self
  = (with_phones self (fst (edit_phone_loop (phones self) old new)),
     Return (snd (edit_phone_loop (phones self) old new))).
Proof.
  unfold Record_edit_phone. cbv [mbind method_bind get_phones].
  now destruct (edit_phone_loop (phones self) old new).
Qed.

Lemma Record_find_phone_eq n self :
  Record_find_phone n self
  = (self, Return (List.find (fun phone => bool_decide (phone = n))
                             (phones self))).
Proof. reflexivity. Qed.

Lemma Record_add_birthday_eq text self :
  Record_add_birthday text self
  = match Birthday text with
    | Return b => (mk_Record (name self) (phones self) (Some b), Return tt)
    | Raise e => (self, Raise e)
    end.
Proof.
  unfold Record_add_birthday. cbv [mbind method_bind eval].
  now destruct (Birthday text).
Qed.

Lemma Record_init_john : Record_init (str "John") = Return john.
Proof. reflexivity. Qed.

Lemma Record_init_spec n :
  (n <> [] -> Record_init n = Return (mk_Record n [] None))
  /\ (n = [] ->
      Record_init n = Raise (ValueError "Name is a required field")).
Proof. split; intros H; destruct n; try reflexivity; congruence. Qed.

Lemma add_phone_valid s self :
  valid_phone s ->
  Record_add_phone s self = (with_phones self (phones self ++ [s]), Return tt).
Proof. intros H. rewrite Record_add_phone_eq. now rewrite Phone_Return. Qed.

Lemma add_phone_invalid s self :
  ~ valid_phone s ->
  Record_add_phone s self
  = (self, Raise (ValueError "Phone number must be 10 digits")).
Proof. intros H. rewrite Record_add_phone_eq. now rewrite Phone_Raise. Qed.

(** C4, as amended: [add_phone(s)] appends a phone with value [s] at the end
    of the list exactly when [s] has ten characters that are all digits in
    the sense of [str.isdigit] (the digits of any script, superscripts and
    the like), and raises the ValueError of [Phone], leaving the record as it
    was, exactly when it has not; ten ASCII digits are always accepted. *)
Theorem add_phone_succeeds_iff_ten_unicode_digits (s : pystr)
  (self : RecordObj) :
  (valid_phone s <->
   Record_add_phone s self
   = (with_phones self (phones self ++ [s]), Return tt))
  /\ (~ valid_phone s <->
      Record_add_phone s self
      = (self, Raise (ValueError "Phone number must be 10 digits")))
  /\ (length s = 10%nat /\ ascii_digits s -> valid_phone s).
Proof.
  split; [|split].
  - split; [apply add_phone_valid|].
    intros H. destruct (valid_phone_dec s) as [|Hn]; [assumption|].
    rewrite (add_phone_invalid _ _ Hn) in H. discriminate.
  - split; [apply add_phone_invalid|].
    intros H Hv. rewrite (add_phone_valid _ _ Hv) in H. discriminate.
  - intros [Hl Hd]. now apply ascii_digits_valid_phone.
Qed.

(** C4, as stated, fails: [add_phone] accepts a text of ten digits none of
    which is an ASCII digit. *)
Lemma add_phone_accepts_non_ascii_digits :
  Record_add_phone arabic_indic_phone john
  = (mk_Record (str "John") [arabic_indic_phone] None, Return tt)
  /\ ~ (length arabic_indic_phone = 10%nat /\ ascii_digits arabic_indic_phone).
Proof.
  split; [reflexivity|].
  intros [_ H]. inversion H as [|c l Hc _]. discriminate Hc.
Qed.

Lemma edit_phone_loop_absent l old new :
  ~ In old l -> edit_phone_loop l old new = (l, false).
Proof.
  induction l as [|p l IH]; simpl; intros H; [reflexivity|].
  destruct (decide (p = old)) as [->|Hne]; [tauto|].
  rewrite IH by tauto. reflexivity.
Qed.

Lemma edit_phone_loop_first l1 l2 old new :
  ~ In old l1 ->
  edit_phone_loop (l1 ++ old :: l2) old new = (l1 ++ new :: l2, true).
Proof.
  induction l1 as [|p l1 IH]; simpl; intros H.
  - destruct (decide (old = old)); [reflexivity|congruence].
  - destruct (decide (p = old)) as [->|Hne]; [tauto|].
    rewrite IH by tauto. reflexivity.
Qed.

(** What [edit_phone] does: the first phone equal to [old] takes the value
    [new], whatever [new] is, and the answer is [True]; without such a phone
    nothing changes and the answer is [False]. It never raises. *)
Lemma edit_phone_first_match self l1 l2 old new :
  phones self = l1 ++ old :: l2 -> ~ In old l1 ->
  Record_edit_phone old new self
  = (with_phones self (l1 ++ new :: l2), Return true).
Proof.
  intros Hp Hn. rewrite Record_edit_phone_eq, Hp.
  now rewrite edit_phone_loop_first.
Qed.

Lemma edit_phone_no_match self old new :
  ~ In old (phones self) ->
  Record_edit_phone old new self = (self, Return false).
Proof.
  intros Hn. rewrite Record_edit_phone_eq.
  rewrite edit_phone_loop_absent by assumption. now destruct self.
Qed.

Lemma edit_phone_never_raises self old new e :
  snd (Record_edit_phone old new self) <> Raise e.
Proof.
  rewrite Record_edit_phone_eq. discriminate.
Qed.

(** C2 at the failing input: [edit_phone("1234567890", "abc")] stores
    ["abc"] and answers [True], although [Phone("abc")] is refused. *)
Theorem edit_phone_accepts_invalid_number :
  Record_edit_phone (str "1234567890") (str "abc")
    (mk_Record (str "John") [str "1234567890"; str "5555555555"] None)
  = (mk_Record (str "John") [str "abc"; str "5555555555"] None, Return true)
  /\ Phone (str "abc") = Raise (ValueError "Phone number must be 10 digits").
Proof. split; reflexivity. Qed.

(** C1 at the failing input: after [add_phone("1234567890")] and
    [edit_phone("1234567890", "abc")] on the new record [Record("John")],
    the phone list holds ["abc"], which is not ten digits. *)
Theorem edit_phone_breaks_ten_digit_invariant :
  Record_init (str "John") = Return john
  /\ phones (run_ops [add_phone (str "1234567890");
                      edit_phone (str "1234567890") (str "abc")] john)
     = [str "abc"]
  /\ ~ valid_phone (str "abc").
Proof.
  split; [reflexivity|]. split; [reflexivity|]. intros [H _]. discriminate H.
Qed.

Lemma remove_phone_loop_sublist l n :
  forall p, In p (fst (remove_phone_loop l n)) -> In p l.
Proof.
  induction l as [|q l IH]; simpl; intros p; [tauto|].
  destruct (decide (q = n)); simpl; [tauto|].
  destruct (remove_phone_loop l n) as [l' b] eqn:E. simpl in *.
  intros [->|H]; [now left|]. right. now apply IH.
Qed.

Lemma edit_phone_loop_members l old new :
  forall p, In p (fst (edit_phone_loop l old new)) -> p = new \/ In p l.
Proof.
  induction l as [|q l IH]; simpl; intros p; [tauto|].
  destruct (decide (q = old)); simpl;
    [intros [<-|H]; [now left|right; now right]|].
  destruct (edit_phone_loop l old new) as [l' b] eqn:E. simpl in *.
  intros [->|H]; [right; now left|]. destruct (IH _ H); tauto.
Qed.

(** Apart from [edit_phone] with a number [Phone] would refuse, every
    operation keeps all phones of the record valid. *)
Lemma run_op_keeps_phones_valid o self :
  (forall old new, o = edit_phone old new -> valid_phone new) ->
  List.Forall valid_phone (phones self) ->
  List.Forall valid_phone (phones (fst (run_op o self))).
Proof.
  intros Hedit Hall. destruct o as [n|n|old new|n|text]; simpl.
  - destruct (valid_phone_dec n) as [Hv|Hv].
    + rewrite add_phone_valid by assumption. simpl.
      apply List.Forall_app. split; [assumption|]. now constructor.
    + now rewrite add_phone_invalid.
  - rewrite Record_remove_phone_eq. simpl.
    pose proof (remove_phone_loop_sublist (phones self) n) as Hs.
    rewrite List.Forall_forall in *. auto.
  - rewrite Record_edit_phone_eq. simpl.
    pose proof (edit_phone_loop_members (phones self) old new) as Hs.
    rewrite List.Forall_forall in *. intros p Hp.
    destruct (Hs p Hp) as [->|]; [now apply (Hedit old new)|auto].
  - assumption.
  - rewrite Record_add_birthday_eq. now destruct (Birthday text).
Qed.

(** So the phones of a record stay valid along any run of operations in
    which [edit_phone] is only given numbers that [Phone] accepts. *)
Lemma run_ops_keep_phones_valid os :
  List.Forall (fun o => forall old new, o = edit_phone old new ->
                                         valid_phone new) os ->
  forall self,
    List.Forall valid_phone (phones self) ->
    List.Forall valid_phone (phones (run_ops os self)).
Proof.
  induction 1 as [|o os Ho _ IH]; intros self Hs; simpl; [assumption|].
  apply IH. now apply run_op_keeps_phones_valid.
Qed.

(** C6: an operation on a record that raises leaves every field of the
    record as it was; this covers [add_phone], [edit_phone] and
    [add_birthday], whose checks all come before the assignment. *)
Theorem raising_operation_leaves_record_unchanged (o : op)
  (self self' : RecordObj) (e : exn) :
  run_op o self = (self', Some e) -> self' = self.
Proof.
  destruct o as [n|n|old new|n|text]; unfold run_op, forget.
  - rewrite Record_add_phone_eq. destruct (Phone n); simpl; congruence.
  - rewrite Record_remove_phone_eq. discriminate.
  - rewrite Record_edit_phone_eq. discriminate.
  - discriminate.
  - rewrite Record_add_birthday_eq.
    destruct (Birthday text); simpl; congruence.
Qed.

Lemma raising_operation_leaves_record_unchanged_witness :
  run_op (add_phone (str "12345"))
    (mk_Record (str "John") [str "1234567890"] None)
  = (mk_Record (str "John") [str "1234567890"] None,
     Some (ValueError "Phone number must be 10 digits"))
  /\ mk_Record (str "John") [str "1234567890"] None
     = mk_Record (str "John") [str "1234567890"] None.
Proof.
  split; [reflexivity|].
  apply (raising_operation_leaves_record_unchanged
           (add_phone (str "12345"))
           (mk_Record (str "John") [str "1234567890"] None)
           (mk_Record (str "John") [str "1234567890"] None)
           (ValueError "Phone number must be 10 digits")).
  reflexivity.
Defined.

(** ** Dates *)

Lemma new_Return y m d hh mm ss us t :
  Datetime.new y m d hh mm ss us = Return t ->
  t = Datetime.mk_datetime y m d hh mm ss us
  /\ in_range Datetime.MINYEAR Datetime.MAXYEAR y = true
  /\ in_range 1 12 m = true
  /\ in_range 1 (Datetime.days_in_month y m) d = true.
Proof.
  unfold Datetime.new.
  repeat match goal with
         | |- context [negb ?b] => destruct b; simpl; try discriminate
         end.
  intros [= <-]. auto.
Qed.

Lemma new_valid y m d hh mm ss us t :
  Datetime.new y m d hh mm ss us = Return t -> Datetime.valid t.
Proof.
  intros H. destruct (new_Return _ _ _ _ _ _ _ _ H) as [-> _].
  exact H.
Qed.

(** What [strptime] returns is a date the constructor accepts, at midnight. *)
Lemma strptime_Return text format t :
  Strptime.strptime text format = Return t ->
  Datetime.valid t
  /\ Datetime.hour t = 0 /\ Datetime.minute t = 0
  /\ Datetime.second t = 0 /\ Datetime.microsecond t = 0.
Proof.
  unfold Strptime.strptime.
  destruct (Strptime.pattern format) as [its|]; [|discriminate].
  destruct (Strptime.match_items its text []) as [[found rest]|];
    [|discriminate].
  destruct (truthy rest); [discriminate|].
  destruct (Strptime.group_value found Strptime.d_ 1) as [d|];
    [|discriminate].
  destruct (Strptime.group_value found Strptime.m_ 1) as [m|];
    [|discriminate].
  destruct (Strptime.group_value found Strptime.Y_ 1900) as [y|];
    [|discriminate].
  simpl. intros H. split; [now apply new_valid in H|].
  apply new_Return in H as [-> _]. auto.
Qed.

Lemma reraise_Return {A} (c : result A) msg a :
  reraise_ValueError c msg = Return a <-> c = Return a.
Proof. destruct c as [|[]]; simpl; split; congruence. Qed.

(** The invariant of the data model: a birthday, once built, is a valid
    calendar date (with the time of day at midnight). *)
Lemma Birthday_Return text b :
  Birthday text = Return b ->
  Datetime.valid b
  /\ Datetime.hour b = 0 /\ Datetime.minute b = 0
  /\ Datetime.second b = 0 /\ Datetime.microsecond b = 0.
Proof.
  unfold Birthday, validate_birthday. rewrite reraise_Return.
  apply strptime_Return.
Qed.

(** [Birthday] raises nothing but its own ValueError: [strptime] only raises
    ValueError, which [validate_birthday] replaces. *)
Lemma strptime_raises_ValueError text format e :
  Strptime.strptime text format = Raise e -> exists msg, e = ValueError msg.
Proof.
  unfold Strptime.strptime.
  destruct (Strptime.pattern format) as [its|]; [|intros [= <-]; eauto].
  destruct (Strptime.match_items its text []) as [[found rest]|];
    [|intros [= <-]; eauto].
  destruct (truthy rest); [intros [= <-]; eauto|].
  assert (Hint : forall g dflt e',
             Strptime.group_value found g dflt = Raise e' ->
             exists msg, e' = ValueError msg).
  { intros g dflt e'. unfold Strptime.group_value.
    destruct (List.find _ found) as [[? txt]|]; [|discriminate].
    unfold Strptime.int. destruct (Strptime.lstrip txt);
      [intros [= <-]; eauto|].
    destruct (Strptime.digits_value 0 _); [discriminate|].
    intros [= <-]; eauto. }
  destruct (Strptime.group_value found Strptime.d_ 1) as [d|e1] eqn:E1;
    [|intros [= <-]; eauto].
  destruct (Strptime.group_value found Strptime.m_ 1) as [m|e2] eqn:E2;
    [|intros [= <-]; eauto].
  destruct (Strptime.group_value found Strptime.Y_ 1900) as [y|e3] eqn:E3;
    [|intros [= <-]; eauto].
  simpl. unfold Datetime.new.
  repeat match goal with
         | |- context [negb ?b] =>
             destruct b; simpl; [|intros [= <-]; eauto]
         end.
  discriminate.
Qed.

Lemma Birthday_Raise text e :
  Birthday text = Raise e ->
  e = ValueError "Invalid date format. Use DD.MM.YYYY".
Proof.
  unfold Birthday, validate_birthday.
  destruct (Strptime.strptime text _) as [|e'] eqn:E; [discriminate|].
  apply strptime_raises_ValueError in E as [msg ->]. simpl. congruence.
Qed.

(** C7: ["15.11.1990"] parses to day 15, month 11, year 1990; ["31.02.1990"],
    which names no calendar day, and ["1990-11-15"], with the wrong
    separator, are refused with the ValueError of [Birthday]. *)
Theorem Birthday_parses_day_month_year :
  Birthday (str "15.11.1990") = Return (Datetime.mk_datetime 1990 11 15 0 0 0 0)
  /\ Birthday (str "31.02.1990")
     = Raise (ValueError "Invalid date format. Use DD.MM.YYYY")
  /\ Birthday (str "1990-11-15")
     = Raise (ValueError "Invalid date format. Use DD.MM.YYYY").
Proof. repeat split; vm_compute; reflexivity. Qed.

Example strptime_refusals :
  Strptime.strptime (str "31.02.1990") (str "%d.%m.%Y")
  = Raise (ValueError "day is out of range for month")
  /\ Strptime.strptime (str "1990-11-15") (str "%d.%m.%Y")
     = Raise (ValueError "time data does not match format")
  /\ Strptime.strptime (str "15.11.1990 ") (str "%d.%m.%Y")
     = Raise (ValueError "unconverted data remains").
Proof. repeat split; vm_compute; reflexivity. Qed.

(** ** The regular expression of the format *)

(** The matcher only succeeds on a prefix the expression stands for, and
    then with an answer of its continuation on the rest. *)
Lemma re_match_sound {B} r :
  forall s (k : pystr -> option B) b,
    Strptime.re_match r s k = Some b ->
    exists s1 s2, s = s1 ++ s2 /\ matches r s1 /\ k s2 = Some b.
Proof.
  induction r as [c|lo hi| |r1 IH1 r2 IH2|r1 IH1 r2 IH2]; intros s k b; simpl.
  - destruct s as [|x s]; [discriminate|].
    destruct (Z.eqb_spec x c) as [->|]; [|discriminate].
    intros H. exists [c], s. repeat split; [constructor|assumption].
  - destruct s as [|x s]; [discriminate|].
    destruct (in_range lo hi x) eqn:E; [|discriminate].
    intros H. exists [x], s. repeat split; [now constructor|assumption].
  - destruct s as [|x s]; [discriminate|].
    destruct (Unicode.isdecimal_char x) eqn:E; [|discriminate].
    intros H. exists [x], s. repeat split; [now constructor|assumption].
  - intros H. apply IH1 in H as (s1 & s' & -> & M1 & H).
    apply IH2 in H as (s2 & s3 & -> & M2 & H).
    exists (s1 ++ s2), s3. rewrite <- app_assoc.
    repeat split; [now constructor|assumption].
  - destruct (Strptime.re_match r1 s k) as [b'|] eqn:E.
    + intros [= <-]. apply IH1 in E as (s1 & s2 & -> & M & H).
      exists s1, s2. repeat split; [now apply matches_Alt_l|assumption].
    + intros H. apply IH2 in H as (s1 & s2 & -> & M & H).
      exists s1, s2. repeat split; [now apply matches_Alt_r|assumption].
Qed.

Lemma match_items_sound its :
  forall s found found' rest,
    Strptime.match_items its s found = Some (found', rest) ->
    exists pre, s = pre ++ rest /\ items_match its pre.
Proof.
  induction its as [|[g r|c] its IH]; intros s found found' rest; simpl.
  - intros [= <- <-]. now exists [].
  - intros H. apply re_match_sound in H as (s1 & s2 & -> & M & H).
    apply IH in H as (pre & -> & Hpre).
    exists (s1 ++ pre). rewrite <- app_assoc. split; [reflexivity|].
    now exists s1, pre.
  - destruct s as [|x s]; [discriminate|].
    destruct (Z.eqb_spec x c) as [->|]; [|discriminate].
    intros H. apply IH in H as (pre & -> & Hpre).
    exists (c :: pre). split; [reflexivity|]. now exists pre.
Qed.

Lemma matches_re_Y Y :
  matches Strptime.re_Y Y ->
  length Y = 4%nat
  /\ List.Forall (fun c => Unicode.isdecimal_char c = true) Y.
Proof.
  unfold Strptime.re_Y. intros H.
  repeat match goal with
         | H : matches (Strptime.Seq _ _) _ |- _ =>
             inversion H; subst; clear H
         | H : matches Strptime.Dec _ |- _ => inversion H; subst; clear H
         end.
  split; [reflexivity|]. repeat constructor; assumption.
Qed.

Lemma matches_length_1_2 r s :
  r = Strptime.re_d \/ r = Strptime.re_m ->
  matches r s -> length s = 1%nat \/ length s = 2%nat.
Proof.
  intros [->| ->] H; unfold Strptime.re_d, Strptime.re_m in H;
    repeat match goal with
           | H : matches (Strptime.Alt _ _) _ |- _ =>
               inversion H; subst; clear H
           | H : matches (Strptime.Seq _ _) _ |- _ =>
               inversion H; subst; clear H
           | H : matches (Strptime.Chr _) _ |- _ => inversion H; subst; clear H
           | H : matches (Strptime.Rng _ _) _ |- _ =>
               inversion H; subst; clear H
           | H : matches Strptime.Dec _ |- _ => inversion H; subst; clear H
           end; simpl; auto.
Qed.

(** The pattern [_strptime] builds from the format of [validate_birthday]:
    [(?P<d>...)\.(?P<m>...)\.(?P<Y>\d\d\d\d)]. *)
Lemma pattern_dmY : Strptime.pattern (str "%d.%m.%Y") = Some dmY_pattern.
Proof. reflexivity. Qed.

(** The shape of every text [Birthday] accepts: a day field and a month
    field of one or two characters and a year field of exactly four decimal
    digits, separated by dots, and nothing else. *)
Lemma Birthday_accepted_shape text b :
  Birthday text = Return b ->
  exists D M Y,
    text = D ++ Strptime.dot :: M ++ Strptime.dot :: Y
    /\ (length D = 1%nat \/ length D = 2%nat)
    /\ (length M = 1%nat \/ length M = 2%nat)
    /\ length Y = 4%nat
    /\ List.Forall (fun c => Unicode.isdecimal_char c = true) Y.
Proof.
  unfold Birthday, validate_birthday. rewrite reraise_Return.
  unfold Strptime.strptime.
  rewrite pattern_dmY.
  destruct (Strptime.match_items dmY_pattern text []) as [[found rest]|] eqn:E;
    [|discriminate].
  destruct rest as [|x rest]; [|discriminate]. intros _.
  apply match_items_sound in E as (pre & -> & H).
  rewrite app_nil_r.
  destruct H as (D & s2 & -> & HD & s3 & -> & M & s4 & -> & HM & s5 & ->
                 & Y & s6 & -> & HY & ->).
  rewrite app_nil_r. exists D, M, Y.
  split; [reflexivity|].
  split; [apply (matches_length_1_2 Strptime.re_d); [now left|assumption]|].
  split; [apply (matches_length_1_2 Strptime.re_m); [now right|assumption]|].
  now apply matches_re_Y.
Qed.

(** ** Accepted texts: one-digit days and months *)

Lemma ascii_digit_range c : Unicode.ascii_digit c = true <-> 48 <= c <= 57.
Proof.
  unfold Unicode.ascii_digit, in_range.
  rewrite andb_true_iff, !Z.leb_le. tauto.
Qed.

Lemma in_range_spec lo hi c : in_range lo hi c = true <-> lo <= c <= hi.
Proof. unfold in_range. rewrite andb_true_iff, !Z.leb_le. tauto. Qed.

Lemma re_d_one_digit {B} c rest (k : pystr -> option B) :
  49 <= c <= 57 ->
  Strptime.re_match Strptime.re_d (c :: Strptime.dot :: rest) k
  = k (Strptime.dot :: rest).
Proof.
  intros H. nine_cases c H; vm_compute;
    now destruct (k (46 :: rest)).
Qed.

Lemma re_m_one_digit {B} c rest (k : pystr -> option B) :
  49 <= c <= 57 ->
  Strptime.re_match Strptime.re_m (c :: Strptime.dot :: rest) k
  = k (Strptime.dot :: rest).
Proof.
  intros H. nine_cases c H; vm_compute;
    now destruct (k (46 :: rest)).
Qed.

Lemma re_Y_four_digits {B} y1 y2 y3 y4 rest (k : pystr -> option B) :
  ascii_digits [y1; y2; y3; y4] ->
  Strptime.re_match Strptime.re_Y (y1 :: y2 :: y3 :: y4 :: rest) k = k rest.
Proof.
  intros H.
  inversion H as [|? ? H1 H']; subst. inversion H' as [|? ? H2 H'']; subst.
  inversion H'' as [|? ? H3 H''']; subst. inversion H''' as [|? ? H4 _]; subst.
  simpl. now rewrite !ascii_digit_isdecimal.
Qed.

Lemma lstrip_digit c s :
  Unicode.ascii_digit c = true -> Strptime.lstrip (c :: s) = c :: s.
Proof.
  rewrite ascii_digit_range. intros H. simpl.
  destruct (Z.eqb_spec c Strptime.space) as [E|]; [|reflexivity].
  unfold Strptime.space in E. lia.
Qed.

Lemma int_one_digit c :
  Unicode.ascii_digit c = true -> Strptime.int [c] = Return (c - 48).
Proof.
  intros H. unfold Strptime.int. rewrite lstrip_digit by assumption.
  simpl. rewrite ascii_digit_decimal by assumption. f_equal; lia.
Qed.

Lemma int_four_digits y1 y2 y3 y4 :
  ascii_digits [y1; y2; y3; y4] ->
  Strptime.int [y1; y2; y3; y4]
  = Return (1000 * (y1 - 48) + 100 * (y2 - 48) + 10 * (y3 - 48) + (y4 - 48)).
Proof.
  intros H.
  inversion H as [|? ? H1 H']; subst. inversion H' as [|? ? H2 H'']; subst.
  inversion H'' as [|? ? H3 H''']; subst. inversion H''' as [|? ? H4 _]; subst.
  unfold Strptime.int. rewrite lstrip_digit by assumption.
  simpl. rewrite !ascii_digit_decimal by assumption. f_equal; lia.
Qed.

Lemma days_in_month_ge_28 y m :
  1 <= m <= 12 -> 28 <= Datetime.days_in_month y m.
Proof.
  intros H. unfold Datetime.days_in_month.
  assert (E : m = 1 \/ m = 2 \/ m = 3 \/ m = 4 \/ m = 5 \/ m = 6 \/ m = 7
              \/ m = 8 \/ m = 9 \/ m = 10 \/ m = 11 \/ m = 12) by lia.
  repeat (destruct E as [E|E]; [subst m|]); [..|subst m];
    simpl; try lia.
  destruct (Datetime.is_leap y); simpl; lia.
Qed.

Lemma new_midnight y m d :
  1 <= y <= 9999 -> 1 <= m <= 12 -> 1 <= d <= Datetime.days_in_month y m ->
  Datetime.new y m d 0 0 0 0 = Return (Datetime.mk_datetime y m d 0 0 0 0).
Proof.
  intros Hy Hm Hd. unfold Datetime.new.
  rewrite (proj2 (in_range_spec Datetime.MINYEAR Datetime.MAXYEAR y)) by
    (unfold Datetime.MINYEAR, Datetime.MAXYEAR; lia).
  rewrite (proj2 (in_range_spec 1 12 m)) by lia.
  rewrite (proj2 (in_range_spec 1 _ d)) by lia.
  reflexivity.
Qed.

(** A day and a month written with one digit each, before a year of four
    ASCII digits other than 0000, are read as such. *)
Lemma Birthday_one_digit_day_and_month d m y1 y2 y3 y4 :
  1 <= d <= 9 -> 1 <= m <= 9 -> ascii_digits [y1; y2; y3; y4] ->
  let y := 1000 * (y1 - 48) + 100 * (y2 - 48) + 10 * (y3 - 48) + (y4 - 48) in
  1 <= y ->
  Birthday [48 + d; Strptime.dot; 48 + m; Strptime.dot; y1; y2; y3; y4]
  = Return (Datetime.mk_datetime y m d 0 0 0 0).
Proof.
  intros Hd Hm HY y Hy.
  assert (HY' := HY).
  inversion HY' as [|? ? H1 H']; subst. inversion H' as [|? ? H2 H'']; subst.
  inversion H'' as [|? ? H3 H''']; subst. inversion H''' as [|? ? H4 _]; subst.
  apply ascii_digit_range in H1, H2, H3, H4.
  unfold Birthday, validate_birthday, Strptime.strptime.
  rewrite pattern_dmY. unfold dmY_pattern.
  cbn [Strptime.match_items].
  rewrite re_d_one_digit by lia. rewrite Z.eqb_refl.
  rewrite re_m_one_digit by lia. rewrite Z.eqb_refl.
  rewrite re_Y_four_digits by assumption.
  cbn [truthy length Nat.sub take app].
  unfold Strptime.group_value. cbn [List.find fst Strptime.directive_eqb].
  rewrite !int_one_digit by (apply ascii_digit_range; lia).
  rewrite int_four_digits by assumption.
  cbn [mbind result_bind]. fold y.
  replace (48 + d - 48) with d by lia. replace (48 + m - 48) with m by lia.
  rewrite new_midnight; [reflexivity|subst y; lia|lia|].
  pose proof (days_in_month_ge_28 y m). lia.
Qed.

(** C10, as stated, fails on its own example: the year of ["5.1.90"] has
    two digits and the text is refused. *)
Lemma Birthday_refuses_two_digit_year :
  Birthday (str "5.1.90")
  = Raise (ValueError "Invalid date format. Use DD.MM.YYYY").
Proof. vm_compute. reflexivity. Qed.

(** C10, as amended: the day and the month need no zero padding - a day and
    a month of one digit each, before a year of four digits (not 0000), are
    accepted and stored as that date, ["5.1.1990"] as 5 January 1990 - but
    the year field of every accepted text has exactly four digits. *)
Theorem Birthday_accepts_unpadded_day_and_month :
  (forall d m y1 y2 y3 y4,
      1 <= d <= 9 -> 1 <= m <= 9 -> ascii_digits [y1; y2; y3; y4] ->
      1 <= 1000 * (y1 - 48) + 100 * (y2 - 48) + 10 * (y3 - 48) + (y4 - 48) ->
      Birthday [48 + d; Strptime.dot; 48 + m; Strptime.dot; y1; y2; y3; y4]
      = Return (Datetime.mk_datetime
                  (1000 * (y1 - 48) + 100 * (y2 - 48) + 10 * (y3 - 48)
                   + (y4 - 48)) m d 0 0 0 0))
  /\ (forall text b,
         Birthday text = Return b ->
         exists front Y,
           text = front ++ Strptime.dot :: Y
           /\ length Y = 4%nat
           /\ List.Forall (fun c => Unicode.isdecimal_char c = true) Y).
Proof.
  split.
  - intros d m y1 y2 y3 y4 Hd Hm HY Hy.
    now apply Birthday_one_digit_day_and_month.
  - intros text b H.
    apply Birthday_accepted_shape in H as (D & M & Y & -> & _ & _ & HY).
    exists (D ++ Strptime.dot :: M), Y.
    split; [|assumption]. now rewrite <- app_assoc.
Qed.

Lemma Birthday_accepts_unpadded_day_and_month_witness :
  1 <= 5 <= 9 /\ 1 <= 1 <= 9 /\ ascii_digits (str "1990")
  /\ Birthday (str "5.1.1990")
     = Return (Datetime.mk_datetime 1990 1 5 0 0 0 0).
Proof.
  split; [lia|]. split; [lia|]. split; [repeat constructor|].
  apply (proj1 Birthday_accepts_unpadded_day_and_month 5 1 49 57 57 48);
    [lia|lia|repeat constructor|lia].
Defined.

(** ** AddressBook: the dictionary *)

Lemma dict_get_set_eq d k v : dict_get (dict_set d k v) k = Some v.
Proof.
  induction d as [|[k' v'] d IH]; simpl.
  - destruct (decide (k = k)); [reflexivity|congruence].
  - destruct (decide (k' = k)) as [->|Hne]; simpl.
    + destruct (decide (k = k)); [reflexivity|congruence].
    + destruct (decide (k' = k)); [congruence|assumption].
Qed.


Lemma dict_get_None d k : dict_get d k = None <-> ~ In k (keys d).
Proof.
  induction d as [|[k' v'] d IH]; simpl; [tauto|].
  destruct (decide (k' = k)) as [->|Hne].
  - split; [discriminate|]. intros H. exfalso. apply H. now left.
  - rewrite IH. split; [intros H [E|E]; [congruence|tauto]|tauto].
Qed.

Lemma dict_get_Some d k v : dict_get d k = Some v -> In (k, v) d.
Proof.
  induction d as [|[k' v'] d IH]; simpl; [discriminate|].
  destruct (decide (k' = k)) as [->|Hne]; [intros [= ->]; now left|].
  intros H. right. now apply IH.
Qed.

(** Insertion order: a key already present keeps its place, a new key goes
    to the end. *)
Lemma keys_dict_set_old d k v :
  In k (keys d) -> keys (dict_set d k v) = keys d.
Proof.
  induction d as [|[k' v'] d IH]; simpl; [tauto|].
  destruct (decide (k' = k)) as [->|Hne]; simpl; [reflexivity|].
  intros [H|H]; [congruence|]. f_equal. now apply IH.
Qed.

Lemma keys_dict_set_new d k v :
  ~ In k (keys d) -> keys (dict_set d k v) = keys d ++ [k].
Proof.
  induction d as [|[k' v'] d IH]; simpl; [reflexivity|].
  destruct (decide (k' = k)) as [->|Hne]; simpl; [tauto|].
  intros H. f_equal. apply IH. tauto.
Qed.

Lemma In_dict_del d k kv : In kv (dict_del d k) -> In kv d.
Proof.
  induction d as [|[k' v'] d IH]; simpl; [tauto|].
  destruct (decide (k' = k)); simpl; [tauto|]. intros [H|H]; auto.
Qed.

Lemma dict_get_del d k :
  List.NoDup (keys d) -> dict_get (dict_del d k) k = None.
Proof.
  induction d as [|[k' v'] d IH]; simpl; [reflexivity|].
  intros H. inversion H as [|? ? Hn Hd]; subst.
  destruct (decide (k' = k)) as [->|Hne]; simpl.
  - now apply dict_get_None.
  - destruct (decide (k' = k)); [congruence|auto].
Qed.

(** C8: after [add_record(record)], [find] with the record's name gives back
    the very object that was added (the same reference, hence the same
    contents), and [find] with a text that differs from every stored
    name - be it in letter case only - finds nothing. *)
Theorem find_after_add_record (σ : store) (data : dict) (record : loc)
  (m : pystr) :
  (forall k, In k (keys (AddressBook_add_record σ data record)) -> m <> k) ->
  AddressBook_find (AddressBook_add_record σ data record)
    (name (σ !!! record)) = Some record
  /\ AddressBook_find (AddressBook_add_record σ data record) m = None.
Proof.
  intros H. unfold AddressBook_find, AddressBook_add_record in *. split.
  - apply dict_get_set_eq.
  - apply dict_get_None. intros Hin. now apply (H m).
Qed.

Lemma find_after_add_record_witness :
  (forall k,
      In k (keys (AddressBook_add_record {[ 0%nat := john ]} [] 0%nat)) ->
      str "john" <> k)
  /\ AddressBook_find (AddressBook_add_record {[ 0%nat := john ]} [] 0%nat)
       (str "John") = Some 0%nat
  /\ AddressBook_find (AddressBook_add_record {[ 0%nat := john ]} [] 0%nat)
       (str "john") = None.
Proof.
  assert (H : forall k,
             In k (keys (AddressBook_add_record {[ 0%nat := john ]} [] 0%nat))
             -> str "john" <> k).
  { intros k [<-|[]]. discriminate. }
  split; [exact H|].
  exact (find_after_add_record {[ 0%nat := john ]} [] 0%nat (str "john") H).
Defined.

(** ** Datetimes: validity and order *)

Lemma valid_fields t :
  Datetime.valid t ->
  1 <= Datetime.year t <= 9999
  /\ 1 <= Datetime.month t <= 12
  /\ 1 <= Datetime.day t
     <= Datetime.days_in_month (Datetime.year t) (Datetime.month t)
  /\ 0 <= Datetime.hour t <= 23
  /\ 0 <= Datetime.minute t <= 59
  /\ 0 <= Datetime.second t <= 59
  /\ 0 <= Datetime.microsecond t <= 999999.
Proof.
  unfold Datetime.valid, Datetime.new.
  repeat match goal with
         | |- context [negb (in_range ?a ?b ?c)] =>
             let E := fresh "E" in
             destruct (in_range a b c) eqn:E; simpl; [|discriminate];
             apply in_range_spec in E
         end.
  intros _. unfold Datetime.MINYEAR, Datetime.MAXYEAR in *. auto 10.
Qed.

Lemma cmp_same_head x a b : Datetime.cmp (x :: a) (x :: b) = Datetime.cmp a b.
Proof. simpl. now rewrite Z.compare_refl. Qed.

Lemma le_midnight_of_false t :
  Datetime.valid t -> after_midnight t ->
  Datetime.le t (midnight_of t) = false.
Proof.
  intros Hv Ha. apply valid_fields in Hv as (_ & _ & _ & Hh & Hm & Hs & Hu).
  unfold Datetime.le, Datetime.fields, midnight_of.
  cbn [Datetime.year Datetime.month Datetime.day Datetime.hour
       Datetime.minute Datetime.second Datetime.microsecond].
  rewrite !cmp_same_head. unfold after_midnight in Ha. simpl.
  destruct (Z.compare_spec (Datetime.hour t) 0); [|lia|reflexivity].
  destruct (Z.compare_spec (Datetime.minute t) 0); [|lia|reflexivity].
  destruct (Z.compare_spec (Datetime.second t) 0); [|lia|reflexivity].
  destruct (Z.compare_spec (Datetime.microsecond t) 0); [lia|lia|reflexivity].
Qed.

(** On its own day, after midnight, a birthday is outside the window:
    [today <= birthday_this_year] is already false. *)
Lemma same_day_not_in_window today next_week text b :
  Datetime.valid today -> after_midnight today ->
  Birthday text = Return b ->
  Datetime.month b = Datetime.month today ->
  Datetime.day b = Datetime.day today ->
  in_window today next_week b = Return false.
Proof.
  intros Hv Ha Hb Hm Hd.
  apply Birthday_Return in Hb as (_ & Hh & Hmi & Hs & Hus).
  unfold in_window, Datetime.replace_year.
  rewrite Hm, Hd, Hh, Hmi, Hs, Hus.
  pose proof (valid_fields _ Hv) as (Hy & Hmo & Hda & _).
  rewrite new_midnight by assumption.
  cbn [mbind result_bind]. fold (midnight_of today).
  now rewrite le_midnight_of_false.
Qed.

(** ** The calendar: ordinals *)

Lemma days_before_year_decomp a b c d :
  0 <= b <= 3 -> 0 <= c <= 24 -> 0 <= d <= 3 ->
  Datetime.days_before_year (400 * a + 100 * b + 4 * c + d + 1)
  = 146097 * a + 36524 * b + 1461 * c + 365 * d.
Proof.
  intros. unfold Datetime.days_before_year.
  replace (400 * a + 100 * b + 4 * c + d + 1 - 1)
    with (400 * a + 100 * b + 4 * c + d) by lia.
  Z.div_mod_to_equations. lia.
Qed.

Lemma is_leap_decomp a b c d :
  0 <= b <= 3 -> 0 <= c <= 24 -> 0 <= d <= 3 ->
  Datetime.is_leap (400 * a + 100 * b + 4 * c + d + 1)
  = (d =? 3) && (negb (c =? 24) || (b =? 3)).
Proof. intros. unfold Datetime.is_leap. eqb_cases. Qed.

Lemma month_day_table :
  forallb (month_day_ok false) (map Z.of_nat (seq 0 365)) = true
  /\ forallb (month_day_ok true) (map Z.of_nat (seq 0 366)) = true.
Proof. split; vm_compute; reflexivity. Qed.

Lemma month_day_spec (leapyear : bool) n :
  0 <= n < (if leapyear then 366 else 365) ->
  month_day_ok leapyear n = true.
Proof.
  intros H. destruct month_day_table as [T0 T1].
  rewrite forallb_forall in T0, T1.
  assert (Hin : forall k, (Z.to_nat n < k)%nat ->
                          In n (map Z.of_nat (seq 0 k))).
  { intros k Hk. apply in_map_iff. exists (Z.to_nat n). split; [lia|].
    apply in_seq. lia. }
  destruct leapyear; [apply T1|apply T0]; apply Hin; lia.
Qed.

(** [ord2ymd] inverts [ymd2ord]: the date it gives for a day number is a
    calendar date and has this day number. *)
Lemma ord2ymd_spec n :
  1 <= n ->
  let '(y, m, d) := Datetime.ord2ymd n in
  1 <= y /\ 1 <= m <= 12 /\ 1 <= d <= Datetime.days_in_month y m
  /\ Datetime.ymd2ord y m d = n.
Proof.
  intros Hn. unfold Datetime.ord2ymd.
  change Datetime.DI400Y with 146097. change Datetime.DI100Y with 36524.
  change Datetime.DI4Y with 1461.
  set (n0 := n - 1).
  set (a := n0 / 146097). set (r1 := n0 mod 146097).
  set (b := r1 / 36524). set (r2 := r1 mod 36524).
  set (c := r2 / 1461). set (r3 := r2 mod 1461).
  set (e := r3 / 365). set (r := r3 mod 365).
  assert (Ha : 0 <= a /\ 0 <= r1 < 146097 /\ n0 = 146097 * a + r1).
  { subst a r1. Z.div_mod_to_equations. lia. }
  assert (Hb : 0 <= b <= 4 /\ 0 <= r2 < 36524 /\ r1 = 36524 * b + r2).
  { subst b r2. clearbody r1. Z.div_mod_to_equations. lia. }
  assert (Hc : 0 <= c <= 24 /\ 0 <= r3 < 1461 /\ r2 = 1461 * c + r3).
  { subst c r3. clearbody r2. Z.div_mod_to_equations. lia. }
  assert (He : 0 <= e <= 4 /\ 0 <= r < 365 /\ r3 = 365 * e + r).
  { subst e r. clearbody r3. Z.div_mod_to_equations. lia. }
  clearbody a r1 b r2 c r3 e r.
  destruct Ha as (Ha & Hr1 & En0), Hb as (Hb & Hr2 & Er1),
           Hc as (Hc & Hr3 & Er2), He as (He & Hr & Er3).
  destruct ((e =? 4) || (b =? 4)) eqn:E.
  - assert (Hcase : (e = 4 /\ r = 0 /\ b <= 3 /\ c <= 23)
                    \/ (b = 4 /\ c = 0 /\ e = 0 /\ r = 0)).
    { apply orb_true_iff in E as [E|E]; apply Z.eqb_eq in E; lia. }
    assert (T1 : nth (Z.to_nat 12) Datetime.DAYS_BEFORE_MONTH 0 = 334)
      by reflexivity.
    assert (T2 : nth (Z.to_nat 12) Datetime.DAYS_IN_MONTH 0 = 31)
      by reflexivity.
    unfold Datetime.ymd2ord, Datetime.days_before_month,
      Datetime.days_in_month.
    rewrite T1, T2.
    change (12 =? 2) with false. change (2 <? 12) with true. cbn [andb].
    destruct Hcase as [(-> & -> & Hb3 & Hc23)|(-> & -> & -> & ->)].
    + replace (a * 400 + 1 + b * 100 + c * 4 + 4 - 1)
        with (400 * a + 100 * b + 4 * c + 3 + 1) by lia.
      rewrite days_before_year_decomp, is_leap_decomp by lia.
      change (3 =? 3) with true.
      assert (Ec : (c =? 24) = false) by (apply Z.eqb_neq; lia).
      rewrite Ec. cbn [negb orb andb]. subst n0. repeat split; lia.
    + replace (a * 400 + 1 + 4 * 100 + 0 * 4 + 0 - 1)
        with (400 * a + 100 * 3 + 4 * 24 + 3 + 1) by lia.
      rewrite days_before_year_decomp, is_leap_decomp by lia.
      change (3 =? 3) with true. change (24 =? 24) with true.
      cbn [negb orb andb]. subst n0. repeat split; lia.
  - apply orb_false_iff in E as [E1 E2]. apply Z.eqb_neq in E1, E2.
    set (leapyear := (e =? 3) && (negb (c =? 24) || (b =? 3))).
    assert (Hr' : 0 <= r < (if leapyear then 366 else 365))
      by (destruct leapyear; lia).
    pose proof (month_day_spec leapyear r Hr') as Hmd.
    unfold month_day_ok in Hmd.
    destruct (Datetime.month_day r leapyear) as [m d].
    replace (a * 400 + 1 + b * 100 + c * 4 + e)
      with (400 * a + 100 * b + 4 * c + e + 1) by lia.
    unfold Datetime.ymd2ord, Datetime.days_before_month,
      Datetime.days_in_month.
    rewrite days_before_year_decomp, is_leap_decomp by lia. fold leapyear.
    rewrite !andb_true_iff, !Z.leb_le, Z.eqb_eq in Hmd.
    destruct Hmd as ((((Hm1 & Hm2) & Hd1) & Hd2) & Hsum).
    repeat split; lia.
Qed.

Lemma days_before_year_succ y :
  Datetime.days_before_year (y + 1)
  = Datetime.days_before_year y + 365
    + (if Datetime.is_leap y then 1 else 0).
Proof.
  unfold Datetime.days_before_year, Datetime.is_leap.
  replace (y + 1 - 1) with y by lia.
  repeat match goal with
         | |- context [?x =? ?y] => destruct (Z.eqb_spec x y)
         end;
    cbn [andb orb negb]; Z.div_mod_to_equations; lia.
Qed.

Lemma days_before_year_mono y y' :
  y <= y' -> Datetime.days_before_year y <= Datetime.days_before_year y'.
Proof.
  intros H. unfold Datetime.days_before_year.
  Z.div_mod_to_equations. lia.
Qed.

Lemma day_of_year_bounds y m d :
  1 <= m <= 12 -> 1 <= d <= Datetime.days_in_month y m ->
  1 <= Datetime.days_before_month y m + d
  <= 365 + (if Datetime.is_leap y then 1 else 0).
Proof.
  intros Hm. unfold Datetime.days_before_month, Datetime.days_in_month.
  twelve_cases m; destruct (Datetime.is_leap y); simpl; lia.
Qed.

Lemma days_before_month_next y m m' d :
  1 <= m -> m < m' <= 12 -> 1 <= d <= Datetime.days_in_month y m ->
  Datetime.days_before_month y m + d <= Datetime.days_before_month y m'.
Proof.
  intros Hm Hm'. unfold Datetime.days_before_month, Datetime.days_in_month.
  assert (Hm12 : 1 <= m <= 12) by lia.
  twelve_cases m; twelve_cases m'; try lia;
    destruct (Datetime.is_leap y); simpl; lia.
Qed.

(** ** The calendar: order and linear time *)

Lemma toordinal_positive t : Datetime.valid t -> 1 <= Datetime.toordinal t.
Proof.
  intros Hv. apply valid_fields in Hv as (Hy & Hm & Hd & _).
  pose proof (day_of_year_bounds _ _ _ Hm Hd).
  pose proof (days_before_year_mono 1 (Datetime.year t) ltac:(lia)) as H1.
  change (Datetime.days_before_year 1) with 0 in H1.
  unfold Datetime.toordinal, Datetime.ymd2ord. lia.
Qed.

Lemma toordinal_year_lt a b :
  Datetime.valid a -> Datetime.valid b ->
  Datetime.year a < Datetime.year b ->
  Datetime.toordinal a < Datetime.toordinal b.
Proof.
  intros Ha Hb Hlt.
  apply valid_fields in Ha as (_ & Hma & Hda & _).
  apply valid_fields in Hb as (_ & Hmb & Hdb & _).
  pose proof (day_of_year_bounds _ _ _ Hma Hda).
  pose proof (day_of_year_bounds _ _ _ Hmb Hdb).
  pose proof (days_before_year_succ (Datetime.year a)).
  pose proof (days_before_year_mono (Datetime.year a + 1) (Datetime.year b)
                ltac:(lia)).
  unfold Datetime.toordinal, Datetime.ymd2ord. lia.
Qed.

Lemma toordinal_month_lt a b :
  Datetime.valid a -> Datetime.valid b ->
  Datetime.year a = Datetime.year b -> Datetime.month a < Datetime.month b ->
  Datetime.toordinal a < Datetime.toordinal b.
Proof.
  intros Ha Hb Ey Hlt.
  apply valid_fields in Ha as (_ & Hma & Hda & _).
  apply valid_fields in Hb as (_ & Hmb & Hdb & _).
  pose proof (days_before_month_next (Datetime.year a) (Datetime.month a)
                (Datetime.month b) (Datetime.day a) ltac:(lia) ltac:(lia) Hda).
  unfold Datetime.toordinal, Datetime.ymd2ord. rewrite <- Ey. lia.
Qed.

Lemma toordinal_day_lt a b :
  Datetime.year a = Datetime.year b -> Datetime.month a = Datetime.month b ->
  Datetime.day a < Datetime.day b ->
  Datetime.toordinal a < Datetime.toordinal b.
Proof.
  intros Ey Em Hlt. unfold Datetime.toordinal, Datetime.ymd2ord.
  rewrite Ey, Em. lia.
Qed.

(** The order of the field tuples is the order of the moments in time. *)
Lemma cmp_micros a b :
  Datetime.valid a -> Datetime.valid b ->
  match Datetime.cmp (Datetime.fields a) (Datetime.fields b) with
  | Lt => micros a < micros b
  | Eq => micros a = micros b
  | Gt => micros b < micros a
  end.
Proof.
  intros Ha Hb.
  pose proof (valid_fields _ Ha) as (_ & _ & _ & Hha & Hmia & Hsa & Husa).
  pose proof (valid_fields _ Hb) as (_ & _ & _ & Hhb & Hmib & Hsb & Husb).
  assert (Hord : forall x y : Datetime.datetime,
             (0 <= Datetime.hour x <= 23) -> (0 <= Datetime.minute x <= 59) ->
             (0 <= Datetime.second x <= 59) ->
             (0 <= Datetime.microsecond x <= 999999) ->
             (0 <= Datetime.hour y <= 23) -> (0 <= Datetime.minute y <= 59) ->
             (0 <= Datetime.second y <= 59) ->
             (0 <= Datetime.microsecond y <= 999999) ->
             Datetime.toordinal x < Datetime.toordinal y ->
             micros x < micros y).
  { intros x y ? ? ? ? ? ? ? ? ?. unfold micros. lia. }
  unfold Datetime.fields. cbn [Datetime.cmp].
  destruct (Z.compare_spec (Datetime.year a) (Datetime.year b)) as [Ey|Hy|Hy];
    [|apply Hord; auto; now apply toordinal_year_lt
     |apply Hord; auto; now apply toordinal_year_lt].
  destruct (Z.compare_spec (Datetime.month a) (Datetime.month b))
    as [Em|Hm|Hm];
    [|apply Hord; auto; now apply toordinal_month_lt
     |apply Hord; auto; now apply toordinal_month_lt].
  destruct (Z.compare_spec (Datetime.day a) (Datetime.day b)) as [Ed|Hd|Hd];
    [|apply Hord; auto; now apply toordinal_day_lt
     |apply Hord; auto; now apply toordinal_day_lt].
  assert (Eo : Datetime.toordinal a = Datetime.toordinal b).
  { unfold Datetime.toordinal. now rewrite Ey, Em, Ed. }
  unfold micros. rewrite Eo.
  destruct (Z.compare_spec (Datetime.hour a) (Datetime.hour b)); [|lia|lia].
  destruct (Z.compare_spec (Datetime.minute a) (Datetime.minute b));
    [|lia|lia].
  destruct (Z.compare_spec (Datetime.second a) (Datetime.second b));
    [|lia|lia].
  destruct (Z.compare_spec (Datetime.microsecond a) (Datetime.microsecond b));
    lia.
Qed.

Lemma le_micros a b :
  Datetime.valid a -> Datetime.valid b ->
  Datetime.le a b = true <-> micros a <= micros b.
Proof.
  intros Ha Hb. pose proof (cmp_micros a b Ha Hb) as H. unfold Datetime.le.
  destruct (Datetime.cmp _ _); split; intros; try lia;
    reflexivity || discriminate.
Qed.

Lemma lt_micros a b :
  Datetime.valid a -> Datetime.valid b ->
  Datetime.lt a b = true <-> micros a < micros b.
Proof.
  intros Ha Hb. pose proof (cmp_micros a b Ha Hb) as H. unfold Datetime.lt.
  destruct (Datetime.cmp _ _); split; intros; try lia;
    reflexivity || discriminate.
Qed.

(** [t + timedelta(days=n)], when it exists, is the moment [n] days later. *)
Lemma add_days_Return t n t' :
  Datetime.valid t -> Datetime.add_days t n = Return t' ->
  Datetime.valid t'
  /\ micros t' = micros t + n * 86400 * 1000000.
Proof.
  intros Hv. unfold Datetime.add_days.
  destruct (Z.ltb_spec 0 (Datetime.toordinal t + n)) as [Hpos|];
    [|discriminate].
  destruct (Z.leb_spec (Datetime.toordinal t + n) Datetime.MAXORDINAL)
    as [Hmax|]; [|discriminate].
  pose proof (ord2ymd_spec (Datetime.toordinal t + n) ltac:(lia)) as Hs.
  destruct (Datetime.ord2ymd _) as [[y m] d]. cbn [andb].
  destruct Hs as (Hy & Hm & Hd & Ho). intros [= <-].
  apply valid_fields in Hv as (_ & _ & _ & Hh & Hmi & Hs & Hus).
  assert (Hy' : y <= 9999).
  { destruct (Z.le_gt_cases y 9999) as [|Hbig]; [assumption|exfalso].
    pose proof (days_before_year_mono 10000 y ltac:(lia)) as Hm0.
    change (Datetime.days_before_year 10000) with 3652059 in Hm0.
    pose proof (day_of_year_bounds y m d Hm Hd).
    unfold Datetime.ymd2ord, Datetime.MAXORDINAL in *. lia. }
  split.
  - unfold Datetime.valid, Datetime.new.
    cbn [Datetime.year Datetime.month Datetime.day Datetime.hour
         Datetime.minute Datetime.second Datetime.microsecond].
    rewrite (proj2 (in_range_spec Datetime.MINYEAR Datetime.MAXYEAR y)) by
      (unfold Datetime.MINYEAR, Datetime.MAXYEAR; lia).
    rewrite (proj2 (in_range_spec 1 12 m)) by lia.
    rewrite (proj2 (in_range_spec 1 _ d)) by lia.
    rewrite (proj2 (in_range_spec 0 23 _)) by lia.
    rewrite (proj2 (in_range_spec 0 59 (Datetime.minute t))) by lia.
    rewrite (proj2 (in_range_spec 0 59 (Datetime.second t))) by lia.
    rewrite (proj2 (in_range_spec 0 999999 _)) by lia.
    reflexivity.
  - unfold micros, Datetime.toordinal.
    cbn [Datetime.year Datetime.month Datetime.day Datetime.hour
         Datetime.minute Datetime.second Datetime.microsecond].
    rewrite Ho. unfold Datetime.toordinal. lia.
Qed.

(** [t + timedelta(days=7)] exists unless it lies beyond the last day. *)
Lemma add_days_7_exists t :
  Datetime.valid t ->
  Datetime.toordinal t + 7 <= Datetime.MAXORDINAL ->
  exists t', Datetime.add_days t 7 = Return t'.
Proof.
  intros Hv Hmax. apply toordinal_positive in Hv.
  unfold Datetime.add_days.
  destruct (Z.ltb_spec 0 (Datetime.toordinal t + 7)); [|lia].
  destruct (Z.leb_spec (Datetime.toordinal t + 7) Datetime.MAXORDINAL);
    [|lia].
  destruct (Datetime.ord2ymd _) as [[y m] d]. simpl. eauto.
Qed.

(** The test of the loop, read in linear time: the anniversary lies at or
    after the moment of the call and less than seven days after it. *)
Lemma window_in_linear_time today next_week D :
  Datetime.valid today -> Datetime.valid D ->
  Datetime.add_days today 7 = Return next_week ->
  Datetime.le today D && Datetime.lt D next_week = true
  <-> micros today <= micros D < micros today + 7 * 86400 * 1000000.
Proof.
  intros Ht HD Hw. apply add_days_Return in Hw as [Hn En]; [|assumption].
  rewrite andb_true_iff, le_micros, lt_micros by assumption. lia.
Qed.

(** ** AddressBook: the upcoming birthdays *)

Lemma upcoming_loop_Return_inv today next_week σ records :
  forall acc names,
    upcoming_loop today next_week σ records acc = Return names ->
    names = acc ++ map (name_of σ)
                     (List.filter (qualifies today next_week σ) records).
Proof.
  induction records as [|record rest IH]; intros acc names; simpl.
  - intros [= <-]. now rewrite app_nil_r.
  - unfold qualifies at 1.
    destruct (birthday (σ !!! record)) as [b|]; [|apply IH].
    destruct (in_window today next_week b) as [[|]|e]; simpl;
      [|apply IH|discriminate].
    intros H. apply IH in H. rewrite <- app_assoc in H. exact H.
Qed.

Lemma upcoming_loop_Return today next_week σ records :
  List.Forall (anniversary_exists (Datetime.year today) σ) records ->
  forall acc,
    upcoming_loop today next_week σ records acc
    = Return (acc ++ map (name_of σ)
                       (List.filter (qualifies today next_week σ) records)).
Proof.
  induction 1 as [|record rest Hr _ IH]; intros acc; simpl.
  - now rewrite app_nil_r.
  - unfold qualifies at 1.
    destruct (birthday (σ !!! record)) as [b|] eqn:Eb; [|apply IH].
    destruct (Hr b Eb) as [D HD].
    unfold in_window. rewrite HD. cbn [mbind result_bind].
    destruct (_ && _); simpl; [|apply IH].
    rewrite IH. now rewrite <- app_assoc.
Qed.

(** A birthday without anniversary in the current year stops the loop with
    the exception of [replace], whatever comes after it in the book. *)
Lemma upcoming_loop_Raise today next_week σ before record rest b e :
  List.Forall (anniversary_exists (Datetime.year today) σ) before ->
  birthday (σ !!! record) = Some b ->
  Datetime.replace_year b (Datetime.year today) = Raise e ->
  forall acc,
    upcoming_loop today next_week σ (before ++ record :: rest) acc = Raise e.
Proof.
  intros Hb Eb He. induction Hb as [|r0 before Hr _ IH]; intros acc; simpl.
  - rewrite Eb. unfold in_window. now rewrite He.
  - destruct (birthday (σ !!! r0)) as [b0|] eqn:E0; [|apply IH].
    destruct (Hr b0 E0) as [D HD].
    unfold in_window. rewrite HD. cbn [mbind result_bind].
    destruct (_ && _); apply IH.
Qed.

Lemma qualifies_spec today next_week σ record :
  qualifies today next_week σ record = true
  <-> exists b D,
        birthday (σ !!! record) = Some b
        /\ Datetime.replace_year b (Datetime.year today) = Return D
        /\ Datetime.le today D = true
        /\ Datetime.lt D next_week = true.
Proof.
  unfold qualifies, in_window. split.
  - destruct (birthday (σ !!! record)) as [b|]; [|discriminate].
    destruct (Datetime.replace_year b _) as [D|] eqn:ED; [|discriminate].
    cbn [mbind result_bind]. rewrite andb_true_iff. intros [H1 H2].
    now exists b, D.
  - intros (b & D & -> & -> & H1 & H2). cbn [mbind result_bind].
    now rewrite H1, H2.
Qed.

(** What [get_upcoming_birthdays] returns when it returns: if the week
    ahead is representable and every stored birthday has an anniversary in
    the current year, the call returns, in the order of the dictionary, the
    names of exactly the records that have a birthday whose anniversary [D]
    satisfies [today <= D < today + 7 days], [today] being the moment of
    the call. *)
Lemma get_upcoming_birthdays_window today next_week σ data :
  Datetime.add_days today 7 = Return next_week ->
  List.Forall (anniversary_exists (Datetime.year today) σ)
    (dict_values data) ->
  get_upcoming_birthdays today σ data
  = Return (map (name_of σ)
              (List.filter (qualifies today next_week σ) (dict_values data)))
  /\ forall n,
       In n (map (name_of σ)
               (List.filter (qualifies today next_week σ) (dict_values data)))
       <-> exists record b D,
             In record (dict_values data) /\ name_of σ record = n
             /\ birthday (σ !!! record) = Some b
             /\ Datetime.replace_year b (Datetime.year today) = Return D
             /\ Datetime.le today D = true
             /\ Datetime.lt D next_week = true.
Proof.
  intros Hw Hall. split.
  - unfold get_upcoming_birthdays. rewrite Hw. cbn [mbind result_bind].
    now rewrite upcoming_loop_Return.
  - intros n. rewrite in_map_iff. split.
    + intros (record & <- & Hin). apply filter_In in Hin as [Hin Hq].
      apply qualifies_spec in Hq as (b & D & Hq).
      now exists record, b, D.
    + intros (record & b & D & Hin & <- & Hq).
      exists record. split; [reflexivity|]. apply filter_In.
      split; [assumption|]. apply qualifies_spec. now exists b, D.
Qed.

(** Whatever list the call returns is that list. *)
Lemma get_upcoming_birthdays_Return_inv today σ data names :
  get_upcoming_birthdays today σ data = Return names ->
  exists next_week,
    Datetime.add_days today 7 = Return next_week
    /\ names = map (name_of σ)
                 (List.filter (qualifies today next_week σ)
                              (dict_values data)).
Proof.
  unfold get_upcoming_birthdays.
  destruct (Datetime.add_days today 7) as [next_week|]; [|discriminate].
  cbn [mbind result_bind]. intros H. exists next_week.
  split; [reflexivity|]. now apply upcoming_loop_Return_inv in H.
Qed.

(** With the call made on 2024-11-14, at any time of the day, a birthday on
    15.11.1990 is inside the window and one on 25.11.1990 is outside. *)
Example window_on_2024_11_14 hh mm ss us :
  let today := Datetime.mk_datetime 2024 11 14 hh mm ss us in
  Datetime.add_days today 7
  = Return (Datetime.mk_datetime 2024 11 21 hh mm ss us)
  /\ in_window today (Datetime.mk_datetime 2024 11 21 hh mm ss us)
       (Datetime.mk_datetime 1990 11 15 0 0 0 0) = Return true
  /\ in_window today (Datetime.mk_datetime 2024 11 21 hh mm ss us)
       (Datetime.mk_datetime 1990 11 25 0 0 0 0) = Return false.
Proof. repeat split. Qed.

(** ** The defect: 29 February *)

(** The anniversary of a stored birthday is missing in one case only: the
    birthday is 29 February and the year is not a leap year. [replace] then
    raises the ValueError of the date constructor. *)
Lemma replace_year_of_Birthday text b y :
  Birthday text = Return b -> 1 <= y <= 9999 ->
  Datetime.replace_year b y
  = if (Datetime.month b =? 2) && (Datetime.day b =? 29)
       && negb (Datetime.is_leap y)
    then Raise (ValueError "day is out of range for month")
    else Return (Datetime.mk_datetime y (Datetime.month b) (Datetime.day b)
                   0 0 0 0).
Proof.
  intros Hb Hy. apply Birthday_Return in Hb as (Hv & Hh & Hmi & Hs & Hus).
  apply valid_fields in Hv as (_ & Hm & Hd & _).
  unfold Datetime.replace_year. rewrite Hh, Hmi, Hs, Hus.
  set (m := Datetime.month b) in *. set (d := Datetime.day b) in *.
  destruct ((m =? 2) && (d =? 29) && negb (Datetime.is_leap y)) eqn:E.
  - apply andb_true_iff in E as [E E3]. apply andb_true_iff in E as [E1 E2].
    apply Z.eqb_eq in E1, E2. apply negb_true_iff in E3.
    unfold Datetime.new, Datetime.days_in_month. rewrite E1, E2, E3.
    rewrite (proj2 (in_range_spec Datetime.MINYEAR Datetime.MAXYEAR y)) by
      (unfold Datetime.MINYEAR, Datetime.MAXYEAR; lia).
    reflexivity.
  - apply new_midnight; [assumption|assumption|].
    split; [lia|]. revert Hd E. unfold Datetime.days_in_month.
    destruct (Z.eqb_spec m 2) as [->|Hne]; simpl.
    + destruct (Datetime.is_leap (Datetime.year b)),
               (Datetime.is_leap y); simpl; lia.
    + lia.
Qed.

(** ** AddressBook: the states a program reaches *)

Lemma book_ok_empty σ : book_ok σ [].
Proof. split; [constructor|]. intros k l []. Qed.

Lemma In_dict_set d key v k l :
  In (k, l) (dict_set d key v) -> (k, l) = (key, v) \/ In (k, l) d.
Proof.
  induction d as [|[k' v'] d IH]; simpl.
  - intros [H|[]]. left. congruence.
  - destruct (decide (k' = key)) as [->|Hne]; simpl.
    + intros [H|H]; [left; congruence|right; now right].
    + intros [H|H]; [right; now left|]. destruct (IH H); auto.
Qed.

Lemma NoDup_keys_dict_set d key v :
  List.NoDup (keys d) -> List.NoDup (keys (dict_set d key v)).
Proof.
  intros H. destruct (dict_get d key) as [v0|] eqn:E.
  - rewrite keys_dict_set_old; [assumption|].
    apply dict_get_Some in E. apply in_map_iff. now exists (key, v0).
  - apply dict_get_None in E. rewrite keys_dict_set_new by assumption.
    apply List.NoDup_app; [assumption|repeat constructor; simpl; tauto|].
    intros k Hk [<-|[]]. contradiction.
Qed.

Lemma NoDup_keys_dict_del d key :
  List.NoDup (keys d) -> List.NoDup (keys (dict_del d key)).
Proof.
  induction d as [|[k' v'] d IH]; simpl; [auto|].
  intros H. inversion H as [|? ? Hn Hd]; subst.
  destruct (decide (k' = key)); simpl; [assumption|].
  constructor; [|auto]. intros Hin. apply Hn.
  apply in_map_iff in Hin as ([k l] & <- & Hin).
  apply In_dict_del in Hin. apply in_map_iff. now exists (k, l).
Qed.

Lemma book_ok_add_record σ data record :
  book_ok σ data -> is_Some (σ !! record) ->
  book_ok σ (AddressBook_add_record σ data record).
Proof.
  intros [Hnd Hname] [r Hr]. unfold AddressBook_add_record. split.
  - now apply NoDup_keys_dict_set.
  - intros k l Hin. apply In_dict_set in Hin as [[= -> ->]|Hin]; [|auto].
    exists r. split; [assumption|].
    now rewrite (lookup_total_correct _ _ _ Hr).
Qed.

Lemma book_ok_delete σ data n :
  book_ok σ data -> book_ok σ (fst (AddressBook_delete data n)).
Proof.
  intros [Hnd Hname]. unfold AddressBook_delete.
  destruct (dict_contains data n); simpl; [|now split].
  split; [now apply NoDup_keys_dict_del|].
  intros k l Hin. apply In_dict_del in Hin. auto.
Qed.

Lemma run_op_keeps_name o self : name (fst (run_op o self)) = name self.
Proof.
  destruct o as [n|n|old new|n|text]; simpl.
  - rewrite Record_add_phone_eq. now destruct (Phone n).
  - now rewrite Record_remove_phone_eq.
  - now rewrite Record_edit_phone_eq.
  - reflexivity.
  - rewrite Record_add_birthday_eq. now destruct (Birthday text).
Qed.

(** A new record has no birthday, and an operation only stores a birthday
    that [Birthday] built. *)
Lemma Record_init_birthday_stored n r :
  Record_init n = Return r -> birthday_stored r.
Proof.
  unfold Record_init, Name. destruct (truthy n); simpl; [|discriminate].
  intros [= <-] b Hb. discriminate Hb.
Qed.

Lemma run_op_keeps_birthday_stored o self :
  birthday_stored self -> birthday_stored (fst (run_op o self)).
Proof.
  intros Hs. destruct o as [n|n|old new|n|text]; simpl.
  - rewrite Record_add_phone_eq. now destruct (Phone n).
  - now rewrite Record_remove_phone_eq.
  - now rewrite Record_edit_phone_eq.
  - assumption.
  - rewrite Record_add_birthday_eq.
    destruct (Birthday text) as [b|] eqn:E; [|assumption].
    intros b' [= <-]. now exists text.
Qed.

(** A method that leaves the name alone, called on any record of the store,
    leaves the book in order. *)
Lemma book_ok_call {A} σ data record (m : method A) :
  (forall self, name (fst (m self)) = name self) ->
  book_ok σ data -> book_ok (fst (call record m σ)) data.
Proof.
  intros Hm [Hnd Hname]. split; [assumption|].
  intros k l Hin. destruct (Hname k l Hin) as (r & Hr & <-).
  unfold call. specialize (Hm (σ !!! record)).
  destruct (m (σ !!! record)) as [r' res]. simpl in *.
  destruct (decide (record = l)) as [->|Hne].
  - exists r'. rewrite lookup_insert_eq. split; [reflexivity|].
    now rewrite Hm, (lookup_total_correct _ _ _ Hr).
  - exists r. now rewrite lookup_insert_ne.
Qed.

Lemma book_ok_Record_new σ σ' data n l :
  Record_new n σ = (σ', Return l) ->
  book_ok σ data -> book_ok σ' data /\ σ !! l = None /\ is_Some (σ' !! l).
Proof.
  unfold Record_new. destruct (Record_init n) as [r|]; [|discriminate].
  intros [= <- <-] [Hnd Hname].
  assert (Hfresh : σ !! fresh (dom σ) = None).
  { apply not_elem_of_dom. apply is_fresh. }
  split; [|split; [assumption|rewrite lookup_insert_eq; eauto]].
  split; [assumption|].
  intros k l Hin. destruct (Hname k l Hin) as (r0 & Hr0 & <-).
  exists r0. split; [|reflexivity].
  rewrite lookup_insert_ne; [assumption|]. congruence.
Qed.

Lemma NoDup_keys_functional d k v v' :
  List.NoDup (keys d) -> In (k, v) d -> In (k, v') d -> v = v'.
Proof.
  induction d as [|[k0 v0] d IH]; simpl; [tauto|].
  intros H. inversion H as [|? ? Hn Hd]; subst.
  assert (Hk : forall v1, In (k0, v1) d -> False).
  { intros v1 Hin. apply Hn. apply in_map_iff. now exists (k0, v1). }
  intros [[= -> ->]|H1] [[= <-]|H2]; try reflexivity.
  - now apply Hk in H2.
  - subst. now apply Hk in H1.
  - now apply IH.
Qed.

(** In such a book two entries never carry the same name. *)
Lemma book_ok_names_distinct σ data l1 l2 :
  book_ok σ data ->
  In l1 (dict_values data) -> In l2 (dict_values data) ->
  name_of σ l1 = name_of σ l2 -> l1 = l2.
Proof.
  intros [Hnd Hname] H1 H2 E. unfold dict_values in *.
  apply in_map_iff in H1 as ([k1 v1] & <- & H1).
  apply in_map_iff in H2 as ([k2 v2] & <- & H2). simpl in *.
  destruct (Hname _ _ H1) as (r1 & Hr1 & E1).
  destruct (Hname _ _ H2) as (r2 & Hr2 & E2).
  unfold name_of in E.
  rewrite (lookup_total_correct _ _ _ Hr1),
          (lookup_total_correct _ _ _ Hr2) in E.
  assert (Hk : k1 = k2) by congruence. rewrite <- Hk in H2.
  exact (NoDup_keys_functional data k1 v1 v2 Hnd H1 H2).
Qed.

(** ** Upcoming birthdays: the day itself *)

(** C9: a record whose birthday falls on the day of the call is left out of
    the result whenever the call is made after midnight: the moment of the
    call, with its time of day, is compared with midnight of the
    anniversary, so the test of the loop is false for this record and no
    list the call returns holds its name. *)
Theorem same_day_birthday_excluded_after_midnight
  (today : Datetime.datetime) (σ : store) (data : dict) (record : loc)
  (text : pystr) (b : Datetime.datetime) :
  Datetime.valid today -> after_midnight today ->
  book_ok σ data -> In record (dict_values data) ->
  Birthday text = Return b -> birthday (σ !!! record) = Some b ->
  Datetime.month b = Datetime.month today ->
  Datetime.day b = Datetime.day today ->
  (forall next_week, in_window today next_week b = Return false)
  /\ (forall names,
         get_upcoming_birthdays today σ data = Return names ->
         ~ In (name_of σ record) names).
Proof.
  intros Hv Ha Hok Hin Hb Hbd Hm Hd.
  assert (Hw : forall next_week, in_window today next_week b = Return false).
  { intros next_week. eapply same_day_not_in_window; eauto. }
  split; [exact Hw|].
  intros names H Hn.
  apply get_upcoming_birthdays_Return_inv in H as (next_week & _ & ->).
  apply in_map_iff in Hn as (l & E & Hl).
  apply filter_In in Hl as [Hl Hq].
  assert (l = record) by (eapply book_ok_names_distinct; eauto). subst l.
  unfold qualifies in Hq. rewrite Hbd, Hw in Hq. discriminate.
Qed.

Lemma nov_book_ok : book_ok nov_store nov_data.
Proof.
  split.
  - repeat constructor; simpl; intuition discriminate.
  - intros k l [[= <- <-]|[[= <- <-]|[]]]; eexists; split; reflexivity.
Defined.

Lemma same_day_birthday_excluded_after_midnight_witness :
  let today := Datetime.mk_datetime 2024 11 14 10 30 0 0 in
  let b := Datetime.mk_datetime 1992 11 14 0 0 0 0 in
  Datetime.valid today /\ after_midnight today
  /\ book_ok nov_store nov_data /\ In 1%nat (dict_values nov_data)
  /\ Birthday (str "14.11.1992") = Return b
  /\ birthday (nov_store !!! 1%nat) = Some b
  /\ Datetime.month b = Datetime.month today
  /\ Datetime.day b = Datetime.day today
  /\ get_upcoming_birthdays today nov_store nov_data = Return [str "John"]
  /\ ~ In (str "Jane") [str "John"].
Proof.
  intros today b.
  assert (Hv : Datetime.valid today) by reflexivity.
  assert (Ha : after_midnight today) by (left; reflexivity).
  assert (Hin : In 1%nat (dict_values nov_data)) by (right; now left).
  assert (Hb : Birthday (str "14.11.1992") = Return b)
    by (vm_compute; reflexivity).
  assert (Hbd : birthday (nov_store !!! 1%nat) = Some b) by reflexivity.
  assert (Hr : get_upcoming_birthdays today nov_store nov_data
               = Return [str "John"]) by (vm_compute; reflexivity).
  repeat (split; [first [assumption | reflexivity | exact nov_book_ok]|]).
  exact (proj2 (same_day_birthday_excluded_after_midnight today nov_store
                  nov_data 1%nat (str "14.11.1992") b Hv Ha nov_book_ok Hin
                  Hb Hbd eq_refl eq_refl) [str "John"] Hr).
Defined.

(** ** Upcoming birthdays: 29 February in a year that is not a leap year *)

Lemma upcoming_loop_Raise_inv today next_week σ records e :
  forall acc,
    upcoming_loop today next_week σ records acc = Raise e ->
    exists record b,
      In record records /\ birthday (σ !!! record) = Some b
      /\ Datetime.replace_year b (Datetime.year today) = Raise e.
Proof.
  induction records as [|record rest IH]; intros acc; simpl; [discriminate|].
  assert (Hrest : forall acc',
             upcoming_loop today next_week σ rest acc' = Raise e ->
             exists record0 b,
               (record = record0 \/ In record0 rest)
               /\ birthday (σ !!! record0) = Some b
               /\ Datetime.replace_year b (Datetime.year today) = Raise e).
  { intros acc' H. apply IH in H as (r0 & b & Hin & H). exists r0, b. tauto. }
  destruct (birthday (σ !!! record)) as [b|] eqn:Eb; [|apply Hrest].
  unfold in_window.
  destruct (Datetime.replace_year b (Datetime.year today)) as [D|e'] eqn:ED.
  - cbn [mbind result_bind]. destruct (_ && _); apply Hrest.
  - cbn [mbind result_bind]. intros [= <-]. exists record, b. tauto.
Qed.

Lemma add_days_Raise t n e :
  Datetime.add_days t n = Raise e ->
  e = OverflowError "date value out of range".
Proof.
  unfold Datetime.add_days. destruct (_ && _); [|congruence].
  now destruct (Datetime.ord2ymd _) as [[y m] d].
Qed.

(** The two ways [get_upcoming_birthdays] can fail, for birthdays that were
    stored by [add_birthday]: the week ahead lies beyond the last
    representable day, or the book holds a birthday on 29 February while the
    current year is not a leap year. *)
Lemma get_upcoming_birthdays_Raise today σ data e :
  Datetime.valid today ->
  (forall record,
      In record (dict_values data) -> birthday_stored (σ !!! record)) ->
  get_upcoming_birthdays today σ data = Raise e ->
  e = OverflowError "date value out of range"
  \/ (e = ValueError "day is out of range for month"
      /\ Datetime.is_leap (Datetime.year today) = false
      /\ exists record b,
           In record (dict_values data) /\ birthday (σ !!! record) = Some b
           /\ Datetime.month b = 2 /\ Datetime.day b = 29).
Proof.
  intros Hv Hstored. unfold get_upcoming_birthdays.
  destruct (Datetime.add_days today 7) as [next_week|e'] eqn:Ew.
  - cbn [mbind result_bind]. intros H. right.
    apply upcoming_loop_Raise_inv in H as (record & b & Hin & Hb & Hr).
    destruct (Hstored record Hin b Hb) as [text Htext].
    apply valid_fields in Hv as (Hy & _).
    rewrite (replace_year_of_Birthday text b _ Htext Hy) in Hr.
    destruct ((Datetime.month b =? 2) && (Datetime.day b =? 29)
              && negb (Datetime.is_leap (Datetime.year today))) eqn:E;
      [|discriminate].
    apply andb_true_iff in E as [E E3]. apply andb_true_iff in E as [E1 E2].
    apply Z.eqb_eq in E1, E2. apply negb_true_iff in E3.
    split; [congruence|]. split; [assumption|]. now exists record, b.
  - cbn [mbind result_bind]. intros [= <-]. left.
    now apply add_days_Raise in Ew.
Qed.

(** Every exception of a Record operation is one of the validation errors,
    and so is the only exception of [Record(name)]. *)
Lemma run_op_raises_ValidationError o self self' e :
  run_op o self = (self', Some e) -> ValidationError e.
Proof.
  unfold ValidationError.
  destruct o as [n|n|old new|n|text]; unfold run_op, forget.
  - destruct (valid_phone_dec n) as [Hv|Hv].
    + rewrite add_phone_valid by assumption. discriminate.
    + rewrite add_phone_invalid by assumption. simpl. intros [= _ <-]. tauto.
  - rewrite Record_remove_phone_eq. discriminate.
  - rewrite Record_edit_phone_eq. discriminate.
  - discriminate.
  - rewrite Record_add_birthday_eq.
    destruct (Birthday text) as [b|e'] eqn:E; [discriminate|].
    apply Birthday_Raise in E as ->. simpl. intros [= _ <-]. tauto.
Qed.

Lemma Record_init_raises_ValidationError n e :
  Record_init n = Raise e -> ValidationError e.
Proof.
  unfold Record_init, Name, ValidationError.
  destruct (truthy n); simpl; [discriminate|]. intros [= <-]. tauto.
Qed.

Lemma leap_script_result : leap_script = (leap_store, leap_data).
Proof. vm_compute. reflexivity. Qed.

(** C3, as stated, fails: in 2027, with Ann (born 29 February 2000) and Bob
    (born 15 November 1990) in the book, the call of 14 November raises the
    ValueError of [replace] at Ann's record and returns no list, although
    Bob's anniversary lies inside the window; and in the last week of the
    year 9999 the call raises the OverflowError of [today + 7 days] before
    it looks at any record. *)
Lemma get_upcoming_birthdays_raises_instead_of_including :
  (let today := Datetime.mk_datetime 2027 11 14 9 30 0 0 in
   let next_week := Datetime.mk_datetime 2027 11 21 9 30 0 0 in
   get_upcoming_birthdays today leap_store leap_data
   = Raise (ValueError "day is out of range for month")
   /\ Datetime.add_days today 7 = Return next_week
   /\ AddressBook_find leap_data (str "Bob") = Some 1%nat
   /\ qualifies today next_week leap_store 1%nat = true)
  /\ (let today := Datetime.mk_datetime 9999 12 28 9 30 0 0 in
      let b := Datetime.mk_datetime 1990 12 29 0 0 0 0 in
      get_upcoming_birthdays today
        {[ 0%nat := mk_Record (str "Bob") [] (Some b) ]} [(str "Bob", 0%nat)]
      = Raise (OverflowError "date value out of range")
      /\ micros today <= micros (anniversary b 9999)
         < micros today + 7 * 86400 * 1000000).
Proof.
  split; [repeat split; vm_compute; reflexivity|].
  split; [vm_compute; reflexivity|].
  vm_compute. split; [discriminate|reflexivity].
Qed.

(** C5 at the failing input: ["29.02.1996"] is a birthday [add_birthday]
    accepts, and on 1 March 2027 [get_upcoming_birthdays] on a book with
    this one record fails with the ValueError of [replace], which is none of
    the validation errors and no sentinel. *)
Theorem get_upcoming_birthdays_fails_on_leap_day :
  let eve := mk_Record (str "Eve") [str "0501234567"] None in
  let b := Datetime.mk_datetime 1996 2 29 0 0 0 0 in
  Record_add_birthday (str "29.02.1996") eve
  = (mk_Record (str "Eve") [str "0501234567"] (Some b), Return tt)
  /\ get_upcoming_birthdays (Datetime.mk_datetime 2027 3 1 12 0 0 0)
       {[ 0%nat := mk_Record (str "Eve") [str "0501234567"] (Some b) ]}
       [(str "Eve", 0%nat)]
     = Raise (ValueError "day is out of range for month")
  /\ ~ ValidationError (ValueError "day is out of range for month").
Proof.
  split; [vm_compute; reflexivity|]. split; [vm_compute; reflexivity|].
  intros [H|[H|H]]; discriminate H.
Qed.

(** ** Upcoming birthdays: the window *)

Lemma anniversary_of_Birthday text b y :
  Birthday text = Return b -> 1 <= y <= 9999 ->
  ~ (Datetime.month b = 2 /\ Datetime.day b = 29
     /\ Datetime.is_leap y = false) ->
  Datetime.replace_year b y = Return (anniversary b y)
  /\ Datetime.valid (anniversary b y).
Proof.
  intros Hb Hy Hn.
  assert (E : Datetime.replace_year b y = Return (anniversary b y)).
  { rewrite (replace_year_of_Birthday text b y Hb Hy).
    apply Birthday_Return in Hb as (_ & Hh & Hmi & Hs & Hus).
    unfold anniversary. rewrite Hh, Hmi, Hs, Hus.
    destruct (Z.eqb_spec (Datetime.month b) 2) as [Em|]; [|reflexivity].
    destruct (Z.eqb_spec (Datetime.day b) 29) as [Ed|]; [|reflexivity].
    destruct (Datetime.is_leap y) eqn:El; [reflexivity|]. tauto. }
  split; [exact E|]. unfold Datetime.replace_year in E.
  now apply new_valid in E.
Qed.

(** C3, as amended: when the week ahead of the call is representable and no
    stored birthday is 29 February in a current year that is not a leap
    year, [get_upcoming_birthdays] returns a list; the list holds, in the
    insertion order of the dictionary, the names of exactly the records that
    have a birthday whose date with the year replaced by the current year,
    [D], satisfies [today <= D < today + 7 days], [today] being the moment
    of the call; a record without birthday is never included. *)
Theorem get_upcoming_birthdays_seven_day_window
  (today : Datetime.datetime) (σ : store) (data : dict) :
  Datetime.valid today ->
  Datetime.toordinal today + 7 <= Datetime.MAXORDINAL ->
  (forall record,
      In record (dict_values data) -> birthday_stored (σ !!! record)) ->
  (forall record b,
      In record (dict_values data) -> birthday (σ !!! record) = Some b ->
      ~ (Datetime.month b = 2 /\ Datetime.day b = 29
         /\ Datetime.is_leap (Datetime.year today) = false)) ->
  exists included : loc -> bool,
    get_upcoming_birthdays today σ data
    = Return (map (name_of σ) (List.filter included (dict_values data)))
    /\ forall record,
         In record (dict_values data) ->
         (included record = true
          <-> exists b,
                birthday (σ !!! record) = Some b
                /\ micros today
                   <= micros (anniversary b (Datetime.year today))
                   < micros today + 7 * 86400 * 1000000).
Proof.
  intros Hv Hmax Hstored Hleap.
  destruct (add_days_7_exists today Hv Hmax) as [next_week Hw].
  pose proof (valid_fields _ Hv) as (Hy & _).
  assert (Hann : forall record b,
             In record (dict_values data) ->
             birthday (σ !!! record) = Some b ->
             Datetime.replace_year b (Datetime.year today)
             = Return (anniversary b (Datetime.year today))
             /\ Datetime.valid (anniversary b (Datetime.year today))).
  { intros record b Hin Hb. destruct (Hstored record Hin b Hb) as [text Ht].
    exact (anniversary_of_Birthday text b _ Ht Hy (Hleap record b Hin Hb)). }
  exists (qualifies today next_week σ). split.
  - apply get_upcoming_birthdays_window; [assumption|].
    apply List.Forall_forall. intros record Hin b Hb.
    destruct (Hann record b Hin Hb) as [E _]. eauto.
  - intros record Hin. rewrite qualifies_spec. split.
    + intros (b & D & Hb & HD & Hle & Hlt). exists b. split; [assumption|].
      destruct (Hann record b Hin Hb) as [E HvD].
      rewrite E in HD. injection HD as <-.
      apply (window_in_linear_time today next_week); try assumption.
      now rewrite Hle, Hlt.
    + intros (b & Hb & Hwin).
      destruct (Hann record b Hin Hb) as [E HvD].
      exists b, (anniversary b (Datetime.year today)).
      split; [assumption|]. split; [assumption|].
      apply andb_true_iff.
      now apply (window_in_linear_time today next_week).
Qed.

Lemma get_upcoming_birthdays_seven_day_window_witness :
  let today := Datetime.mk_datetime 2024 11 14 10 30 0 0 in
  Datetime.valid today
  /\ Datetime.toordinal today + 7 <= Datetime.MAXORDINAL
  /\ (forall record,
         In record (dict_values window_data) ->
         birthday_stored (window_store !!! record))
  /\ (forall record b,
         In record (dict_values window_data) ->
         birthday (window_store !!! record) = Some b ->
         ~ (Datetime.month b = 2 /\ Datetime.day b = 29
            /\ Datetime.is_leap (Datetime.year today) = false))
  /\ get_upcoming_birthdays today window_store window_data
     = Return [str "John"]
  /\ exists included : loc -> bool,
       get_upcoming_birthdays today window_store window_data
       = Return (map (name_of window_store)
                   (List.filter included (dict_values window_data)))
       /\ forall record,
            In record (dict_values window_data) ->
            (included record = true
             <-> exists b,
                   birthday (window_store !!! record) = Some b
                   /\ micros today
                      <= micros (anniversary b (Datetime.year today))
                      < micros today + 7 * 86400 * 1000000).
Proof.
  intros today.
  assert (Hv : Datetime.valid today) by reflexivity.
  assert (Hmax : Datetime.toordinal today + 7 <= Datetime.MAXORDINAL)
    by (vm_compute; discriminate).
  assert (Hstored : forall record,
             In record (dict_values window_data) ->
             birthday_stored (window_store !!! record)).
  { intros record [<-|[<-|[<-|[]]]] b Hb; vm_compute in Hb;
      try discriminate Hb; injection Hb as <-.
    - exists (str "15.11.1990"). vm_compute. reflexivity.
    - exists (str "25.11.1990"). vm_compute. reflexivity. }
  assert (Hleap : forall record b,
             In record (dict_values window_data) ->
             birthday (window_store !!! record) = Some b ->
             ~ (Datetime.month b = 2 /\ Datetime.day b = 29
                /\ Datetime.is_leap (Datetime.year today) = false)).
  { intros record b _ _ (_ & _ & H). discriminate H. }
  split; [exact Hv|]. split; [exact Hmax|]. split; [exact Hstored|].
  split; [exact Hleap|]. split; [vm_compute; reflexivity|].
  exact (get_upcoming_birthdays_seven_day_window today window_store
           window_data Hv Hmax Hstored Hleap).
Defined.

(** ** Sharing: a record changed through the reference [find] returned *)

(** The book and its caller see the same object: a phone added through the
    reference that [find] returned is a phone of the record in the book. *)
Lemma call_through_found_reference σ data n record s :
  AddressBook_find data n = Some record -> valid_phone s ->
  let σ' := fst (call record (Record_add_phone s) σ) in
  AddressBook_find data n = Some record
  /\ phones (σ' !!! record) = phones (σ !!! record) ++ [s].
Proof.
  intros Hf Hv σ'. split; [assumption|].
  subst σ'. unfold call. rewrite add_phone_valid by assumption. simpl.
  now rewrite lookup_total_insert_eq.
Qed.

(** * Properties of the rest of the program *)

(** ** Record: removing and finding phones *)

Lemma remove_phone_loop_absent l n :
  ~ In n l -> remove_phone_loop l n = (l, false).
Proof.
  induction l as [|p l IH]; simpl; intros H; [reflexivity|].
  destruct (decide (p = n)) as [->|Hne]; [tauto|].
  rewrite IH by tauto. reflexivity.
Qed.

Lemma remove_phone_loop_first l1 l2 n :
  ~ In n l1 -> remove_phone_loop (l1 ++ n :: l2) n = (l1 ++ l2, true).
Proof.
  induction l1 as [|p l1 IH]; simpl; intros H.
  - destruct (decide (n = n)); [reflexivity|congruence].
  - destruct (decide (p = n)) as [->|Hne]; [tauto|].
    rewrite IH by tauto. reflexivity.
Qed.

Lemma with_phones_same self : with_phones self (phones self) = self.
Proof. now destruct self. Qed.

(** X1: [remove_phone] with a number the record does not hold answers [False]
    and changes nothing. *)
Theorem remove_phone_no_match (self : RecordObj) (n : pystr) :
  ~ In n (phones self) ->
  Record_remove_phone n self = (self, Return false).
Proof.
  intros H. rewrite Record_remove_phone_eq, remove_phone_loop_absent by
    assumption.
  simpl. now rewrite with_phones_same.
Qed.

Lemma remove_phone_no_match_witness :
  ~ In (str "0000000000") [str "1234567890"]
  /\ Record_remove_phone (str "0000000000")
       (mk_Record (str "John") [str "1234567890"] None)
     = (mk_Record (str "John") [str "1234567890"] None, Return false).
Proof.
  assert (H : ~ In (str "0000000000") [str "1234567890"])
    by (intros [H|[]]; discriminate H).
  split; [exact H|].
  exact (remove_phone_no_match
           (mk_Record (str "John") [str "1234567890"] None)
           (str "0000000000") H).
Defined.

(** X2: [remove_phone] takes out the first phone with the given number, and
    only that one: the phones before and after it, later phones with the
    same number among them, stay in their order. *)
Theorem remove_phone_first_match (self : RecordObj) (l1 l2 : list pystr)
  (n : pystr) :
  phones self = l1 ++ n :: l2 -> ~ In n l1 ->
  Record_remove_phone n self = (with_phones self (l1 ++ l2), Return true).
Proof.
  intros Hp Hn. rewrite Record_remove_phone_eq, Hp.
  now rewrite remove_phone_loop_first.
Qed.

Lemma remove_phone_first_match_witness :
  phones (mk_Record (str "John")
            [str "1111111111"; str "5555555555"; str "5555555555"] None)
  = [str "1111111111"] ++ str "5555555555" :: [str "5555555555"]
  /\ ~ In (str "5555555555") [str "1111111111"]
  /\ Record_remove_phone (str "5555555555")
       (mk_Record (str "John")
          [str "1111111111"; str "5555555555"; str "5555555555"] None)
     = (mk_Record (str "John") [str "1111111111"; str "5555555555"] None,
        Return true).
Proof.
  assert (H : ~ In (str "5555555555") [str "1111111111"])
    by (intros [H|[]]; discriminate H).
  split; [reflexivity|]. split; [exact H|].
  exact (remove_phone_first_match
           (mk_Record (str "John")
              [str "1111111111"; str "5555555555"; str "5555555555"] None)
           [str "1111111111"] [str "5555555555"] (str "5555555555")
           eq_refl H).
Defined.

Lemma find_phone_found (l : list pystr) (n : pystr) :
  In n l ->
  List.find (fun phone => bool_decide (phone = n)) l = Some n.
Proof.
  induction l as [|p l IH]; simpl; [tauto|].
  destruct (decide (p = n)) as [->|Hne].
  - now rewrite bool_decide_eq_true_2.
  - rewrite bool_decide_eq_false_2 by assumption. intros [H|H]; [congruence|].
    now apply IH.
Qed.

Lemma find_phone_absent (l : list pystr) (n : pystr) :
  ~ In n l ->
  List.find (fun phone => bool_decide (phone = n)) l = None.
Proof.
  induction l as [|p l IH]; simpl; [reflexivity|].
  intros H. rewrite bool_decide_eq_false_2 by tauto. apply IH. tauto.
Qed.

(** X3: A phone that [add_phone] accepted is found by [find_phone], whatever
    the record held before. *)
Theorem add_phone_then_find_phone (self : RecordObj) (s : pystr) :
  valid_phone s ->
  (_ ← Record_add_phone s; Record_find_phone s) self
  = (with_phones self (phones self ++ [s]), Return (Some s)).
Proof.
  intros Hv. cbv [mbind method_bind]. rewrite add_phone_valid by assumption.
  rewrite Record_find_phone_eq. simpl. rewrite find_phone_found; [reflexivity|].
  apply in_or_app. right. now left.
Qed.

Lemma valid_phone_example : valid_phone (str "5555555555").
Proof. apply validate_phone_Return. reflexivity. Defined.

Lemma add_phone_then_find_phone_witness :
  valid_phone (str "5555555555")
  /\ (_ ← Record_add_phone (str "5555555555");
      Record_find_phone (str "5555555555")) john
     = (mk_Record (str "John") [str "5555555555"] None,
        Return (Some (str "5555555555"))).
Proof.
  split; [exact valid_phone_example|].
  exact (add_phone_then_find_phone john (str "5555555555")
           valid_phone_example).
Defined.

(** X4: Adding a phone the record does not hold yet and removing it again gives
    back the record as it was. *)
Theorem add_phone_then_remove_phone (self : RecordObj) (s : pystr) :
  valid_phone s -> ~ In s (phones self) ->
  (_ ← Record_add_phone s; Record_remove_phone s) self
  = (self, Return true).
Proof.
  intros Hv Hn. cbv [mbind method_bind]. rewrite add_phone_valid by assumption.
  rewrite Record_remove_phone_eq. cbn [phones with_phones].
  rewrite remove_phone_loop_first by assumption.
  unfold with_phones. simpl. rewrite app_nil_r. now destruct self.
Qed.

Lemma add_phone_then_remove_phone_witness :
  valid_phone (str "5555555555") /\ ~ In (str "5555555555") (phones john)
  /\ (_ ← Record_add_phone (str "5555555555");
      Record_remove_phone (str "5555555555")) john
     = (john, Return true).
Proof.
  assert (H : ~ In (str "5555555555") (phones john)) by (intros []).
  split; [exact valid_phone_example|]. split; [exact H|].
  exact (add_phone_then_remove_phone john (str "5555555555")
           valid_phone_example H).
Defined.

(** X5: After [edit_phone(old, new)] on a record that holds [old] once, with
    [new] different from [old], [find_phone(old)] finds nothing,
    [find_phone(new)] finds the phone, and the record has as many phones as
    before. *)
Theorem edit_phone_then_find_phone (self : RecordObj) (l1 l2 : list pystr)
  (old new : pystr) :
  phones self = l1 ++ old :: l2 -> ~ In old l1 -> ~ In old l2 ->
  new <> old ->
  let self' := fst (Record_edit_phone old new self) in
  Record_find_phone old self' = (self', Return None)
  /\ Record_find_phone new self' = (self', Return (Some new))
  /\ length (phones self') = length (phones self).
Proof.
  intros Hp H1 H2 Hne self'. subst self'.
  rewrite (edit_phone_first_match self l1 l2 old new Hp H1). simpl.
  rewrite !Record_find_phone_eq. simpl. split; [|split].
  - rewrite find_phone_absent; [reflexivity|].
    intros H. apply in_app_or in H as [H|[H|H]]; tauto.
  - rewrite find_phone_found; [reflexivity|].
    apply in_or_app. right. now left.
  - rewrite Hp, !length_app. reflexivity.
Qed.

Lemma edit_phone_then_find_phone_witness :
  let self := mk_Record (str "John") [str "1234567890"; str "5555555555"]
                None in
  phones self = [] ++ str "1234567890" :: [str "5555555555"]
  /\ ~ In (str "1234567890") []
  /\ ~ In (str "1234567890") [str "5555555555"]
  /\ str "1112223333" <> str "1234567890"
  /\ Record_find_phone (str "1234567890")
       (fst (Record_edit_phone (str "1234567890") (str "1112223333") self))
     = (mk_Record (str "John") [str "1112223333"; str "5555555555"] None,
        Return None).
Proof.
  intros self.
  assert (H1 : ~ In (str "1234567890") []) by (intros []).
  assert (H2 : ~ In (str "1234567890") [str "5555555555"])
    by (intros [H|[]]; discriminate H).
  assert (H3 : str "1112223333" <> str "1234567890") by discriminate.
  split; [reflexivity|]. split; [exact H1|]. split; [exact H2|].
  split; [exact H3|].
  exact (proj1 (edit_phone_then_find_phone self [] [str "5555555555"]
                  (str "1234567890") (str "1112223333") eq_refl H1 H2 H3)).
Defined.

(** ** Record: what every run of operations keeps *)

Lemma run_ops_keep_name os self : name (run_ops os self) = name self.
Proof.
  revert self. induction os as [|o os IH]; intros self; simpl; [reflexivity|].
  rewrite IH. apply run_op_keeps_name.
Qed.

Lemma run_ops_keep_birthday_stored os self :
  birthday_stored self -> birthday_stored (run_ops os self).
Proof.
  revert self. induction os as [|o os IH]; intros self H; simpl;
    [assumption|].
  apply IH. now apply run_op_keeps_birthday_stored.
Qed.

(** X6: The name of a record is the text it was created with, which is not
    empty, whatever operations are run on the record afterwards. *)
Theorem name_never_changes (n : pystr) (r : RecordObj) (os : list op) :
  Record_init n = Return r ->
  name (run_ops os r) = n /\ n <> [].
Proof.
  intros H. rewrite run_ops_keep_name.
  unfold Record_init, Name in H. destruct n as [|c n]; [discriminate|].
  injection H as <-. split; [reflexivity|discriminate].
Qed.

Lemma name_never_changes_witness :
  Record_init (str "John") = Return john
  /\ name (run_ops [add_phone (str "1234567890");
                    edit_phone (str "1234567890") (str "John2");
                    add_birthday (str "15.11.1990")] john) = str "John"
  /\ str "John" <> [].
Proof.
  split; [reflexivity|].
  exact (name_never_changes (str "John") john
           [add_phone (str "1234567890");
            edit_phone (str "1234567890") (str "John2");
            add_birthday (str "15.11.1990")] eq_refl).
Defined.

(** X7: The birthday of a record, after any run of operations on a new record,
    is absent or a calendar date the date constructor accepts, at
    midnight. *)
Theorem birthday_always_valid (n : pystr) (r : RecordObj) (os : list op)
  (b : Datetime.datetime) :
  Record_init n = Return r ->
  birthday (run_ops os r) = Some b ->
  Datetime.valid b
  /\ Datetime.hour b = 0 /\ Datetime.minute b = 0
  /\ Datetime.second b = 0 /\ Datetime.microsecond b = 0.
Proof.
  intros Hr Hb.
  destruct (run_ops_keep_birthday_stored os r
              (Record_init_birthday_stored n r Hr) b Hb) as [text Ht].
  now apply Birthday_Return in Ht.
Qed.

Lemma birthday_always_valid_witness :
  Record_init (str "John") = Return john
  /\ birthday (run_ops [add_birthday (str "31.02.1990");
                        add_birthday (str "29.02.2000")] john)
     = Some (Datetime.mk_datetime 2000 2 29 0 0 0 0)
  /\ Datetime.valid (Datetime.mk_datetime 2000 2 29 0 0 0 0).
Proof.
  assert (Hb : birthday (run_ops [add_birthday (str "31.02.1990");
                                  add_birthday (str "29.02.2000")] john)
               = Some (Datetime.mk_datetime 2000 2 29 0 0 0 0))
    by (vm_compute; reflexivity).
  split; [reflexivity|]. split; [exact Hb|].
  exact (proj1 (birthday_always_valid (str "John") john
                  [add_birthday (str "31.02.1990");
                   add_birthday (str "29.02.2000")]
                  (Datetime.mk_datetime 2000 2 29 0 0 0 0) eq_refl Hb)).
Defined.

(** X8: The phones of a new record are all valid after any run of operations
    in which [edit_phone] is only given new numbers that [Phone] accepts. *)
Theorem phones_valid_without_bad_edit (n : pystr) (r : RecordObj)
  (os : list op) :
  Record_init n = Return r ->
  List.Forall (fun o => forall old new, o = edit_phone old new ->
                                         valid_phone new) os ->
  List.Forall valid_phone (phones (run_ops os r)).
Proof.
  intros Hr Hos. apply run_ops_keep_phones_valid; [assumption|].
  unfold Record_init, Name in Hr. destruct (truthy n); [|discriminate].
  injection Hr as <-. constructor.
Qed.

Lemma phones_valid_without_bad_edit_witness :
  let os := [add_phone (str "1234567890"); add_phone (str "12");
             edit_phone (str "1234567890") (str "5555555555");
             remove_phone (str "0000000000")] in
  Record_init (str "John") = Return john
  /\ List.Forall (fun o => forall old new, o = edit_phone old new ->
                                            valid_phone new) os
  /\ List.Forall valid_phone (phones (run_ops os john)).
Proof.
  intros os.
  assert (Hos : List.Forall (fun o => forall old new,
                                 o = edit_phone old new -> valid_phone new)
                  os).
  { repeat (apply List.Forall_cons;
              [intros old new H;
               first [discriminate H
                     |injection H as _ <-; exact valid_phone_example]|]).
    apply List.Forall_nil. }
  split; [reflexivity|]. split; [exact Hos|].
  exact (phones_valid_without_bad_edit (str "John") john os eq_refl Hos).
Defined.

(** ** AddressBook: deleting and replacing *)

Lemma dict_del_absent d k : dict_get d k = None -> dict_del d k = d.
Proof.
  intros E. apply dict_get_None in E.
  induction d as [|[k' v'] d IH]; simpl in *; [reflexivity|].
  destruct (decide (k' = k)); [tauto|]. f_equal. apply IH. tauto.
Qed.

Lemma dict_get_del_ne d k m :
  m <> k -> dict_get (dict_del d k) m = dict_get d m.
Proof.
  intros Hne. induction d as [|[k' v'] d IH]; simpl; [reflexivity|].
  destruct (decide (k' = k)) as [->|]; simpl.
  - destruct (decide (k = m)); [congruence|reflexivity].
  - destruct (decide (k' = m)); [reflexivity|assumption].
Qed.

Lemma delete_not_held (data : dict) (n : pystr) :
  AddressBook_find data n = None ->
  AddressBook_delete data n = (data, false).
Proof.
  unfold AddressBook_find, AddressBook_delete, dict_contains. intros H.
  rewrite H. rewrite bool_decide_eq_false_2; [reflexivity|].
  intros [x Hx]. discriminate Hx.
Qed.

(** X9: [delete] with a name of the book answers [True]; afterwards [find] with
    this name finds nothing, [find] with any other name finds what it found
    before, and a second [delete] answers [False]. *)
Theorem delete_present (data : dict) (n : pystr) (record : loc) :
  List.NoDup (keys data) ->
  AddressBook_find data n = Some record ->
  snd (AddressBook_delete data n) = true
  /\ AddressBook_find (fst (AddressBook_delete data n)) n = None
  /\ (forall m, m <> n ->
        AddressBook_find (fst (AddressBook_delete data n)) m
        = AddressBook_find data m)
  /\ AddressBook_delete (fst (AddressBook_delete data n)) n
     = (fst (AddressBook_delete data n), false).
Proof.
  intros Hnd Hf.
  assert (Hd : AddressBook_delete data n = (dict_del data n, true)).
  { unfold AddressBook_find in Hf.
    unfold AddressBook_delete, dict_contains. rewrite Hf.
    now rewrite bool_decide_eq_true_2 by eauto. }
  rewrite Hd. simpl.
  assert (Hgone : AddressBook_find (dict_del data n) n = None)
    by now apply dict_get_del.
  split; [reflexivity|]. split; [exact Hgone|].
  split; [intros m Hm; now apply dict_get_del_ne|].
  now apply delete_not_held.
Qed.

Lemma delete_present_witness :
  let data := [(str "John", 0%nat); (str "Jane", 1%nat)] in
  List.NoDup (keys data)
  /\ AddressBook_find data (str "John") = Some 0%nat
  /\ snd (AddressBook_delete data (str "John")) = true
  /\ AddressBook_find (fst (AddressBook_delete data (str "John")))
       (str "John") = None.
Proof.
  intros data.
  assert (Hnd : List.NoDup (keys data)).
  { repeat constructor; simpl; intuition discriminate. }
  split; [exact Hnd|]. split; [reflexivity|].
  destruct (delete_present data (str "John") 0%nat Hnd eq_refl)
    as (H1 & H2 & _).
  split; [exact H1|exact H2].
Defined.


(** ** AddressBook: the invariant of the data model *)

(** X11: Keys stay unique and equal to the names of their records, and every
    entry keeps referring to an object, when a record of the store is added
    to the book, when an entry is deleted, and when a method that leaves the
    name alone - as all methods of [Record] do - is called on any record. *)
Theorem book_stays_in_order (σ : store) (data : dict) :
  book_ok σ data ->
  (forall record, is_Some (σ !! record) ->
                  book_ok σ (AddressBook_add_record σ data record))
  /\ (forall n, book_ok σ (fst (AddressBook_delete data n)))
  /\ (forall record o,
         book_ok (<[record := fst (run_op o (σ !!! record))]> σ) data).
Proof.
  intros Hok. split; [|split].
  - intros record Hr. now apply book_ok_add_record.
  - intros n. now apply book_ok_delete.
  - intros record o.
    pose proof (book_ok_call σ data record
                  (fun self => (fst (run_op o self), Return tt))
                  (fun self => run_op_keeps_name o self) Hok) as H.
    exact H.
Qed.

Lemma book_stays_in_order_witness :
  book_ok nov_store nov_data
  /\ book_ok nov_store (fst (AddressBook_delete nov_data (str "John")))
  /\ book_ok (<[1%nat := fst (run_op (add_phone (str "5555555555"))
                                 (nov_store !!! 1%nat))]> nov_store)
       nov_data.
Proof.
  destruct (book_stays_in_order nov_store nov_data nov_book_ok)
    as (_ & H2 & H3).
  split; [exact nov_book_ok|].
  split; [exact (H2 (str "John"))|].
  exact (H3 1%nat (add_phone (str "5555555555"))).
Defined.

Lemma book_ok_names σ data :
  book_ok σ data -> map (name_of σ) (dict_values data) = keys data.
Proof.
  intros [_ Hname]. unfold dict_values, keys.
  induction data as [|[k l] data IH]; simpl; [reflexivity|].
  f_equal.
  - destruct (Hname k l (or_introl eq_refl)) as (r & Hr & <-).
    unfold name_of. now rewrite (lookup_total_correct _ _ _ Hr).
  - apply IH. intros k' l' Hin. apply Hname. now right.
Qed.

Lemma sublist_map_filter {A B} (f : A -> B) (q : A -> bool) (l : list A) :
  sublist (map f (List.filter q l)) (map f l).
Proof.
  induction l as [|x l IH]; simpl; [constructor|].
  destruct (q x); simpl; [now apply sublist_skip|now apply sublist_cons].
Qed.

(** X12: The names [get_upcoming_birthdays] returns are keys of the book, in the
    order of the book, none of them twice. *)
Theorem upcoming_names_are_keys (today : Datetime.datetime) (σ : store)
  (data : dict) (names : list pystr) :
  book_ok σ data ->
  get_upcoming_birthdays today σ data = Return names ->
  sublist names (keys data) /\ List.NoDup names.
Proof.
  intros Hok H.
  apply get_upcoming_birthdays_Return_inv in H as (next_week & _ & ->).
  assert (Hs : sublist (map (name_of σ)
                          (List.filter (qualifies today next_week σ)
                                       (dict_values data)))
                       (keys data)).
  { rewrite <- (book_ok_names σ data Hok). apply sublist_map_filter. }
  split; [exact Hs|].
  destruct Hok as [Hnd _]. apply NoDup_ListNoDup.
  apply NoDup_ListNoDup in Hnd. eapply sublist_NoDup; eauto.
Qed.

Lemma upcoming_names_are_keys_witness :
  let today := Datetime.mk_datetime 2024 11 14 10 30 0 0 in
  book_ok nov_store nov_data
  /\ get_upcoming_birthdays today nov_store nov_data = Return [str "John"]
  /\ sublist [str "John"] (keys nov_data) /\ List.NoDup [str "John"].
Proof.
  intros today.
  assert (H : get_upcoming_birthdays today nov_store nov_data
              = Return [str "John"]) by (vm_compute; reflexivity).
  split; [exact nov_book_ok|]. split; [exact H|].
  exact (upcoming_names_are_keys today nov_store nov_data [str "John"]
           nov_book_ok H).
Defined.

(** X13: [get_upcoming_birthdays] fails in two ways only, when the birthdays of
    the book were stored by [add_birthday]: with the OverflowError of
    [today + 7 days], or with the ValueError of [replace], and then the
    current year is not a leap year and the book holds a birthday on 29
    February. *)
Theorem get_upcoming_birthdays_failures (today : Datetime.datetime)
  (σ : store) (data : dict) (e : exn) :
  Datetime.valid today ->
  (forall record,
      In record (dict_values data) -> birthday_stored (σ !!! record)) ->
  get_upcoming_birthdays today σ data = Raise e ->
  e = OverflowError "date value out of range"
  \/ (e = ValueError "day is out of range for month"
      /\ Datetime.is_leap (Datetime.year today) = false
      /\ exists record b,
           In record (dict_values data) /\ birthday (σ !!! record) = Some b
           /\ Datetime.month b = 2 /\ Datetime.day b = 29).
Proof. apply get_upcoming_birthdays_Raise. Qed.

Lemma leap_store_stored record :
  In record (dict_values leap_data) -> birthday_stored (leap_store !!! record).
Proof.
  intros [<-|[<-|[]]] b Hb; vm_compute in Hb; injection Hb as <-.
  - exists (str "29.02.2000"). vm_compute. reflexivity.
  - exists (str "15.11.1990"). vm_compute. reflexivity.
Defined.

Lemma get_upcoming_birthdays_failures_witness :
  let today := Datetime.mk_datetime 2027 11 14 9 30 0 0 in
  let e := ValueError "day is out of range for month" in
  Datetime.valid today
  /\ (forall record,
         In record (dict_values leap_data) ->
         birthday_stored (leap_store !!! record))
  /\ get_upcoming_birthdays today leap_store leap_data = Raise e
  /\ (e = OverflowError "date value out of range"
      \/ (e = ValueError "day is out of range for month"
          /\ Datetime.is_leap (Datetime.year today) = false
          /\ exists record b,
               In record (dict_values leap_data)
               /\ birthday (leap_store !!! record) = Some b
               /\ Datetime.month b = 2 /\ Datetime.day b = 29)).
Proof.
  intros today e.
  assert (Hv : Datetime.valid today) by reflexivity.
  assert (H : get_upcoming_birthdays today leap_store leap_data = Raise e)
    by (vm_compute; reflexivity).
  split; [exact Hv|]. split; [exact leap_store_stored|]. split; [exact H|].
  exact (get_upcoming_birthdays_failures today leap_store leap_data e Hv
           leap_store_stored H).
Defined.

(** ** Showing a birthday and reading it back *)

Lemma re_d_two_digits {B} d rest (k : pystr -> option B) :
  1 <= d <= 31 ->
  (forall c s, c <> Strptime.dot -> k (c :: s) = None) ->
  Strptime.re_match Strptime.re_d (two_digits d ++ Strptime.dot :: rest) k
  = k (Strptime.dot :: rest).
Proof.
  intros Hd Hk. small_cases d 1%nat 31%nat; vm_compute;
    (destruct (k (46 :: rest)) eqn:E; [reflexivity|]);
    rewrite ?Hk by discriminate; reflexivity.
Qed.

Lemma re_m_two_digits {B} m rest (k : pystr -> option B) :
  1 <= m <= 12 ->
  (forall c s, c <> Strptime.dot -> k (c :: s) = None) ->
  Strptime.re_match Strptime.re_m (two_digits m ++ Strptime.dot :: rest) k
  = k (Strptime.dot :: rest).
Proof.
  intros Hm Hk. small_cases m 1%nat 12%nat; vm_compute;
    (destruct (k (46 :: rest)) eqn:E; [reflexivity|]);
    rewrite ?Hk by discriminate; reflexivity.
Qed.

Lemma two_digits_ascii n :
  0 <= n <= 99 ->
  Unicode.ascii_digit (48 + n / 10) = true
  /\ Unicode.ascii_digit (48 + n mod 10) = true.
Proof.
  intros H. rewrite !ascii_digit_range.
  Z.div_mod_to_equations. lia.
Qed.

Lemma int_two_digits n :
  0 <= n <= 99 -> Strptime.int (two_digits n) = Return n.
Proof.
  intros H. destruct (two_digits_ascii n H) as [H1 H2].
  unfold two_digits, Strptime.int. rewrite lstrip_digit by assumption.
  simpl. rewrite !ascii_digit_decimal by assumption. f_equal.
  Z.div_mod_to_equations. lia.
Qed.

Lemma year_digits_four y :
  1000 <= y <= 9999 ->
  year_digits y
  = [48 + y / 1000; 48 + y / 100 mod 10; 48 + y / 10 mod 10; 48 + y mod 10]
  /\ ascii_digits (year_digits y)
  /\ 1000 * (48 + y / 1000 - 48) + 100 * (48 + y / 100 mod 10 - 48)
     + 10 * (48 + y / 10 mod 10 - 48) + (48 + y mod 10 - 48) = y.
Proof.
  intros H.
  assert (E : year_digits y
              = [48 + y / 1000; 48 + y / 100 mod 10; 48 + y / 10 mod 10;
                 48 + y mod 10]).
  { unfold year_digits.
    destruct (Z.ltb_spec y 10); [lia|]. destruct (Z.ltb_spec y 100); [lia|].
    destruct (Z.ltb_spec y 1000); [lia|]. reflexivity. }
  split; [exact E|]. split.
  - rewrite E. unfold ascii_digits.
    repeat (apply List.Forall_cons; [apply ascii_digit_range;
                                      Z.div_mod_to_equations; lia|]).
    apply List.Forall_nil.
  - Z.div_mod_to_equations. lia.
Qed.

(** The text [strftime('%d.%m.%Y')] prints for a date of the years 1000 to
    9999 is read back by [strptime] as the same date. *)
Lemma strptime_strftime y m d :
  1000 <= y <= 9999 -> 1 <= m <= 12 ->
  1 <= d <= Datetime.days_in_month y m ->
  Strptime.strptime (strftime_dmY (Datetime.mk_datetime y m d 0 0 0 0))
    (str "%d.%m.%Y")
  = Return (Datetime.mk_datetime y m d 0 0 0 0).
Proof.
  intros Hy Hm Hd.
  assert (Hd31 : 1 <= d <= 31).
  { split; [lia|]. revert Hd. unfold Datetime.days_in_month.
    destruct (_ && _); [lia|]. small_cases m 1%nat 12%nat; simpl; lia. }
  destruct (year_digits_four y Hy) as (Ey & Hasc & Hval).
  unfold Strptime.strptime. rewrite pattern_dmY.
  unfold strftime_dmY, dmY_pattern.
  cbn [Datetime.year Datetime.month Datetime.day].
  rewrite Ey in *. cbn [Strptime.match_items].
  change (two_digits d ++ [Strptime.dot] ++ two_digits m ++ [Strptime.dot]
          ++ [48 + y / 1000; 48 + y / 100 mod 10; 48 + y / 10 mod 10;
              48 + y mod 10])
    with (two_digits d ++ Strptime.dot
          :: (two_digits m ++ Strptime.dot
              :: [48 + y / 1000; 48 + y / 100 mod 10; 48 + y / 10 mod 10;
                  48 + y mod 10])).
  rewrite re_d_two_digits;
    [|assumption
     |intros c s Hc; destruct (Z.eqb_spec c Strptime.dot);
      [congruence|reflexivity]].
  cbn [Strptime.match_items]. rewrite Z.eqb_refl.
  rewrite re_m_two_digits;
    [|assumption
     |intros c s Hc; destruct (Z.eqb_spec c Strptime.dot);
      [congruence|reflexivity]].
  cbn [Strptime.match_items]. rewrite Z.eqb_refl.
  rewrite re_Y_four_digits by assumption.
  unfold two_digits.
  cbn [truthy length Nat.sub take app].
  unfold Strptime.group_value. cbn [List.find fst Strptime.directive_eqb].
  fold (two_digits d). fold (two_digits m).
  rewrite !int_two_digits by lia.
  rewrite int_four_digits by assumption.
  cbn [mbind result_bind]. rewrite Hval.
  apply new_midnight; lia.
Qed.

(** X14: What [show-birthday] and the display of a record print for a stored
    birthday of the years 1000 to 9999 is a text of ten characters that
    [add_birthday] accepts and reads as the same date. *)
Theorem shown_birthday_reads_back (text : pystr) (b : Datetime.datetime) :
  Birthday text = Return b -> 1000 <= Datetime.year b ->
  Birthday (strftime_dmY b) = Return b
  /\ length (strftime_dmY b) = 10%nat.
Proof.
  intros Hb Hy. apply Birthday_Return in Hb as (Hv & Hh & Hmi & Hs & Hus).
  apply valid_fields in Hv as (Hy' & Hm & Hd & _).
  destruct b as [y m d hh mm ss us]. simpl in *. subst hh mm ss us.
  split.
  - unfold Birthday, validate_birthday.
    rewrite strptime_strftime by lia. reflexivity.
  - unfold strftime_dmY. simpl Datetime.year.
    destruct (year_digits_four y ltac:(lia)) as (-> & _). reflexivity.
Qed.

Lemma shown_birthday_reads_back_witness :
  let b := Datetime.mk_datetime 1990 1 5 0 0 0 0 in
  Birthday (str "5.1.1990") = Return b /\ 1000 <= Datetime.year b
  /\ strftime_dmY b = str "05.01.1990"
  /\ Birthday (strftime_dmY b) = Return b.
Proof.
  intros b.
  assert (Hb : Birthday (str "5.1.1990") = Return b)
    by (vm_compute; reflexivity).
  assert (Hy : 1000 <= Datetime.year b) by (vm_compute; discriminate).
  split; [exact Hb|]. split; [exact Hy|]. split; [reflexivity|].
  exact (proj1 (shown_birthday_reads_back (str "5.1.1990") b Hb Hy)).
Defined.

(** ** The command layer: [parse_input] *)

Lemma split_scan_tokens s :
  forall word,
    List.Forall (fun c => isspace_char c = false) word ->
    List.Forall token (split_scan s word).
Proof.
  induction s as [|c s IH]; intros word Hw; simpl.
  - destruct word; simpl; constructor; [|constructor].
    split; [discriminate|assumption].
  - destruct (isspace_char c) eqn:Ec.
    + destruct word as [|x word]; simpl; [apply IH; constructor|].
      constructor; [split; [discriminate|assumption]|].
      apply IH. constructor.
    + apply IH. apply List.Forall_app. split; [assumption|].
      now repeat constructor.
Qed.

(** X15: The words [parse_input] returns are not empty and hold no white
    character. *)
Theorem parse_input_tokens (user_input : pystr) :
  List.Forall token (Bot.parse_input user_input).
Proof. apply split_scan_tokens. constructor. Qed.

Lemma split_scan_word t :
  List.Forall (fun c => isspace_char c = false) t ->
  forall s word, split_scan (t ++ s) word = split_scan s (word ++ t).
Proof.
  induction 1 as [|c t Hc _ IH]; intros s word; simpl.
  - now rewrite app_nil_r.
  - rewrite Hc, IH. now rewrite <- app_assoc.
Qed.

(** X16: Words joined by single blanks are split into the same words. *)
Theorem parse_input_join (words : list pystr) :
  List.Forall token words ->
  Bot.parse_input (str_join [32] words) = words.
Proof.
  unfold Bot.parse_input, str_split.
  induction 1 as [|x rest [Hne Hx] Hrest IH]; [reflexivity|].
  destruct rest as [|y rest'].
  - simpl. rewrite <- (app_nil_r x) at 1.
    rewrite split_scan_word by assumption. simpl.
    destruct x; [congruence|reflexivity].
  - change (str_join [32] (x :: y :: rest'))
      with (x ++ 32 :: str_join [32] (y :: rest')).
    rewrite split_scan_word by assumption.
    remember (str_join [32] (y :: rest')) as J eqn:EJ. simpl.
    destruct x; [congruence|]. simpl. now rewrite IH.
Qed.

Lemma parse_input_join_witness :
  List.Forall token [str "add"; str "John"; str "1234567890"]
  /\ Bot.parse_input (str "add John 1234567890")
     = [str "add"; str "John"; str "1234567890"].
Proof.
  assert (H : List.Forall token [str "add"; str "John"; str "1234567890"]).
  { repeat (apply List.Forall_cons;
              [split; [discriminate|vm_compute; repeat constructor]|]).
    apply List.Forall_nil. }
  split; [exact H|].
  exact (parse_input_join [str "add"; str "John"; str "1234567890"] H).
Defined.

Lemma split_scan_nil s :
  forall word,
    split_scan s word = [] <-> word = [] /\ List.Forall white s.
Proof.
  unfold white. induction s as [|c s IH]; intros word; simpl.
  - destruct word as [|x word]; simpl.
    + split; [intros _; split; [reflexivity|constructor]|reflexivity].
    + split; [discriminate|intros [H _]; discriminate H].
  - destruct (isspace_char c) eqn:Ec.
    + destruct word as [|x word]; simpl.
      * rewrite IH. split; intros [_ H]; split; try reflexivity.
        -- now constructor.
        -- now inversion H.
      * split; [discriminate|]. intros [H _]. discriminate H.
    + rewrite IH. split.
      * intros [H _]. destruct word; discriminate H.
      * intros [_ H]. inversion H; congruence.
Qed.

(** A line has no word exactly when all its characters are white. *)
Lemma parse_input_nil user_input :
  Bot.parse_input user_input = [] <-> List.Forall white user_input.
Proof.
  unfold Bot.parse_input, str_split. rewrite split_scan_nil. tauto.
Qed.

(** ** The command layer: [add] *)

Lemma dict_set_absent d k v :
  dict_get d k = None -> dict_set d k v = d ++ [(k, v)].
Proof.
  intros E. apply dict_get_None in E.
  induction d as [|[k' v'] d IH]; simpl in *; [reflexivity|].
  destruct (decide (k' = k)); [tauto|]. f_equal. apply IH. tauto.
Qed.

Lemma Record_new_Return n σ :
  n <> [] ->
  Record_new n σ
  = (<[fresh (dom σ) := mk_Record n [] None]> σ, Return (fresh (dom σ))).
Proof.
  intros Hn. unfold Record_new.
  now rewrite (proj1 (Record_init_spec n) Hn).
Qed.

(** X17: [add name phone] with a new name and a phone [Phone] accepts creates
    the record, with this one phone, puts it at the end of the book and
    answers "Contact added."; no other object is touched. *)
Theorem add_contact_new (w : Bot.world) (n phone : pystr)
  (rest : list pystr) :
  AddressBook_find (Bot.book w) n = None -> n <> [] ->
  valid_phone phone ->
  Bot.input_error (Bot.add_contact (n :: phone :: rest)) w
  = (Bot.mk_world
       (<[fresh (dom (Bot.objects w)) := mk_Record n [phone] None]>
          (Bot.objects w))
       (Bot.book w ++ [(n, fresh (dom (Bot.objects w)))]),
     str "Contact added.").
Proof.
  intros Hf Hn Hv. destruct w as [σ data]. unfold Bot.add_contact.
  run_cmd. simpl in Hf. rewrite Hf.
  rewrite Record_new_Return by assumption.
  assert (Ht : truthy phone = true).
  { destruct Hv as [Hl _]. destruct phone; [discriminate Hl|reflexivity]. }
  rewrite Ht. unfold call, AddressBook_add_record.
  rewrite !lookup_total_insert_eq. cbn [name].
  rewrite add_phone_valid by assumption. cbn [fst snd].
  rewrite insert_insert_eq.
  unfold AddressBook_find in Hf. rewrite dict_set_absent by assumption.
  reflexivity.
Qed.

Lemma valid_phone_example2 : valid_phone (str "9876543210").
Proof. apply validate_phone_Return. reflexivity. Defined.

Lemma add_contact_new_witness :
  AddressBook_find (Bot.book john_world) (str "Jane") = None
  /\ str "Jane" <> [] /\ valid_phone (str "9876543210")
  /\ Bot.input_error
       (Bot.add_contact [str "Jane"; str "9876543210"]) john_world
     = (Bot.mk_world
          (<[1%nat := mk_Record (str "Jane") [str "9876543210"] None]>
             (Bot.objects john_world))
          [(str "John", 0%nat); (str "Jane", 1%nat)],
        str "Contact added.").
Proof.
  assert (Hn : str "Jane" <> []) by discriminate.
  split; [reflexivity|]. split; [exact Hn|].
  split; [exact valid_phone_example2|].
  exact (add_contact_new john_world (str "Jane") (str "9876543210") []
           eq_refl Hn valid_phone_example2).
Defined.

(** X18: [add name phone] with the name of a record of the book adds the phone
    to this record, after the phones it has, and answers "Contact
    updated."; the book and the other objects stay as they are. *)
Theorem add_contact_existing (w : Bot.world) (n phone : pystr)
  (rest : list pystr) (record : loc) (r : RecordObj) :
  AddressBook_find (Bot.book w) n = Some record ->
  Bot.objects w !! record = Some r ->
  valid_phone phone ->
  Bot.input_error (Bot.add_contact (n :: phone :: rest)) w
  = (Bot.mk_world
       (<[record := with_phones r (phones r ++ [phone])]> (Bot.objects w))
       (Bot.book w),
     str "Contact updated.").
Proof.
  intros Hf Hr Hv. destruct w as [σ data]. unfold Bot.add_contact.
  run_cmd. simpl in Hf, Hr. rewrite Hf.
  assert (Ht : truthy phone = true).
  { destruct Hv as [Hl _]. destruct phone; [discriminate Hl|reflexivity]. }
  rewrite Ht. unfold call. rewrite (lookup_total_correct _ _ _ Hr).
  rewrite add_phone_valid by assumption. reflexivity.
Qed.

Lemma add_contact_existing_witness :
  AddressBook_find (Bot.book john_world) (str "John") = Some 0%nat
  /\ Bot.objects john_world !! 0%nat
     = Some (mk_Record (str "John") [str "1234567890"] None)
  /\ valid_phone (str "9876543210")
  /\ Bot.input_error
       (Bot.add_contact [str "John"; str "9876543210"]) john_world
     = (Bot.mk_world
          (<[0%nat := mk_Record (str "John")
                        [str "1234567890"; str "9876543210"] None]>
             (Bot.objects john_world))
          (Bot.book john_world),
        str "Contact updated.").
Proof.
  split; [reflexivity|]. split; [reflexivity|].
  split; [exact valid_phone_example2|].
  exact (add_contact_existing john_world (str "John") (str "9876543210") []
           0%nat _ eq_refl eq_refl valid_phone_example2).
Defined.

(** X19: [add name phone] with a new name and a phone [Phone] refuses answers
    the text of the validation error, but the record has been created by
    then: it is in the book afterwards, without any phone. *)
Theorem add_contact_rejected_phone (w : Bot.world) (n phone : pystr)
  (rest : list pystr) :
  AddressBook_find (Bot.book w) n = None -> n <> [] ->
  phone <> [] -> ~ valid_phone phone ->
  Bot.input_error (Bot.add_contact (n :: phone :: rest)) w
  = (Bot.mk_world
       (<[fresh (dom (Bot.objects w)) := mk_Record n [] None]>
          (Bot.objects w))
       (Bot.book w ++ [(n, fresh (dom (Bot.objects w)))]),
     str "Phone number must be 10 digits").
Proof.
  intros Hf Hn Hp Hv. destruct w as [σ data]. unfold Bot.add_contact.
  run_cmd. simpl in Hf. rewrite Hf.
  rewrite Record_new_Return by assumption.
  assert (Ht : truthy phone = true)
    by (destruct phone; [now contradiction Hp|reflexivity]).
  rewrite Ht. unfold call, AddressBook_add_record.
  rewrite !lookup_total_insert_eq. cbn [name].
  rewrite add_phone_invalid by assumption. cbn [fst snd].
  rewrite insert_insert_eq.
  unfold AddressBook_find in Hf. rewrite dict_set_absent by assumption.
  reflexivity.
Qed.

Lemma add_contact_rejected_phone_witness :
  AddressBook_find (Bot.book john_world) (str "Jane") = None
  /\ str "Jane" <> [] /\ str "12" <> [] /\ ~ valid_phone (str "12")
  /\ Bot.input_error (Bot.add_contact [str "Jane"; str "12"]) john_world
     = (Bot.mk_world
          (<[1%nat := mk_Record (str "Jane") [] None]>
             (Bot.objects john_world))
          [(str "John", 0%nat); (str "Jane", 1%nat)],
        str "Phone number must be 10 digits").
Proof.
  assert (Hn : str "Jane" <> []) by discriminate.
  assert (Hp : str "12" <> []) by discriminate.
  assert (Hv : ~ valid_phone (str "12")) by (intros [H _]; discriminate H).
  split; [reflexivity|]. split; [exact Hn|]. split; [exact Hp|].
  split; [exact Hv|].
  exact (add_contact_rejected_phone john_world (str "Jane") (str "12") []
           eq_refl Hn Hp Hv).
Defined.

(** ** The command layer: missing arguments *)

Example not_enough_text_2_1 :
  not_enough_text 2 1
  = str "not enough values to unpack (expected at least 2, got 1)".
Proof. reflexivity. Qed.

(** X20: A command given fewer arguments than its function unpacks answers the
    text of the ValueError of the unpacking and changes nothing: [add] and
    [add-birthday] need two arguments, [change] three, [phone] and
    [show-birthday] one. *)
Theorem too_few_arguments (w : Bot.world) (args : list pystr) :
  ((length args < 2)%nat ->
   Bot.input_error (Bot.add_contact args) w
   = (w, not_enough_text 2 (length args))
   /\ Bot.input_error (Bot.add_birthday args) w
      = (w, not_enough_text 2 (length args)))
  /\ ((length args < 3)%nat ->
      Bot.input_error (Bot.change_contact args) w
      = (w, not_enough_text 3 (length args)))
  /\ ((length args < 1)%nat ->
      Bot.input_error (Bot.show_phone args) w
      = (w, not_enough_text 1 (length args))
      /\ Bot.input_error (Bot.show_birthday args) w
         = (w, not_enough_text 1 (length args))).
Proof.
  split; [|split]; intros H.
  - destruct args as [|a [|b args]]; [| |simpl in H; lia]; split; reflexivity.
  - destruct args as [|a [|b [|c args]]]; [| | |simpl in H; lia]; reflexivity.
  - destruct args as [|a args]; [|simpl in H; lia]. split; reflexivity.
Qed.

(** ** The command layer: [change] *)

(** X21: [change name old new] on a record that holds [old] puts [new] in the
    place of the first [old] and answers "Phone number updated.", whatever
    text [new] is: the new number is not validated. *)
Theorem change_contact_updates (w : Bot.world) (n old new : pystr)
  (rest : list pystr) (record : loc) (r : RecordObj) (l1 l2 : list pystr) :
  AddressBook_find (Bot.book w) n = Some record ->
  Bot.objects w !! record = Some r ->
  phones r = l1 ++ old :: l2 -> ~ In old l1 ->
  Bot.input_error (Bot.change_contact (n :: old :: new :: rest)) w
  = (Bot.mk_world
       (<[record := with_phones r (l1 ++ new :: l2)]> (Bot.objects w))
       (Bot.book w),
     str "Phone number updated.").
Proof.
  intros Hf Hr Hp Hn. destruct w as [σ data]. unfold Bot.change_contact.
  run_cmd. simpl in Hf, Hr. rewrite Hf.
  unfold call. rewrite (lookup_total_correct _ _ _ Hr).
  rewrite (edit_phone_first_match r l1 l2 old new Hp Hn). reflexivity.
Qed.

Lemma change_contact_updates_witness :
  AddressBook_find (Bot.book john_world) (str "John") = Some 0%nat
  /\ Bot.objects john_world !! 0%nat
     = Some (mk_Record (str "John") [str "1234567890"] None)
  /\ phones (mk_Record (str "John") [str "1234567890"] None)
     = [] ++ str "1234567890" :: []
  /\ ~ In (str "1234567890") []
  /\ Bot.input_error
       (Bot.change_contact [str "John"; str "1234567890"; str "abc"])
       john_world
     = (Bot.mk_world
          (<[0%nat := mk_Record (str "John") [str "abc"] None]>
             (Bot.objects john_world))
          (Bot.book john_world),
        str "Phone number updated.").
Proof.
  assert (Hn : ~ In (str "1234567890") []) by (intros []).
  split; [reflexivity|]. split; [reflexivity|]. split; [reflexivity|].
  split; [exact Hn|].
  exact (change_contact_updates john_world (str "John") (str "1234567890")
           (str "abc") [] 0%nat _ [] [] eq_refl eq_refl eq_refl Hn).
Defined.

(** X22: [change name old new] answers "Contact not found or phone number not
    found." and changes nothing when the book has no record of this name,
    and when the record does not hold [old]. *)
Theorem change_contact_not_found (w : Bot.world) (n old new : pystr)
  (rest : list pystr) :
  AddressBook_find (Bot.book w) n = None
  \/ (exists record r,
         AddressBook_find (Bot.book w) n = Some record
         /\ Bot.objects w !! record = Some r /\ ~ In old (phones r)) ->
  Bot.input_error (Bot.change_contact (n :: old :: new :: rest)) w
  = (w, str "Contact not found or phone number not found.").
Proof.
  intros H. destruct w as [σ data]. unfold Bot.change_contact. run_cmd.
  simpl in H. destruct H as [Hf|(record & r & Hf & Hr & Hn)]; rewrite Hf;
    [reflexivity|].
  unfold call. rewrite (lookup_total_correct _ _ _ Hr).
  rewrite (edit_phone_no_match r old new Hn).
  now rewrite insert_id.
Qed.

Lemma change_contact_not_found_witness :
  (AddressBook_find (Bot.book john_world) (str "John") = None
   \/ (exists record r,
          AddressBook_find (Bot.book john_world) (str "John") = Some record
          /\ Bot.objects john_world !! record = Some r
          /\ ~ In (str "0000000000") (phones r)))
  /\ Bot.input_error
       (Bot.change_contact [str "John"; str "0000000000"; str "1112223333"])
       john_world
     = (john_world, str "Contact not found or phone number not found.").
Proof.
  assert (H : AddressBook_find (Bot.book john_world) (str "John") = None
              \/ (exists record r,
                     AddressBook_find (Bot.book john_world) (str "John")
                     = Some record
                     /\ Bot.objects john_world !! record = Some r
                     /\ ~ In (str "0000000000") (phones r))).
  { right. exists 0%nat, (mk_Record (str "John") [str "1234567890"] None).
    split; [reflexivity|]. split; [reflexivity|].
    intros [H|[]]. discriminate H. }
  split; [exact H|].
  exact (change_contact_not_found john_world (str "John") (str "0000000000")
           (str "1112223333") [] H).
Defined.

(** ** The command layer: [add-birthday], [show-birthday], [birthdays] *)

Lemma add_birthday_command_eq (w : Bot.world) (n text : pystr)
  (rest : list pystr) (record : loc) (r : RecordObj) :
  AddressBook_find (Bot.book w) n = Some record ->
  Bot.objects w !! record = Some r ->
  Bot.input_error (Bot.add_birthday (n :: text :: rest)) w
  = match Birthday text with
    | Return b =>
        (Bot.mk_world
           (<[record := mk_Record (name r) (phones r) (Some b)]>
              (Bot.objects w))
           (Bot.book w),
         str "Birthday added for " ++ n ++ str ".")
    | Raise _ => (w, str "Invalid date format. Use DD.MM.YYYY")
    end.
Proof.
  intros Hf Hr. destruct w as [σ data]. unfold Bot.add_birthday.
  run_cmd. simpl in Hf, Hr. rewrite Hf.
  unfold call. rewrite (lookup_total_correct _ _ _ Hr).
  rewrite Record_add_birthday_eq.
  destruct (Birthday text) as [b|e] eqn:E; [reflexivity|].
  apply Birthday_Raise in E as ->. now rewrite insert_id.
Qed.


(** X23: [add-birthday name text] on a record of the book stores the date
    [Birthday] reads from the text and answers "Birthday added for name.",
    or, when [Birthday] refuses the text, answers the text of the
    validation error and changes nothing. *)
Theorem add_birthday_command (w : Bot.world) (n text : pystr)
  (rest : list pystr) (record : loc) (r : RecordObj) :
  AddressBook_find (Bot.book w) n = Some record ->
  Bot.objects w !! record = Some r ->
  Bot.input_error (Bot.add_birthday (n :: text :: rest)) w
  = match Birthday text with
    | Return b =>
        (Bot.mk_world
           (<[record := mk_Record (name r) (phones r) (Some b)]>
              (Bot.objects w))
           (Bot.book w),
         str "Birthday added for " ++ n ++ str ".")
    | Raise _ => (w, str "Invalid date format. Use DD.MM.YYYY")
    end.
Proof. apply add_birthday_command_eq. Qed.

Lemma add_birthday_command_witness :
  AddressBook_find (Bot.book john_world) (str "John") = Some 0%nat
  /\ Bot.objects john_world !! 0%nat
     = Some (mk_Record (str "John") [str "1234567890"] None)
  /\ Bot.input_error
       (Bot.add_birthday [str "John"; str "31.02.1990"]) john_world
     = (john_world, str "Invalid date format. Use DD.MM.YYYY").
Proof.
  split; [reflexivity|]. split; [reflexivity|].
  exact (add_birthday_command john_world (str "John") (str "31.02.1990") []
           0%nat _ eq_refl eq_refl).
Defined.

(** X24: After [add-birthday name text] has stored a date, [show-birthday name]
    answers with this date as [strftime] prints it: day and month in two
    digits each, whatever the text was. *)
Theorem add_birthday_then_show_birthday (w : Bot.world) (n text : pystr)
  (rest rest' : list pystr) (record : loc) (r : RecordObj)
  (b : Datetime.datetime) :
  AddressBook_find (Bot.book w) n = Some record ->
  Bot.objects w !! record = Some r ->
  Birthday text = Return b ->
  let w1 := fst (Bot.input_error (Bot.add_birthday (n :: text :: rest)) w) in
  Bot.input_error (Bot.show_birthday (n :: rest')) w1
  = (w1, n ++ str "'s birthday is on " ++ strftime_dmY b ++ str ".").
Proof.
  intros Hf Hr Hb w1. subst w1.
  rewrite (add_birthday_command_eq w n text rest record r Hf Hr), Hb.
  destruct w as [σ data]. simpl in Hf.
  cbn [fst]. unfold Bot.show_birthday. run_cmd.
  rewrite Hf. rewrite lookup_total_insert_eq. reflexivity.
Qed.

Lemma add_birthday_then_show_birthday_witness :
  AddressBook_find (Bot.book john_world) (str "John") = Some 0%nat
  /\ Bot.objects john_world !! 0%nat
     = Some (mk_Record (str "John") [str "1234567890"] None)
  /\ Birthday (str "5.1.1990") = Return (Datetime.mk_datetime 1990 1 5 0 0 0 0)
  /\ snd (Bot.input_error (Bot.show_birthday [str "John"])
            (fst (Bot.input_error
                    (Bot.add_birthday [str "John"; str "5.1.1990"])
                    john_world)))
     = str "John's birthday is on 05.01.1990.".
Proof.
  assert (Hb : Birthday (str "5.1.1990")
               = Return (Datetime.mk_datetime 1990 1 5 0 0 0 0))
    by (vm_compute; reflexivity).
  split; [reflexivity|]. split; [reflexivity|]. split; [exact Hb|].
  exact (f_equal snd
           (add_birthday_then_show_birthday john_world (str "John")
              (str "5.1.1990") [] [] 0%nat _ _ eq_refl eq_refl Hb)).
Defined.

Lemma upcoming_loop_leap_day today next_week σ records :
  1 <= Datetime.year today <= 9999 ->
  Datetime.is_leap (Datetime.year today) = false ->
  (forall record, In record records -> birthday_stored (σ !!! record)) ->
  (exists record b,
      In record records /\ birthday (σ !!! record) = Some b
      /\ Datetime.month b = 2 /\ Datetime.day b = 29) ->
  forall acc,
    upcoming_loop today next_week σ records acc
    = Raise (ValueError "day is out of range for month").
Proof.
  intros Hy Hleap. induction records as [|r0 records IH];
    intros Hstored (record & b & Hin & Hb & Hm & Hd) acc;
    [destruct Hin|].
  assert (Hrest : (exists record b,
                      In record records /\ birthday (σ !!! record) = Some b
                      /\ Datetime.month b = 2 /\ Datetime.day b = 29) ->
                  forall acc',
                    upcoming_loop today next_week σ records acc'
                    = Raise (ValueError "day is out of range for month")).
  { intros H. apply IH; [|exact H]. intros x Hx. apply Hstored. now right. }
  simpl. destruct (birthday (σ !!! r0)) as [b0|] eqn:E0.
  - destruct (Hstored r0 (or_introl eq_refl) b0 E0) as [text Ht].
    unfold in_window.
    rewrite (replace_year_of_Birthday text b0 _ Ht Hy), Hleap.
    destruct ((Datetime.month b0 =? 2) && (Datetime.day b0 =? 29)) eqn:Ec;
      cbn [andb negb mbind result_bind]; [reflexivity|].
    assert (Hne : record <> r0).
    { intros ->. rewrite E0 in Hb. injection Hb as ->.
      rewrite Hm, Hd in Ec. discriminate Ec. }
    destruct Hin as [Hin|Hin]; [congruence|]. clear Ec.
    destruct (Datetime.le _ _ && Datetime.lt _ _); apply Hrest;
      now exists record, b.
  - destruct Hin as [Hin|Hin]; [subst r0; congruence|].
    apply Hrest. now exists record, b.
Qed.

(** X25: [birthdays], in a year that is not a leap year and with a birthday on
    29 February stored in the book, answers the text of the ValueError of
    the date library, whatever other birthdays are upcoming, and changes
    nothing. *)
Theorem birthdays_command_on_leap_day (now : Datetime.datetime)
  (w : Bot.world) (args : list pystr) :
  Datetime.valid now ->
  Datetime.toordinal now + 7 <= Datetime.MAXORDINAL ->
  Datetime.is_leap (Datetime.year now) = false ->
  (forall record, In record (dict_values (Bot.book w)) ->
                  birthday_stored (Bot.objects w !!! record)) ->
  (exists record b,
      In record (dict_values (Bot.book w))
      /\ birthday (Bot.objects w !!! record) = Some b
      /\ Datetime.month b = 2 /\ Datetime.day b = 29) ->
  Bot.input_error (Bot.birthdays now args) w
  = (w, str "day is out of range for month").
Proof.
  intros Hv Hmax Hleap Hstored Hex.
  destruct (add_days_7_exists now Hv Hmax) as [next_week Hw].
  pose proof (valid_fields _ Hv) as (Hy & _).
  unfold Bot.birthdays. run_cmd. unfold get_upcoming_birthdays.
  rewrite Hw. cbn [mbind result_bind].
  now rewrite (upcoming_loop_leap_day now next_week _ _ Hy Hleap Hstored Hex).
Qed.

Lemma birthdays_command_on_leap_day_witness :
  let now := Datetime.mk_datetime 2027 11 14 9 30 0 0 in
  let w := Bot.mk_world leap_store leap_data in
  Datetime.valid now
  /\ Datetime.toordinal now + 7 <= Datetime.MAXORDINAL
  /\ Datetime.is_leap (Datetime.year now) = false
  /\ (forall record, In record (dict_values (Bot.book w)) ->
                     birthday_stored (Bot.objects w !!! record))
  /\ (exists record b,
         In record (dict_values (Bot.book w))
         /\ birthday (Bot.objects w !!! record) = Some b
         /\ Datetime.month b = 2 /\ Datetime.day b = 29)
  /\ Bot.input_error (Bot.birthdays now []) w
     = (w, str "day is out of range for month").
Proof.
  intros now w.
  assert (Hv : Datetime.valid now) by reflexivity.
  assert (Hmax : Datetime.toordinal now + 7 <= Datetime.MAXORDINAL)
    by (vm_compute; discriminate).
  assert (Hex : exists record b,
             In record (dict_values (Bot.book w))
             /\ birthday (Bot.objects w !!! record) = Some b
             /\ Datetime.month b = 2 /\ Datetime.day b = 29).
  { exists 0%nat, (Datetime.mk_datetime 2000 2 29 0 0 0 0).
    split; [now left|]. repeat split. }
  split; [exact Hv|]. split; [exact Hmax|]. split; [reflexivity|].
  split; [exact leap_store_stored|]. split; [exact Hex|].
  exact (birthdays_command_on_leap_day now w [] Hv Hmax eq_refl
           leap_store_stored Hex).
Defined.

(** ** The loop of [main] *)

(** X26: A turn of the loop raises exactly on a line without any word - an empty
    line or a line of white characters: the unpacking of the parsed line
    raises its ValueError outside every decorated function, so the
    exception leaves [main]. On every other line the turn prints a text. *)
Theorem main_turn_raises_iff_blank (now : Datetime.datetime)
  (user_input : pystr) (w : Bot.world) :
  (List.Forall white user_input ->
   Bot.main_turn now user_input w
   = (w, Raise (ValueError
                  "not enough values to unpack (expected at least 1, got 0)")))
  /\ (~ List.Forall white user_input ->
      exists w' t, Bot.main_turn now user_input w = (w', Return t)).
Proof.
  split; intros H.
  - apply parse_input_nil in H. unfold Bot.main_turn. now rewrite H.
  - rewrite <- parse_input_nil in H. unfold Bot.main_turn.
    destruct (Bot.parse_input user_input) as [|command args]; [congruence|].
    repeat match goal with
           | |- context [if ?b then _ else _] => destruct b
           end; eauto.
Qed.

Lemma command_is_true command literal :
  Bot.command_is command literal = true -> command = str literal.
Proof. unfold Bot.command_is. apply bool_decide_eq_true_1. Qed.

Lemma main_loop_app lines1 lines2 w :
  main_loop_after lines1 lines2 w.
Proof.
  revert w. induction lines1 as [|[now line] lines1 IH]; intros w.
  - unfold main_loop_after. simpl. now destruct (Bot.main_loop lines2 w)
      as [[texts w'] e].
  - unfold main_loop_after in *. simpl.
    destruct (Bot.main_turn now line w) as [w1 [[text|text]|e]];
      [|reflexivity|reflexivity].
    specialize (IH w1).
    destruct (Bot.main_loop lines1 w1) as [[texts1 w2] [| |]];
      destruct (Bot.main_loop (lines1 ++ lines2) w1) as [[texts w3] e3];
      try (injection IH as -> -> ->; reflexivity).
    destruct (Bot.main_loop lines2 w2) as [[texts2 w4] e4].
    injection IH as -> -> ->. reflexivity.
Qed.

(** X27: Once a line whose first word is [close] or [exit] has been read, after
    lines that neither ended the loop nor raised, "Good bye!" is the last
    text printed and the lines after it are not read: they change neither
    the texts nor the world. *)
Theorem main_stops_at_exit (lines rest : list (Datetime.datetime * pystr))
  (now : Datetime.datetime) (line command : pystr) (args : list pystr)
  (w w' : Bot.world) (texts : list pystr) :
  Bot.parse_input line = command :: args ->
  command = str "close" \/ command = str "exit" ->
  Bot.main_loop lines w = (texts, w', Bot.Waiting) ->
  Bot.main_loop (lines ++ (now, line) :: rest) w
  = (texts ++ [str "Good bye!"], w', Bot.Left_loop).
Proof.
  intros Hp Hc Hl. pose proof (main_loop_app lines ((now, line) :: rest) w)
    as H.
  unfold main_loop_after in H. rewrite Hl in H.
  assert (Ht : Bot.main_turn now line w'
               = (w', Return (Bot.Good_bye (str "Good bye!")))).
  { unfold Bot.main_turn. rewrite Hp.
    destruct Hc as [-> | ->]; reflexivity. }
  simpl in H. rewrite Ht in H. exact H.
Qed.

Lemma main_stops_at_exit_witness :
  let now := Datetime.mk_datetime 2024 11 14 10 30 0 0 in
  Bot.parse_input (str "exit now") = str "exit" :: [str "now"]
  /\ (str "exit" = str "close" \/ str "exit" = str "exit")
  /\ Bot.main_loop [(now, str "hello")] (Bot.mk_world ∅ [])
     = ([str "How can I help you?"], Bot.mk_world ∅ [], Bot.Waiting)
  /\ Bot.main_loop ([(now, str "hello")] ++ (now, str "exit now")
                    :: [(now, str "add John 1234567890")])
       (Bot.mk_world ∅ [])
     = ([str "How can I help you?"] ++ [str "Good bye!"],
        Bot.mk_world ∅ [], Bot.Left_loop).
Proof.
  intros now.
  assert (Hc : str "exit" = str "close" \/ str "exit" = str "exit")
    by now right.
  split; [reflexivity|]. split; [exact Hc|]. split; [reflexivity|].
  exact (main_stops_at_exit [(now, str "hello")]
           [(now, str "add John 1234567890")] now (str "exit now")
           (str "exit") [str "now"] _ _ _ eq_refl Hc eq_refl).
Defined.

Lemma read_only_commands w :
  (forall args, fst (Bot.input_error (Bot.show_phone args) w) = w)
  /\ fst (Bot.input_error Bot.show_all_contacts w) = w
  /\ (forall args, fst (Bot.input_error (Bot.show_birthday args) w) = w)
  /\ (forall now args, fst (Bot.input_error (Bot.birthdays now args) w) = w).
Proof.
  split; [|split; [|split]].
  - intros args. unfold Bot.show_phone. run_cmd.
    destruct args as [|n args]; [reflexivity|].
    now destruct (AddressBook_find _ n).
  - reflexivity.
  - intros args. unfold Bot.show_birthday. run_cmd.
    destruct args as [|n args]; [reflexivity|].
    destruct (AddressBook_find _ n); [|reflexivity].
    now destruct (birthday _).
  - intros now args. unfold Bot.birthdays. run_cmd.
    destruct (get_upcoming_birthdays _ _ _) as [names|[msg|msg]];
      [|reflexivity|reflexivity].
    now destruct (negb _).
Qed.

(** X28: Only [add], [change] and [add-birthday] change the world: a turn on a
    line with any other first word - or with none - leaves it as it is. *)
Theorem only_three_commands_change_the_world (now : Datetime.datetime)
  (user_input : pystr) (w : Bot.world) :
  fst (Bot.main_turn now user_input w) <> w ->
  exists command args,
    Bot.parse_input user_input = command :: args
    /\ (command = str "add" \/ command = str "change"
        \/ command = str "add-birthday").
Proof.
  destruct (read_only_commands w) as (Hp & Ha & Hs & Hb).
  unfold Bot.main_turn.
  destruct (Bot.parse_input user_input) as [|command args];
    [intros H; now contradiction H|].
  intros H. exists command, args. split; [reflexivity|]. revert H.
  destruct (_ || _); [intros H; now contradiction H|].
  destruct (Bot.command_is command "hello");
    [intros H; now contradiction H|].
  destruct (Bot.command_is command "add") eqn:E1;
    [intros _; left; now apply command_is_true|].
  destruct (Bot.command_is command "change") eqn:E2;
    [intros _; right; left; now apply command_is_true|].
  destruct (Bot.command_is command "phone");
    [intros H; contradiction H; apply Hp|].
  destruct (Bot.command_is command "all");
    [intros H; contradiction H; apply Ha|].
  destruct (Bot.command_is command "add-birthday") eqn:E3;
    [intros _; right; right; now apply command_is_true|].
  destruct (Bot.command_is command "show-birthday");
    [intros H; contradiction H; apply Hs|].
  destruct (Bot.command_is command "birthdays");
    [intros H; contradiction H; apply Hb|].
  intros H. now contradiction H.
Qed.

Lemma only_three_commands_change_the_world_witness :
  let now := Datetime.mk_datetime 2024 11 14 10 30 0 0 in
  fst (Bot.main_turn now (str "add Jane 9876543210") john_world)
  <> john_world
  /\ exists command args,
       Bot.parse_input (str "add Jane 9876543210") = command :: args
       /\ (command = str "add" \/ command = str "change"
           \/ command = str "add-birthday").
Proof.
  intros now.
  assert (H : fst (Bot.main_turn now (str "add Jane 9876543210") john_world)
              <> john_world).
  { intros E. apply (f_equal Bot.book) in E. vm_compute in E.
    discriminate E. }
  split; [exact H|].
  exact (only_three_commands_change_the_world now
           (str "add Jane 9876543210") john_world H).
Defined.

(** ** The command layer keeps the book in order *)

Lemma input_error_world func w :
  fst (Bot.input_error func w) = fst (func w).
Proof.
  unfold Bot.input_error. now destruct (func w) as [w' [text|[msg|msg]]].
Qed.

Lemma on_record_keeps_book_ok {A} (m : method A) record w :
  (forall self, name (fst (m self)) = name self) ->
  world_ok w -> world_ok (fst (Bot.on_record record m w)).
Proof.
  intros Hm Hok. unfold world_ok, Bot.on_record in *.
  pose proof (book_ok_call (Bot.objects w) (Bot.book w) record m Hm Hok) as H.
  now destruct (call record m (Bot.objects w)) as [σ' res].
Qed.

Lemma add_phone_keeps_name s self :
  name (fst (Record_add_phone s self)) = name self.
Proof. exact (run_op_keeps_name (add_phone s) self). Qed.

Lemma edit_phone_keeps_name old new self :
  name (fst (Record_edit_phone old new self)) = name self.
Proof. exact (run_op_keeps_name (edit_phone old new) self). Qed.

Lemma add_birthday_keeps_name text self :
  name (fst (Record_add_birthday text self)) = name self.
Proof. exact (run_op_keeps_name (add_birthday text) self). Qed.

Lemma add_contact_keeps_book_ok args w :
  world_ok w -> world_ok (fst (Bot.add_contact args w)).
Proof.
  intros Hok. destruct args as [|n [|phone rest]]; [exact Hok|exact Hok|].
  assert (Hphone : forall record w1,
             world_ok w1 ->
             world_ok
               (fst ((if truthy phone
                      then Bot.on_record record (Record_add_phone phone)
                      else mret tt) w1))).
  { intros record w1 H1. destruct (truthy phone); [|exact H1].
    apply on_record_keeps_book_ok; [apply add_phone_keeps_name|exact H1]. }
  unfold Bot.add_contact.
  cbv [mbind mret Bot.cmd_bind Bot.cmd_ret Bot.lift Bot.find Bot.unpack2].
  destruct (AddressBook_find (Bot.book w) n) as [record|] eqn:Ef.
  - specialize (Hphone record w Hok).
    cbv [mret Bot.cmd_ret] in Hphone.
    destruct ((if truthy phone
               then Bot.on_record record (Record_add_phone phone)
               else fun w0 => (w0, Return tt)) w) as [w1 [[]|e]];
      exact Hphone.
  - unfold Bot.new_Record, Bot.add_record.
    destruct (Record_new n (Bot.objects w)) as [σ1 [l|e]] eqn:En;
      [|unfold Record_new in En; destruct (Record_init n);
        [discriminate|]; injection En as <- _; now destruct w].
    destruct (book_ok_Record_new _ _ (Bot.book w) _ _ En Hok)
      as (Hok1 & _ & Hl).
    cbn [Bot.objects Bot.book].
    assert (Hok2 : world_ok
                     (Bot.mk_world σ1
                        (AddressBook_add_record σ1 (Bot.book w) l)))
      by now apply book_ok_add_record.
    specialize (Hphone l _ Hok2). cbv [mret Bot.cmd_ret] in Hphone.
    destruct ((if truthy phone
               then Bot.on_record l (Record_add_phone phone)
               else fun w0 => (w0, Return tt))
                (Bot.mk_world σ1 (AddressBook_add_record σ1 (Bot.book w) l)))
      as [w1 [[]|e]]; exact Hphone.
Qed.

Lemma change_contact_keeps_book_ok args w :
  world_ok w -> world_ok (fst (Bot.change_contact args w)).
Proof.
  intros Hok. destruct args as [|n [|old [|new rest]]]; try exact Hok.
  unfold Bot.change_contact.
  cbv [mbind mret Bot.cmd_bind Bot.cmd_ret Bot.lift Bot.find Bot.unpack3].
  destruct (AddressBook_find (Bot.book w) n) as [record|]; [|exact Hok].
  pose proof (on_record_keeps_book_ok (Record_edit_phone old new) record w
                (edit_phone_keeps_name old new) Hok) as H.
  destruct (Bot.on_record record (Record_edit_phone old new) w)
    as [w1 [[|]|e]]; exact H.
Qed.

Lemma add_birthday_keeps_book_ok args w :
  world_ok w -> world_ok (fst (Bot.add_birthday args w)).
Proof.
  intros Hok. destruct args as [|n [|text rest]]; try exact Hok.
  unfold Bot.add_birthday.
  cbv [mbind mret Bot.cmd_bind Bot.cmd_ret Bot.lift Bot.find Bot.unpack2].
  destruct (AddressBook_find (Bot.book w) n) as [record|]; [|exact Hok].
  pose proof (on_record_keeps_book_ok (Record_add_birthday text) record w
                (add_birthday_keeps_name text) Hok) as H.
  destruct (Bot.on_record record (Record_add_birthday text) w)
    as [w1 [[]|e]]; exact H.
Qed.

Lemma main_turn_keeps_book_ok now user_input w :
  world_ok w -> world_ok (fst (Bot.main_turn now user_input w)).
Proof.
  intros Hok. destruct (read_only_commands w) as (Hp & Ha & Hs & Hb).
  unfold Bot.main_turn.
  destruct (Bot.parse_input user_input) as [|command args]; [exact Hok|].
  repeat match goal with
         | |- context [if ?b then _ else _] => destruct b
         end; cbn [fst]; try exact Hok;
    rewrite ?Hp, ?Ha, ?Hs, ?Hb; try exact Hok;
    rewrite input_error_world.
  - now apply add_contact_keeps_book_ok.
  - now apply change_contact_keeps_book_ok.
  - now apply add_birthday_keeps_book_ok.
Qed.

Lemma main_loop_keeps_book_ok lines :
  forall w, world_ok w -> world_ok (snd (fst (Bot.main_loop lines w))).
Proof.
  induction lines as [|[now line] lines IH]; intros w Hok; [exact Hok|].
  simpl. pose proof (main_turn_keeps_book_ok now line w Hok) as H.
  destruct (Bot.main_turn now line w) as [w1 [[text|text]|e]];
    [|exact H|exact H].
  specialize (IH w1 H).
  now destruct (Bot.main_loop lines w1) as [[texts w2] e].
Qed.

(** X29: Whatever lines [main] reads, the book it has built is in order: its
    keys are unique, each key is the name of the record it leads to, and
    each entry refers to an object. *)
Theorem main_keeps_the_book_in_order
  (lines : list (Datetime.datetime * pystr)) :
  world_ok (snd (fst (Bot.main lines))).
Proof.
  unfold Bot.main.
  pose proof (main_loop_keeps_book_ok lines (Bot.mk_world ∅ [])
                (book_ok_empty ∅)) as H.
  now destruct (Bot.main_loop lines (Bot.mk_world ∅ [])) as [[texts w] e].
Qed.

(** ** The display of the book *)

Lemma newlines_app a b : newlines (a ++ b) = (newlines a + newlines b)%nat.
Proof. unfold newlines. now rewrite List.filter_app, length_app. Qed.

Lemma newlines_none s :
  List.Forall (fun c => c <> newline) s -> newlines s = 0%nat.
Proof.
  unfold newlines. induction 1 as [|c s Hc _ IH]; [reflexivity|]. simpl.
  destruct (Z.eqb_spec c newline); [contradiction|assumption].
Qed.

Lemma token_no_newline t :
  List.Forall (fun c => isspace_char c = false) t -> newlines t = 0%nat.
Proof.
  intros H. apply newlines_none. eapply List.Forall_impl; [|exact H].
  intros c Hc ->. discriminate Hc.
Qed.

Lemma newlines_join_none sep l :
  newlines sep = 0%nat -> List.Forall (fun t => newlines t = 0%nat) l ->
  newlines (str_join sep l) = 0%nat.
Proof.
  intros Hsep. induction 1 as [|x l Hx Hl IH]; [reflexivity|].
  destruct l as [|y l]; [exact Hx|].
  change (str_join sep (x :: y :: l)) with (x ++ sep ++ str_join sep (y :: l)).
  rewrite !newlines_app, Hx, Hsep, IH. reflexivity.
Qed.

Lemma newlines_join_lines l :
  List.Forall (fun t => newlines t = 0%nat) l ->
  newlines (str_join [newline] l) = (length l - 1)%nat.
Proof.
  induction 1 as [|x l Hx Hl IH]; [reflexivity|].
  destruct l as [|y l]; [simpl; rewrite Hx; reflexivity|].
  change (str_join [newline] (x :: y :: l))
    with (x ++ [newline] ++ str_join [newline] (y :: l)).
  rewrite !newlines_app, Hx, IH. simpl. lia.
Qed.

Lemma strftime_no_newline b :
  Datetime.valid b -> newlines (strftime_dmY b) = 0%nat.
Proof.
  intros Hv. apply valid_fields in Hv as (Hy & Hm & Hd & _).
  assert (Hd31 : Datetime.day b <= 31).
  { revert Hd. unfold Datetime.days_in_month.
    destruct (_ && _); [lia|].
    generalize dependent (Datetime.month b). intros m Hm.
    twelve_cases m; simpl; lia. }
  apply newlines_none. unfold strftime_dmY, two_digits, year_digits.
  repeat match goal with
         | |- context [?x <? ?y] => destruct (Z.ltb_spec x y)
         end;
    cbn [app]; unfold Strptime.dot, newline;
    repeat (apply List.Forall_cons; [Z.div_mod_to_equations; lia|]);
    apply List.Forall_nil.
Qed.

Lemma Record_str_one_line r :
  record_clean r -> newlines (Record_str r) = 0%nat.
Proof.
  intros ((_ & Hn) & Hp & Hb). unfold Record_str.
  rewrite !newlines_app, (token_no_newline _ Hn).
  rewrite newlines_join_none;
    [|reflexivity
     |eapply List.Forall_impl; [|exact Hp];
      intros t [_ Ht]; now apply token_no_newline].
  destruct (birthday r) as [b|] eqn:Eb; [|reflexivity].
  destruct (Hb b Eb) as [text Ht].
  apply Birthday_Return in Ht as [Hv _].
  rewrite newlines_app, (strftime_no_newline b Hv). reflexivity.
Qed.

(** The display of a book whose records hold words only has one line for
    each entry of the book. *)
Lemma AddressBook_str_lines w :
  world_ok w -> world_clean w ->
  newlines (AddressBook_str (Bot.objects w) (Bot.book w))
  = (length (Bot.book w) - 1)%nat.
Proof.
  intros [_ Hname] Hclean. unfold AddressBook_str.
  rewrite newlines_join_lines.
  - unfold dict_values. now rewrite !length_map.
  - apply List.Forall_forall. intros t Ht.
    apply in_map_iff in Ht as (record & <- & Hin).
    unfold dict_values in Hin. apply in_map_iff in Hin as ([k l] & <- & Hin).
    destruct (Hname k l Hin) as (r & Hr & _). simpl.
    rewrite (lookup_total_correct _ _ _ Hr).
    apply Record_str_one_line. exact (Hclean l r Hr).
Qed.

Lemma find_allocated w n record :
  world_ok w -> AddressBook_find (Bot.book w) n = Some record ->
  is_Some (Bot.objects w !! record).
Proof.
  intros [_ Hname] Hf. apply dict_get_Some in Hf.
  destruct (Hname n record Hf) as (r & Hr & _). eauto.
Qed.

Lemma on_record_keeps_clean {A} (m : method A) record w :
  is_Some (Bot.objects w !! record) ->
  (forall self, record_clean self -> record_clean (fst (m self))) ->
  world_clean w -> world_clean (fst (Bot.on_record record m w)).
Proof.
  intros [r Hr] Hm Hclean. unfold Bot.on_record, call.
  rewrite (lookup_total_correct _ _ _ Hr).
  specialize (Hm r (Hclean record r Hr)).
  destruct (m r) as [r' res]. simpl in Hm.
  unfold world_clean. cbn [fst Bot.objects].
  intros l r0. destruct (decide (record = l)) as [->|Hne].
  - rewrite lookup_insert_eq. now intros [= <-].
  - rewrite lookup_insert_ne by assumption. apply Hclean.
Qed.

Lemma add_phone_keeps_clean s self :
  token s -> record_clean self ->
  record_clean (fst (Record_add_phone s self)).
Proof.
  intros Hs (Hn & Hp & Hb). rewrite Record_add_phone_eq.
  destruct (Phone s) as [phone|e] eqn:E;
    [|exact (conj Hn (conj Hp Hb))].
  assert (phone = s) as ->.
  { unfold Phone in E. destruct (validate_phone s); [|discriminate].
    now injection E. }
  split; [exact Hn|]. split; [|exact Hb]. cbn [fst phones with_phones].
  apply List.Forall_app. split; [exact Hp|].
  apply List.Forall_cons; [exact Hs|apply List.Forall_nil].
Qed.

Lemma edit_phone_keeps_clean old new self :
  token new -> record_clean self ->
  record_clean (fst (Record_edit_phone old new self)).
Proof.
  intros Hs (Hn & Hp & Hb). rewrite Record_edit_phone_eq.
  split; [exact Hn|]. split; [|exact Hb]. cbn [fst phones with_phones].
  apply List.Forall_forall. intros p Hin.
  apply edit_phone_loop_members in Hin as [->|Hin]; [exact Hs|].
  rewrite List.Forall_forall in Hp. now apply Hp.
Qed.

Lemma add_birthday_keeps_clean text self :
  record_clean self -> record_clean (fst (Record_add_birthday text self)).
Proof.
  intros (Hn & Hp & Hb).
  pose proof (run_op_keeps_birthday_stored (add_birthday text) self Hb) as H.
  simpl in H. rewrite Record_add_birthday_eq in *.
  destruct (Birthday text); exact (conj Hn (conj Hp H)).
Qed.

Lemma add_contact_keeps_clean args w :
  List.Forall token args -> world_ok w -> world_clean w ->
  world_clean (fst (Bot.add_contact args w)).
Proof.
  intros Hargs Hok Hclean.
  destruct args as [|n [|phone rest]]; [exact Hclean|exact Hclean|].
  inversion Hargs as [|? ? Hn Hargs']; subst.
  inversion Hargs' as [|? ? Hphone _]; subst.
  assert (Hadd : forall record w1,
             is_Some (Bot.objects w1 !! record) -> world_clean w1 ->
             world_clean
               (fst ((if truthy phone
                      then Bot.on_record record (Record_add_phone phone)
                      else mret tt) w1))).
  { intros record w1 Hr H1. destruct (truthy phone); [|exact H1].
    apply on_record_keeps_clean; [exact Hr| |exact H1].
    intros self. now apply add_phone_keeps_clean. }
  unfold Bot.add_contact.
  cbv [mbind mret Bot.cmd_bind Bot.cmd_ret Bot.lift Bot.find Bot.unpack2].
  destruct (AddressBook_find (Bot.book w) n) as [record|] eqn:Ef.
  - specialize (Hadd record w (find_allocated w n record Hok Ef) Hclean).
    cbv [mret Bot.cmd_ret] in Hadd.
    destruct ((if truthy phone
               then Bot.on_record record (Record_add_phone phone)
               else fun w0 => (w0, Return tt)) w) as [w1 [[]|e]];
      exact Hadd.
  - unfold Bot.new_Record, Bot.add_record.
    destruct (Record_new n (Bot.objects w)) as [σ1 [l|e]] eqn:En;
      [|unfold Record_new in En; destruct (Record_init n);
        [discriminate|]; injection En as <- _; now destruct w].
    cbn [Bot.objects Bot.book].
    assert (Hnew : world_clean
                     (Bot.mk_world σ1
                        (AddressBook_add_record σ1 (Bot.book w) l))
                   /\ is_Some (σ1 !! l)).
    { unfold Record_new in En.
      destruct (Record_init n) as [r|] eqn:Er; [|discriminate].
      injection En as <- <-. split; [|rewrite lookup_insert_eq; eauto].
      intros l0 r0. cbn [Bot.objects].
      destruct (decide (fresh (dom (Bot.objects w)) = l0)) as [<-|Hne].
      - rewrite lookup_insert_eq. intros [= <-].
        unfold Record_init, Name in Er.
        destruct (truthy n); [|discriminate]. injection Er as <-.
        split; [exact Hn|].
        split; [constructor|intros b Hb; discriminate Hb].
      - rewrite lookup_insert_ne by assumption. apply Hclean. }
    destruct Hnew as [Hc1 Hl1].
    specialize (Hadd l (Bot.mk_world σ1
                          (AddressBook_add_record σ1 (Bot.book w) l))
                  Hl1 Hc1).
    cbv [mret Bot.cmd_ret] in Hadd.
    destruct ((if truthy phone
               then Bot.on_record l (Record_add_phone phone)
               else fun w0 => (w0, Return tt))
                (Bot.mk_world σ1 (AddressBook_add_record σ1 (Bot.book w) l)))
      as [w1 [[]|e]]; exact Hadd.
Qed.

Lemma change_contact_keeps_clean args w :
  List.Forall token args -> world_ok w -> world_clean w ->
  world_clean (fst (Bot.change_contact args w)).
Proof.
  intros Hargs Hok Hclean.
  destruct args as [|n [|old [|new rest]]]; try exact Hclean.
  assert (Hnew : token new).
  { inversion Hargs as [|? ? _ H1]; subst.
    inversion H1 as [|? ? _ H2]; subst. now inversion H2. }
  unfold Bot.change_contact.
  cbv [mbind mret Bot.cmd_bind Bot.cmd_ret Bot.lift Bot.find Bot.unpack3].
  destruct (AddressBook_find (Bot.book w) n) as [record|] eqn:Ef;
    [|exact Hclean].
  pose proof (on_record_keeps_clean (Record_edit_phone old new) record w
                (find_allocated w n record Hok Ef)
                (fun self => edit_phone_keeps_clean old new self Hnew)
                Hclean) as H.
  destruct (Bot.on_record record (Record_edit_phone old new) w)
    as [w1 [[|]|e]]; exact H.
Qed.

Lemma add_birthday_keeps_clean_world args w :
  world_ok w -> world_clean w ->
  world_clean (fst (Bot.add_birthday args w)).
Proof.
  intros Hok Hclean. destruct args as [|n [|text rest]]; try exact Hclean.
  unfold Bot.add_birthday.
  cbv [mbind mret Bot.cmd_bind Bot.cmd_ret Bot.lift Bot.find Bot.unpack2].
  destruct (AddressBook_find (Bot.book w) n) as [record|] eqn:Ef;
    [|exact Hclean].
  pose proof (on_record_keeps_clean (Record_add_birthday text) record w
                (find_allocated w n record Hok Ef)
                (add_birthday_keeps_clean text) Hclean) as H.
  destruct (Bot.on_record record (Record_add_birthday text) w)
    as [w1 [[]|e]]; exact H.
Qed.

Lemma main_turn_keeps_clean now user_input w :
  world_ok w -> world_clean w ->
  world_clean (fst (Bot.main_turn now user_input w)).
Proof.
  intros Hok Hclean. destruct (read_only_commands w) as (Hp & Ha & Hs & Hb).
  assert (Htok : List.Forall token (Bot.parse_input user_input))
    by (apply split_scan_tokens; constructor).
  unfold Bot.main_turn.
  destruct (Bot.parse_input user_input) as [|command args]; [exact Hclean|].
  inversion Htok as [|? ? _ Hargs]; subst.
  repeat match goal with
         | |- context [if ?b then _ else _] => destruct b
         end; cbn [fst]; try exact Hclean;
    rewrite ?Hp, ?Ha, ?Hs, ?Hb; try exact Hclean;
    rewrite input_error_world.
  - now apply add_contact_keeps_clean.
  - now apply change_contact_keeps_clean.
  - now apply add_birthday_keeps_clean_world.
Qed.

Lemma main_loop_keeps_clean lines :
  forall w,
    world_ok w -> world_clean w ->
    world_clean (snd (fst (Bot.main_loop lines w))).
Proof.
  induction lines as [|[now line] lines IH]; intros w Hok Hclean;
    [exact Hclean|].
  simpl. pose proof (main_turn_keeps_book_ok now line w Hok) as H1.
  pose proof (main_turn_keeps_clean now line w Hok Hclean) as H2.
  destruct (Bot.main_turn now line w) as [w1 [[text|text]|e]];
    [|exact H2|exact H2].
  specialize (IH w1 H1 H2).
  now destruct (Bot.main_loop lines w1) as [[texts w2] e].
Qed.

(** X30: Whatever lines [main] has read, the text the command [all] prints has
    one line for each contact of the book: no name, phone or date that got
    into the book holds a line end. *)
Theorem all_prints_one_line_per_contact
  (lines : list (Datetime.datetime * pystr)) :
  let w := snd (fst (Bot.main lines)) in
  Bot.input_error Bot.show_all_contacts w
  = (w, AddressBook_str (Bot.objects w) (Bot.book w))
  /\ newlines (AddressBook_str (Bot.objects w) (Bot.book w))
     = (length (Bot.book w) - 1)%nat.
Proof.
  intros w. split; [reflexivity|].
  assert (Hclean0 : world_clean (Bot.mk_world ∅ [])).
  { intros l r H. cbn [Bot.objects] in H. rewrite lookup_empty in H.
    discriminate H. }
  pose proof (main_loop_keeps_book_ok lines (Bot.mk_world ∅ [])
                (book_ok_empty ∅)) as H1.
  pose proof (main_loop_keeps_clean lines (Bot.mk_world ∅ [])
                (book_ok_empty ∅) Hclean0) as H2.
  subst w. unfold Bot.main.
  destruct (Bot.main_loop lines (Bot.mk_world ∅ [])) as [[texts w] e].
  now apply AddressBook_str_lines.
Qed.
